(** * ghametricscollector: the monitoring script, the action's input parser,
      its launcher and its post step

    A shallow embedding of [src/scripts/linux.sh] (the collector daemon), of
    [src/utils/inputParser.ts], of [src/post.ts] and of the [run] functions
    of the action, with the properties of the specification stated and
    settled over it.

    Conventions.
    - JSON values are the inductive [json]; objects are association lists in
      insertion order, as jq prints them.
    - jq, awk and JavaScript compute in IEEE 754 binary64.  A number is a
      [Double.double]: the exact value of a finite binary64 number (a
      rational), an infinity, or a NaN, and every arithmetic operation
      rounds its exact result to the nearest binary64 number, ties to even.
    - jq filters that can raise an error return [option]; [None] is the
      error.
    - Files live in a finite map from paths to contents.  A content is
      either raw bytes or "what jq printed for the values [vs]", kept
      symbolic: the layout of jq's printer is jq's business, reading it
      back gives [vs] (the numbers in the files are finite).
    - jq is not code of the repository.  What it reads from raw bytes, the
      text it prints for a value, its exit status after a run over several
      inputs, and whether its [tonumber] accepts white space (it did until
      jq 1.7, it does not since jq 1.8) are parameters of the model. *)

From Stdlib Require Import String Ascii List Bool ZArith Lia.
From Stdlib Require Import QArith Qround Qabs Qpower Qreduction Lqa.
From Stdlib Require Import DecimalString DecimalN.
From Stdlib Require Qcanon.
From Stdlib Require Floats.
From stdpp Require Import base option gmap strings.

Import ListNotations.
Local Open Scope string_scope.
Local Open Scope list_scope.

(** ** Numbers: IEEE 754 binary64 *)

Module Double.

(** A binary64 number: a finite one, given by its exact value, an infinity,
    or a NaN.  The sign of a zero is not kept: no program modelled here
    tells a negative zero from a positive one. *)
Inductive double :=
| Finite (q : Q)
| Infinity (negative : bool)
| NaN.

(** Round to the nearest integer, ties to even. *)
Definition round_half_even (x : Q) : Z :=
  let f := Qfloor x in
  match Qcompare (x - inject_Z f) (1 # 2) with
  | Lt => f
  | Gt => (f + 1)%Z
  | Eq => if Z.even f then f else (f + 1)%Z
  end.

Definition pow2 (e : Z) : Q := (2 ^ e)%Q.

(** The integer [k] with [2^k <= a < 2^(k+1)], for [a > 0]. *)
Definition ilog2 (a : Q) : Z :=
  let k := (Z.log2 (Qnum a) - Z.log2 (Z.pos (Qden a)))%Z in
  if Qle_bool (pow2 k) a then k else (k - 1)%Z.

Definition negative (q : Q) : bool := negb (Qle_bool 0 q).

(** The exponent of the last place of the binary64 numbers around [a > 0]:
    53 significant bits, and no place below [2^-1074]. *)
Definition ulp_exponent (a : Q) : Z := Z.max (ilog2 a - 52) (-1074).

(** The binary64 number nearest to [q], ties to even; an infinity when the
    rounded magnitude reaches [2^1024]. *)
Definition nearest (q : Q) : double :=
  if Qeq_bool q 0 then Finite 0
  else
    let a := Qabs q in
    let e := ulp_exponent a in
    let r := (inject_Z (round_half_even (a / pow2 e)) * pow2 e)%Q in
    if Qle_bool (pow2 1024) r then Infinity (negative q)
    else Finite (Qred (if negative q then - r else r)).

(** Rounding, on the reduced fraction: equal rationals round to the same
    term. *)
Definition round (q : Q) : double := nearest (Qred q).

Definition is_zero (x : double) : bool :=
  match x with
  | Finite q => Qeq_bool q 0
  | _ => false
  end.

Definition opp (x : double) : double :=
  match x with
  | Finite q => Finite (- q)
  | Infinity s => Infinity (negb s)
  | NaN => NaN
  end.

Definition abs (x : double) : double :=
  match x with
  | Finite q => Finite (Qabs q)
  | Infinity _ => Infinity false
  | NaN => NaN
  end.

Definition add (x y : double) : double :=
  match x, y with
  | NaN, _ | _, NaN => NaN
  | Infinity s, Infinity t => if Bool.eqb s t then Infinity s else NaN
  | Infinity s, Finite _ => Infinity s
  | Finite _, Infinity t => Infinity t
  | Finite p, Finite q => round (p + q)
  end.

Definition sub (x y : double) : double := add x (opp y).

Definition mul (x y : double) : double :=
  match x, y with
  | NaN, _ | _, NaN => NaN
  | Infinity s, Infinity t => Infinity (xorb s t)
  | Infinity s, Finite q | Finite q, Infinity s =>
      if Qeq_bool q 0 then NaN else Infinity (xorb s (negative q))
  | Finite p, Finite q => round (p * q)
  end.

(** Division, also by zero as IEEE 754 has it (the zero taken positive). *)
Definition div (x y : double) : double :=
  match x, y with
  | NaN, _ | _, NaN => NaN
  | Infinity _, Infinity _ => NaN
  | Infinity s, Finite q => Infinity (xorb s (negative q))
  | Finite _, Infinity _ => Finite 0
  | Finite p, Finite q =>
      if Qeq_bool q 0
      then (if Qeq_bool p 0 then NaN else Infinity (negative p))
      else round (p / q)
  end.

(** [x < y]; false when either is a NaN. *)
Definition ltb (x y : double) : bool :=
  match x, y with
  | NaN, _ | _, NaN => false
  | Infinity s, Infinity t => s && negb t
  | Infinity s, Finite _ => s
  | Finite _, Infinity t => negb t
  | Finite p, Finite q => negb (Qle_bool q p)
  end.

(** [x <= y]; false when either is a NaN. *)
Definition leb (x y : double) : bool :=
  match x, y with
  | NaN, _ | _, NaN => false
  | Infinity s, Infinity t => s || negb t
  | Infinity s, Finite _ => s
  | Finite _, Infinity t => negb t
  | Finite p, Finite q => Qle_bool p q
  end.

(** The binary64 number nearest to an integer. *)
Definition of_Z (z : Z) : double := round (inject_Z z).

End Double.

(** A rational written where a number is expected stands for the finite
    number of that value. *)
Coercion Double.Finite : Q >-> Double.double.
Bind Scope Q_scope with Double.double.

(** ** JSON values *)

#[local] Set Warnings "-register-all".

Inductive json : Type :=
| JNull
| JBool (b : bool)
| JNum (x : Double.double)
| JStr (s : string)
| JArr (items : list json)
| JObj (fields : list (string * json)).


(** ** Text: the string builtins of jq and bash that the script uses *)

Module Text.

Definition nl : string := String "010"%char "".

(** The double quote character, as a one-character string. *)
Definition dq : string := String "034"%char "".

Definition nonempty (s : string) : bool :=
  match s with
  | "" => false
  | String _ _ => true
  end.

(** Pieces of a string between separator characters; always at least one
    piece. *)
Fixpoint pieces (is_sep : ascii -> bool) (s : string) : list string :=
  match s with
  | "" => [""]
  | String c s' =>
      if is_sep c then "" :: pieces is_sep s'
      else match pieces is_sep s' with
           | [] => [String c ""]
           | w :: ws => String c w :: ws
           end
  end.

(** jq's [split(sep)] for a one-character [sep]: the empty string splits into
    the empty array, a trailing separator yields a last empty piece. *)
Definition split (sep : ascii) (s : string) : list string :=
  match s with
  | "" => []
  | _ => pieces (Ascii.eqb sep) s
  end.

Fixpoint strip_prefix (p s : string) : option string :=
  match p, s with
  | "", _ => Some s
  | String a p', String b s' =>
      if Ascii.eqb a b then strip_prefix p' s' else None
  | String _ _, "" => None
  end.

Definition rev (s : string) : string :=
  string_of_list_ascii (List.rev (list_ascii_of_string s)).

(** jq's [ltrimstr(p)]: removes [p] once when the input starts with it. *)
Definition ltrimstr (p s : string) : string :=
  default s (strip_prefix p s).

(** jq's [rtrimstr(p)]: removes [p] once when the input ends with it. *)
Definition rtrimstr (p s : string) : string :=
  match strip_prefix (rev p) (rev s) with
  | Some r => rev r
  | None => s
  end.

Fixpoint all_chars (ok : ascii -> bool) (s : string) : bool :=
  match s with
  | "" => true
  | String c s' => ok c && all_chars ok s'
  end.

Fixpoint has_char (c : ascii) (s : string) : bool :=
  match s with
  | "" => false
  | String c' s' => Ascii.eqb c c' || has_char c s'
  end.

(** bash's builtin [echo "$x"] with one argument: a dash followed by one or
    more of n, e, E is an option group, anything else is printed followed by
    a newline. *)
Definition echo (arg : string) : string :=
  match arg with
  | String "-" (String c flags) =>
      let fl := String c flags in
      if all_chars (fun a => Ascii.eqb a "n" || Ascii.eqb a "e"
                             || Ascii.eqb a "E")%char fl
      then (if has_char "n" fl then "" else nl)
      else arg ++ nl
  | _ => arg ++ nl
  end.

(** One of the alternatives of a [case] pattern [a|b]. *)
Definition one_of (s : string) (alts : list string) : bool :=
  existsb (String.eqb s) alts.

End Text.

(** ** Numbers in text *)

Module Num.

(** Decimal rendering of a natural number, as the kernel, [free] and [date]
    print their counters. *)
Definition dec (n : N) : string := NilZero.string_of_uint (N.to_uint n).

Definition is_digit (c : ascii) : bool :=
  let n := N_of_ascii c in ((48 <=? n) && (n <=? 57))%N.

(** awk's default field separators. *)
Definition is_blank (c : ascii) : bool :=
  (Ascii.eqb c " " || Ascii.eqb c "009" || Ascii.eqb c "010")%char.

(** JSON white space. *)
Definition is_ws (c : ascii) : bool :=
  (Ascii.eqb c " " || Ascii.eqb c "009" || Ascii.eqb c "010"
   || Ascii.eqb c "013")%char.

Fixpoint take_while (p : ascii -> bool) (s : string) : string :=
  match s with
  | "" => ""
  | String c s' => if p c then String c (take_while p s') else ""
  end.

Fixpoint drop_while (p : ascii -> bool) (s : string) : string :=
  match s with
  | "" => ""
  | String c s' => if p c then drop_while p s' else s
  end.

(** The string without its trailing characters that satisfy [p]. *)
Fixpoint drop_trailing (p : ascii -> bool) (s : string) : string :=
  match s with
  | "" => ""
  | String c s' =>
      match drop_trailing p s' with
      | "" => if p c then "" else String c ""
      | String _ _ as r => String c r
      end
  end.

Definition trim (p : ascii -> bool) (s : string) : string :=
  drop_trailing p (drop_while p s).

(** An unsigned decimal integer literal: one or more digits, nothing else. *)
Definition read_uint (s : string) : option N :=
  N.of_uint <$> NilZero.uint_of_string s.

(** The number a decimal integer literal denotes for jq, awk and
    JavaScript: the binary64 number nearest to it. *)
Definition of_N (n : N) : Double.double := Double.of_Z (Z.of_N n).

Definition digit_char (d : Z) : ascii := ascii_of_N (48 + Z.to_N d).

(** The number of hundredths that [printf "%.2f"] prints for the value [x],
    in magnitude: the C library rounds the exact value of the binary64
    number, ties to even. *)
Definition hundredths (x : Q) : Z :=
  Double.round_half_even (Qabs x * 100)%Q.

(** The text of a finite value with two decimals: sign, integer part, a
    point, exactly two digits. *)
Definition fixed2 (x : Q) : string :=
  let h := hundredths x in
  (if Qlt_le_dec x 0 then "-" else "")
  ++ dec (Z.to_N (h / 100)) ++ "."
  ++ String (digit_char ((h mod 100) / 10)%Z)
       (String (digit_char (h mod 10)%Z) "").

(** [printf "%.2f"].  An infinity prints as inf or -inf; [None] stands for
    a NaN, whose text (nan or -nan) depends on the platform. *)
Definition printf_2f (x : Double.double) : option string :=
  match x with
  | Double.Finite q => Some (fixed2 q)
  | Double.Infinity negative => Some (if negative then "-inf" else "inf")
  | Double.NaN => None
  end.

End Num.


(** ** jq: the builtins the script uses *)

Module Jq.

(** Lookup of a key in an object's field list. *)
Fixpoint assoc (k : string) (o : list (string * json)) : option json :=
  match o with
  | [] => None
  | (k', v) :: o' => if String.eqb k k' then Some v else assoc k o'
  end.

(** Setting a key keeps the position of an existing key and puts a new key
    last. *)
Fixpoint obj_set (k : string) (v : json) (o : list (string * json))
  : list (string * json) :=
  match o with
  | [] => [(k, v)]
  | (k', v') :: o' =>
      if String.eqb k k' then (k', v) :: o' else (k', v') :: obj_set k v o'
  end.

(** [a + b] on objects: the fields of [b] are set in [a], left to right. *)
Definition obj_merge (a b : list (string * json)) : list (string * json) :=
  fold_left (fun acc kv => obj_set (fst kv) (snd kv) acc) b a.

Definition keys (o : list (string * json)) : list string := map fst o.

(** jq's [+]. *)
Definition add (a b : json) : option json :=
  match a, b with
  | JNull, _ => Some b
  | _, JNull => Some a
  | JNum x, JNum y => Some (JNum (Double.add x y))
  | JStr x, JStr y => Some (JStr (x ++ y))
  | JArr x, JArr y => Some (JArr (x ++ y))
  | JObj x, JObj y => Some (JObj (obj_merge x y))
  | _, _ => None
  end.

(** jq's [/] on numbers; dividing by zero and dividing anything that is
    not a number by a number are errors.  (String by string is [split];
    the script never divides by a string.) *)
Definition div (a b : json) : option json :=
  match a, b with
  | JNum x, JNum y =>
      if Double.is_zero y then None else Some (JNum (Double.div x y))
  | _, _ => None
  end.

(** [.key]: null propagates, a missing key reads as null, anything that is
    neither an object nor null cannot be indexed with a string. *)
Definition field (k : string) (v : json) : option json :=
  match v with
  | JObj o => Some (default JNull (assoc k o))
  | JNull => Some JNull
  | _ => None
  end.

(** [.k1.k2...kn] *)
Fixpoint path (ks : list string) (v : json) : option json :=
  match ks with
  | [] => Some v
  | k :: ks' => match field k v with
                | Some v' => path ks' v'
                | None => None
                end
  end.

(** [add] (the builtin): [reduce .[] as $x (null; . + $x)]. *)
Definition sum (vs : list json) : option json :=
  fold_left (fun acc v => match acc with
                          | Some a => add a v
                          | None => None
                          end) vs (Some JNull).

(** The number of elements of a list, as a number. *)
Definition count {A : Type} (l : list A) : Double.double :=
  Double.of_Z (Z.of_nat (List.length l)).

(** [length]: defined on everything but booleans.  (A string counts its
    characters; the model counts bytes.) *)
Definition length (v : json) : option Double.double :=
  match v with
  | JNull => Some (Double.Finite 0)
  | JBool _ => None
  | JNum x => Some (Double.abs x)
  | JStr s => Some (Double.of_Z (Z.of_nat (String.length s)))
  | JArr l => Some (count l)
  | JObj o => Some (count o)
  end.

(** [.[s:]] on an array, with jq's clamping of the start index. *)
Definition slice_from {A : Type} (s : Z) (l : list A) : list A :=
  let n := Z.of_nat (List.length l) in
  let s1 := if (s <? 0)%Z then (s + n)%Z else s in
  let s2 := if (s1 <? 0)%Z then 0%Z else s1 in
  let s3 := if (n <? s2)%Z then n else s2 in
  skipn (Z.to_nat s3) l.

(** jq's [tonumber].  Numbers pass through; a string is read as a number
    literal.  Until jq 1.7 the string is read as a JSON text, so white
    space around the literal is allowed; since jq 1.8 ([strict]) the
    string has to be the literal alone.  The strings the script feeds it
    are columns of [free], [df] and [/proc/uptime]: unsigned decimal
    integers, the last column of a line still carrying the newline that
    ends the line.  Literals with a sign, a fraction or an exponent do not
    occur there and are not read by this model. *)
Definition tonumber (strict : bool) (v : json) : option json :=
  match v with
  | JNum _ => Some v
  | JStr s =>
      (fun n => JNum (Num.of_N n))
        <$> Num.read_uint (if strict then s else Num.trim Num.is_ws s)
  | _ => None
  end.

(** jq's [*] on numbers. *)
Definition mul (a b : json) : option json :=
  match a, b with
  | JNum x, JNum y => Some (JNum (Double.mul x y))
  | _, _ => None
  end.

(** [.[i]] on an array: null past the end. *)
Definition index (i : nat) (l : list json) : json :=
  default JNull (nth_error l i).

End Jq.

(** ** Metric samplers *)

(** [get_memory_info]: the jq program, run with [-Rs] on the line that
    [free -b | grep "^Mem:"] prints. *)
Definition get_memory_info (strict : bool) (free_mem : string)
  : option json :=
  let f := map JStr (List.filter Text.nonempty (Text.split " " free_mem)) in
  total ← Jq.tonumber strict (Jq.index 1 f);
  used ← Jq.tonumber strict (Jq.index 2 f);
  free ← Jq.tonumber strict (Jq.index 3 f);
  available ← Jq.tonumber strict (Jq.index 6 f);
  ratio ← Jq.div used total;
  usage ← Jq.mul ratio (JNum 100);
  Some (JObj [("total_bytes", total); ("used_bytes", used);
              ("free_bytes", free); ("available_bytes", available);
              ("usage_percent", usage)]).

Module Awk.

(** Field splitting with the default separator: runs of blanks separate
    fields, leading and trailing blanks are dropped. *)
Definition fields (line : string) : list string :=
  List.filter Text.nonempty (Text.pieces Num.is_blank line).

(** [$i] for [i >= 1]: the empty string past the last field. *)
Definition field (i : nat) (fs : list string) : string :=
  default "" (nth_error fs (pred i)).

(** A field used as a number: the value of its leading decimal digits, 0
    when it has none.  (The fields of the [cpu] line are unsigned decimal
    integers; signs, fractions and exponents are not read by this model.) *)
Definition num (s : string) : Double.double :=
  Num.of_N (default 0%N (Num.read_uint (Num.take_while Num.is_digit s))).

(** Division.  What a division by zero does depends on the awk: gawk stops
    with a fatal error and prints nothing, mawk goes on with an infinity or
    a NaN; [None] stands for both. *)
Definition div (x y : Double.double) : option Double.double :=
  if Double.is_zero y then None else Some (Double.div x y).

End Awk.

(** The awk program of [get_cpu_info], on the line selected by
    [grep 'cpu ' /proc/stat]: the text assigned to [cpu_usage].  [None]
    when the text depends on the awk or on the platform (a division by
    zero, a NaN). *)
Definition cpu_usage (stat_line : string) : option string :=
  let fs := Awk.fields stat_line in
  let f i := Awk.num (Awk.field i fs) in
  let total :=
    fold_left Double.add
      [f 3%nat; f 4%nat; f 5%nat; f 6%nat; f 7%nat; f 8%nat] (f 2%nat) in
  q ← Awk.div (Double.mul (f 5%nat) 100) total;
  text ← Num.printf_2f (Double.sub 100 q);
  Some ("{" ++ Text.dq ++ "usage_percent" ++ Text.dq ++ ": "
        ++ text ++ "}")%string.


(** ** GitHub context: [parse_repos_to_json] *)

Definition repo_object (t : string) : json :=
  JObj [("name", JStr t); ("url", JStr ("https://github.com/" ++ t))].

(** The jq program of [parse_repos_to_json], run with [-Rs] on its whole
    standard input as one string. *)
Definition repos_filter (input : string) : json :=
  JArr (map repo_object
          (List.filter Text.nonempty
             (map (fun t => Text.rtrimstr " " (Text.ltrimstr " " t))
                (Text.split "," input)))).

Definition parse_repos_to_json (repos : string) : json :=
  match repos with
  | "" => JArr []
  | _ => repos_filter (Text.echo repos)
  end.

(** ** Configuration and the argument loop *)

Record config := {
  OUTPUT_FILE : string;
  MODE : string;
  USER_LOGIN : string;
  GITHUB_REPOS : string;
  UPDATE_INTERVAL : string;
  MAX_ENTRIES : string
}.

Definition defaults : config := {|
  OUTPUT_FILE := "/tmp/system_monitor.json";
  MODE := "minimal";
  USER_LOGIN := "";
  GITHUB_REPOS := "";
  UPDATE_INTERVAL := "1";
  MAX_ENTRIES := "1440"
|}.

(** The loop either falls through with the final configuration or leaves the
    script: status 0 after the help text, status 1 on an unknown option, and
    status 1 as well when an option is last and [$2] is unbound under
    [set -u]. *)
Inductive startup :=
| Run (c : config)
| Exit (status : Z).

Inductive option_kind :=
| OOutput | OMode | OUser | ORepos | OInterval | OMaxEntries | OHelp | OUnknown.

(** The arms of the [case $1 in ... esac], in the order of the script. *)
Definition classify (opt : string) : option_kind :=
  if Text.one_of opt ["-o"; "--output"] then OOutput
  else if Text.one_of opt ["-m"; "--mode"] then OMode
  else if Text.one_of opt ["-u"; "--user"] then OUser
  else if Text.one_of opt ["-r"; "--repos"] then ORepos
  else if Text.one_of opt ["-i"; "--interval"] then OInterval
  else if Text.one_of opt ["--max-entries"] then OMaxEntries
  else if Text.one_of opt ["-h"; "--help"] then OHelp
  else OUnknown.

Definition assign (k : option_kind) (v : string) (c : config) : config :=
  match k with
  | OOutput =>
      {| OUTPUT_FILE := v; MODE := MODE c; USER_LOGIN := USER_LOGIN c;
         GITHUB_REPOS := GITHUB_REPOS c; UPDATE_INTERVAL := UPDATE_INTERVAL c;
         MAX_ENTRIES := MAX_ENTRIES c |}
  | OMode =>
      {| OUTPUT_FILE := OUTPUT_FILE c; MODE := v; USER_LOGIN := USER_LOGIN c;
         GITHUB_REPOS := GITHUB_REPOS c; UPDATE_INTERVAL := UPDATE_INTERVAL c;
         MAX_ENTRIES := MAX_ENTRIES c |}
  | OUser =>
      {| OUTPUT_FILE := OUTPUT_FILE c; MODE := MODE c; USER_LOGIN := v;
         GITHUB_REPOS := GITHUB_REPOS c; UPDATE_INTERVAL := UPDATE_INTERVAL c;
         MAX_ENTRIES := MAX_ENTRIES c |}
  | ORepos =>
      {| OUTPUT_FILE := OUTPUT_FILE c; MODE := MODE c;
         USER_LOGIN := USER_LOGIN c; GITHUB_REPOS := v;
         UPDATE_INTERVAL := UPDATE_INTERVAL c; MAX_ENTRIES := MAX_ENTRIES c |}
  | OInterval =>
      {| OUTPUT_FILE := OUTPUT_FILE c; MODE := MODE c;
         USER_LOGIN := USER_LOGIN c; GITHUB_REPOS := GITHUB_REPOS c;
         UPDATE_INTERVAL := v; MAX_ENTRIES := MAX_ENTRIES c |}
  | OMaxEntries =>
      {| OUTPUT_FILE := OUTPUT_FILE c; MODE := MODE c;
         USER_LOGIN := USER_LOGIN c; GITHUB_REPOS := GITHUB_REPOS c;
         UPDATE_INTERVAL := UPDATE_INTERVAL c; MAX_ENTRIES := v |}
  | OHelp | OUnknown => c
  end.

Fixpoint parse_args (args : list string) (c : config) : startup :=
  match args with
  | [] => Run c
  | opt :: rest =>
      match classify opt with
      | OHelp => Exit 0
      | OUnknown => Exit 1
      | k => match rest with
             | [] => Exit 1
             | v :: rest' => parse_args rest' (assign k v c)
             end
      end
  end.

(** ** Entry assembly: [collect_entry] *)

(** What the script reads from its host for one entry: the clock, the login
    name, and what each sampler printed, as the command substitutions
    [$(get_cpu_info)] and the like capture it and [jq --argjson] reads it:
    the JSON value when the text is exactly one JSON value, [None] when it
    is anything else (nothing at all after a sampler that failed, or two
    documents). *)
Record host := {
  date_utc : string;
  whoami : string;
  cpu_info : option json;
  memory_info : option json;
  disk_info : option json;
  system_info : option json;
  network_info : option json;
  top_processes : option json
}.

(** The [system] value of each mode; [None] when jq rejects one of its
    [--argjson] arguments. *)
Definition minimal_system (h : host) : option json :=
  cpu ← cpu_info h;
  memory ← memory_info h;
  disk ← disk_info h;
  Some (JObj [("cpu", cpu); ("memory", memory); ("disk", disk)]).

Definition extended_system (h : host) : option json :=
  cpu ← cpu_info h;
  memory ← memory_info h;
  disk ← disk_info h;
  system ← system_info h;
  network ← network_info h;
  processes ← top_processes h;
  Some (JObj [("info", system); ("cpu", cpu); ("memory", memory);
              ("disk", disk); ("network", network);
              ("top_processes", processes)]).

Definition full_system (h : host) : option json :=
  cpu ← cpu_info h;
  memory ← memory_info h;
  disk ← disk_info h;
  system ← system_info h;
  network ← network_info h;
  processes ← top_processes h;
  Some (JObj [("info", system); ("cpu", cpu); ("memory", memory);
              ("disk", disk); ("network", network);
              ("top_processes", processes)]).

(** [collect_entry]: the entry it prints, [None] when it prints an empty
    line.  The function runs inside the command substitution
    [entry=$(collect_entry)], where bash clears [set -e]: when the jq of a
    mode fails, [entry] becomes the empty string and the function goes on
    to its [echo]. *)
Definition collect_entry (c : config) (h : host) : option json :=
  let timestamp := date_utc h in
  let current_user :=
    match USER_LOGIN c with "" => whoami h | u => u end in
  let repos_json := parse_repos_to_json (GITHUB_REPOS c) in
  let entry := JObj [] in
  entry ← Jq.add
    (JObj [("timestamp", JStr timestamp);
           ("github_context",
            JObj [("user", JStr current_user);
                  ("repositories", repos_json)])])
    entry;
  if String.eqb (MODE c) "minimal" then
    system ← minimal_system h;
    Jq.add entry (JObj [("system", system)])
  else if String.eqb (MODE c) "extended" then
    system ← extended_system h;
    Jq.add entry (JObj [("system", system)])
  else if String.eqb (MODE c) "full" then
    system ← full_system h;
    Jq.add entry (JObj [("system", system)])
  else Some entry.

(** ** The shell around the jq programs *)

Module Sh.

(** The lines of a text: a final newline ends the last line and starts no
    other. *)
Definition lines (s : string) : list string :=
  let ps := Text.pieces (Ascii.eqb "010") s in
  match last ps with
  | Some "" => removelast ps
  | _ => ps
  end.

(** Lines written out, each with its newline. *)
Fixpoint unlines (ls : list string) : string :=
  match ls with
  | [] => ""
  | l :: ls' => (l ++ Text.nl ++ unlines ls')%string
  end.

(** [cut -d D -f1]: of each line, what comes before the first delimiter,
    all of the line when it has none. *)
Definition cut_f1 (d : ascii) (text : string) : string :=
  unlines (map (Num.take_while (fun a => negb (Ascii.eqb a d))) (lines text)).

(** [$(...)]: the output without its trailing newlines. *)
Definition substitution (out : string) : string :=
  Num.drop_trailing (Ascii.eqb "010") out.

End Sh.

(** ** Files, the lock and the bounded array store

    The lines the script logs with [echo] (the warning of a forced lock, the
    notice of a new or reset file, the count after an append) are not
    modelled. *)

(** A file holds raw bytes, or the text jq printed for a sequence of
    values, one after the other. *)
Inductive content :=
| Bytes (s : string)
| Printed (vs : list json).

(** What jq leaves in the file its output is redirected to: nothing printed
    is an empty file. *)
Definition written (vs : list json) : content :=
  match vs with
  | [] => Bytes ""
  | _ :: _ => Printed vs
  end.

(** What jq reads from a text: the JSON values it holds, up to its end or
    up to the first thing that is not JSON, and whether the end was
    reached. *)
Record parsed := {
  values : list json;
  complete : bool
}.

(** The files, by path. *)
Abbreviation files := (gmap string content).

(** What the other processes do to the files during each sleep of the
    script, by the number of the sleep. *)
Abbreviation interference :=
  (nat -> gmap string content -> gmap string content).

Definition LOCK_TIMEOUT : nat := 10.

Definition LOCK_FILE (c : config) : string := OUTPUT_FILE c ++ ".lock".

Definition temp_file (c : config) : string := OUTPUT_FILE c ++ ".tmp".

Definition backup_file (c : config) (epoch : N) : string :=
  OUTPUT_FILE c ++ ".backup." ++ Num.dec epoch.

(** The [while] loop of [acquire_lock].  [fuel] is what is left of
    [LOCK_TIMEOUT] after [count] sleeps; [others i] is what the other
    processes do to the files during sleep number [i]. *)
Fixpoint wait_lock (others : interference)
  (lock : string) (fuel count : nat) (fs : files)
  : nat * files :=
  match fs !! lock with
  | None => (count, fs)
  | Some _ =>
      match fuel with
      | O => (count, fs)
      | S fuel' => wait_lock others lock fuel' (S count) (others count fs)
      end
  end.

(** The files once the loop is over and a lock that outlived the timeout has
    been removed; [echo $$ > "$LOCK_FILE"] comes next. *)
Definition after_wait (others : interference)
  (c : config) (fs : files) : files :=
  let '(count, fs1) := wait_lock others (LOCK_FILE c) LOCK_TIMEOUT 0 fs in
  if Nat.eqb count LOCK_TIMEOUT then delete (LOCK_FILE c) fs1 else fs1.

Definition acquire_lock (others : interference)
  (c : config) (pid : N) (fs : files) : files :=
  <[LOCK_FILE c := Bytes (Text.echo (Num.dec pid))]> (after_wait others c fs).

(** Number of half-second sleeps [acquire_lock] goes through. *)
Definition lock_ticks (others : interference)
  (c : config) (fs : files) : nat :=
  fst (wait_lock others (LOCK_FILE c) LOCK_TIMEOUT 0 fs).

(** Seconds spent in [sleep 0.5]. *)
Definition lock_seconds (others : interference)
  (c : config) (fs : files) : Q :=
  (inject_Z (Z.of_nat (lock_ticks others c fs)) * (1 # 2))%Q.

Definition release_lock (c : config) (fs : files)
  : files :=
  delete (LOCK_FILE c) fs.

(** Nobody else touches the files. *)
Definition quiet (i : nat) (fs : files) : files := fs.

(** The jq program of [append_entry]:
    [. + [$entry] | if length > $max then .[-$max:] else . end]. *)
Definition append_filter (entry : json) (max : Z) (doc : json) : option json :=
  match Jq.add doc (JArr [entry]) with
  | Some (JArr l) =>
      Some (JArr (if (max <? Z.of_nat (length l))%Z
                  then Jq.slice_from (- max)%Z l
                  else l))
  | _ => None
  end.

(** A step of the script under [set -e]: it goes on, or the script dies and
    leaves the files as they are at that point. *)
Inductive outcome :=
| Done (fs : files)
| Died (fs : files).

Section Store.

(** What jq reads from raw bytes that are not empty. *)
Variable jq_parse : string -> parsed.

(** Whether jq exits with status 0 after it ran its program on two or more
    inputs, given for each input, in order, whether the program succeeded
    on it.  (With one input the status tells whether the program
    succeeded; without input it is 0.) *)
Variable several : list bool -> bool.

(** The text jq prints for a value that is not a string (in [tostring] and
    in string interpolation). *)
Variable tojson : json -> string.

Definition jq_read (f : content) : parsed :=
  match f with
  | Printed vs => {| values := vs; complete := true |}
  | Bytes "" => {| values := []; complete := true |}
  | Bytes s => jq_parse s
  end.

(** Exit status 0 of a jq run without [-e], from the outcome of the program
    on each input. *)
Definition exit_ok (outcomes : list bool) : bool :=
  match outcomes with
  | [] => true
  | [ok] => ok
  | _ => several outcomes
  end.

(** Whether the program succeeded on an input. *)
Definition succeeded {A : Type} (out : option A) : bool :=
  match out with
  | Some _ => true
  | None => false
  end.

(** [jq PROGRAM FILE] on a file that exists: what it prints, one output for
    each value of the file on which the program succeeds, and whether its
    exit status is 0.  Text that is not JSON ends the run with an error
    after the values before it have been processed. *)
Definition jq_file {A : Type} (program : json -> option A) (f : content)
  : list A * bool :=
  let r := jq_read f in
  let outs := map program (values r) in
  (omap id outs, complete r && exit_ok (map succeeded outs)).

(** Exit status 0 of [jq -e '. | type == "array"' FILE]: the file is read
    to its end and the last output is true, that is, the last value of the
    file is an array. *)
Definition is_json_array (f : content) : bool :=
  let r := jq_read f in
  complete r
  && match last (values r) with
     | Some (JArr _) => true
     | _ => false
     end.

(** [initialize_file].  ([chmod 644] is not modelled: files carry no
    permissions here.) *)
Definition initialize_file (c : config) (epoch : N) (fs : files)
  : files :=
  match fs !! OUTPUT_FILE c with
  | None => <[OUTPUT_FILE c := Bytes (Text.echo "[]")]> fs
  | Some f =>
      if is_json_array f then fs
      else <[OUTPUT_FILE c := Bytes (Text.echo "[]")]>
             (<[backup_file c epoch := f]> (delete (OUTPUT_FILE c) fs))
  end.

(** [append_entry], with [max] the integer that [--argjson max] reads from
    [$MAX_ENTRIES].  The redirection creates the temporary file before jq
    starts; when jq fails the script dies under [set -e], holding the lock
    and leaving in the temporary file what jq had printed. *)
Definition append_entry (others : interference)
  (c : config) (pid : N) (max : Z) (new_entry : json)
  (fs : files) : outcome :=
  let fs1 := acquire_lock others c pid fs in
  match fs1 !! OUTPUT_FILE c with
  | None => Died (<[temp_file c := Bytes ""]> fs1)
  | Some f =>
      let '(outs, ok) := jq_file (append_filter new_entry max) f in
      let fs2 := <[temp_file c := written outs]> fs1 in
      if ok then
        let fs3 := <[OUTPUT_FILE c := written outs]>
                     (delete (temp_file c) fs2) in
        Done (release_lock c fs3)
      else Died fs2
  end.

(** [N] appends in a row by one process, nobody else around. *)
Fixpoint append_entries (c : config) (pid : N) (max : Z) (entries : list json)
  (fs : files) : outcome :=
  match entries with
  | [] => Done fs
  | e :: es =>
      match append_entry quiet c pid max e fs with
      | Done fs' => append_entries c pid max es fs'
      | Died fs' => Died fs'
      end
  end.

(** One round of the loop of [main]: [entry=$(collect_entry)], then
    [append_entry "$entry"].  An empty entry is not a JSON text: jq rejects
    its [--argjson entry] before it reads the output file, and the script
    dies in [append_entry] as it does when jq fails on the file.  (The
    status line that follows in minimal mode and the sleep are not
    modelled.) *)
Definition monitor_round (others : interference)
  (c : config) (pid : N) (max : Z) (h : host) (fs : files) : outcome :=
  match collect_entry c h with
  | Some entry => append_entry others c pid max entry fs
  | None => Died (<[temp_file c := Bytes ""]> (acquire_lock others c pid fs))
  end.

(** What jq reads from the output file; [None] when the file is missing. *)
Definition read_output (c : config) (fs : files) : option parsed :=
  jq_read <$> fs !! OUTPUT_FILE c.

(** The array stored in the output file: the file holds one JSON value and
    nothing else, and that value is an array. *)
Definition stored_array (c : config) (fs : files)
  : option (list json) :=
  match read_output c fs with
  | Some {| values := [JArr l]; complete := true |} => Some l
  | _ => None
  end.

(** [print_stats] *)

Definition cpu_path : list string :=
  ["system"; "cpu"; "current_usage"; "usage_percent"].

Definition memory_path : list string := ["system"; "memory"; "usage_percent"].

(** [[.[] | .k1.k2...] | add / length] *)
Definition average (ks : list string) (l : list json) : option json :=
  vs ← mapM (Jq.path ks) l;
  s ← Jq.sum vs;
  Jq.div s (JNum (Jq.count vs)).

(** The object that the [then] branch builds.  [first] and [last] are
    [.[0]] and [.[-1]]: they index arrays (and null) only. *)
Definition stats_object (doc : json) : option json :=
  match doc with
  | JArr l =>
      first_timestamp ← Jq.field "timestamp" (default JNull (head l));
      last_timestamp ← Jq.field "timestamp" (default JNull (last l));
      avg_cpu ← average cpu_path l;
      avg_memory ← average memory_path l;
      Some (JObj [("total_entries", JNum (Jq.count l));
                  ("first_timestamp", first_timestamp);
                  ("last_timestamp", last_timestamp);
                  ("avg_cpu", avg_cpu);
                  ("avg_memory", avg_memory)])
  | _ => None
  end.

(** [tostring], and what a string interpolation prints. *)
Definition tostring (v : json) : string :=
  match v with
  | JStr s => s
  | _ => tojson v
  end.

Definition stats_text (o : json) : option string :=
  total_entries ← Jq.field "total_entries" o;
  first_timestamp ← Jq.field "first_timestamp" o;
  last_timestamp ← Jq.field "last_timestamp" o;
  avg_cpu ← Jq.field "avg_cpu" o;
  avg_memory ← Jq.field "avg_memory" o;
  Some ("Statistics:" ++ Text.nl
        ++ "  Total entries: " ++ tostring total_entries ++ Text.nl
        ++ "  First entry: " ++ tostring first_timestamp ++ Text.nl
        ++ "  Last entry: " ++ tostring last_timestamp ++ Text.nl
        ++ "  Average CPU: " ++ substring 0 5 (tostring avg_cpu) ++ "%"
        ++ Text.nl
        ++ "  Average Memory: " ++ substring 0 5 (tostring avg_memory)
        ++ "%")%string.

(** The jq program of [print_stats]; [None] is a jq error. *)
Definition stats_filter (doc : json) : option string :=
  n ← Jq.length doc;
  if Double.ltb 0 n then stats_object doc ≫= stats_text
  else Some "No data collected yet".

(** What [print_stats] assigns to [stats] and prints: nothing without an
    output file; else what the command substitution captures, that is, the
    lines [jq -r] printed, followed by the fallback of the [||] when jq
    failed, without the trailing newlines. *)
Definition print_stats (c : config) (fs : files) : option string :=
  match fs !! OUTPUT_FILE c with
  | None => None
  | Some f =>
      let '(outs, ok) := jq_file stats_filter f in
      Some (Sh.substitution
              (Sh.unlines outs
               ++ (if ok then ""
                   else Text.echo "Unable to calculate statistics")))
  end.

End Store.

(** ** The action's input parser: [inputParser.ts] *)

Module InputParser.

(** A JavaScript number. *)
Definition number : Type := Double.double.

Definition NaN : number := Double.NaN.

(** The number of an integer that binary64 holds exactly. *)
Definition Int (z : Z) : number := Double.Finite (inject_Z z).

Record ActionInputs := {
  mode : string;
  interval : number
}.

(** White space that [parseInt] skips (the ASCII part of it). *)
Definition is_space (c : ascii) : bool :=
  let n := N_of_ascii c in
  ((n =? 32) || ((9 <=? n) && (n <=? 13)))%N.

Definition digit_value (radix : Z) (c : ascii) : option Z :=
  let n := Z.of_N (N_of_ascii c) in
  let v :=
    if ((48 <=? n) && (n <=? 57))%Z then Some (n - 48)%Z
    else if ((97 <=? n) && (n <=? 122))%Z then Some (n - 87)%Z
    else if ((65 <=? n) && (n <=? 90))%Z then Some (n - 55)%Z
    else None in
  match v with
  | Some d => if (d <? radix)%Z then Some d else None
  | None => None
  end.

(** Value of the longest prefix of digits, [None] when there is no digit. *)
Fixpoint digits (radix : Z) (acc : option Z) (s : string) : option Z :=
  match s with
  | "" => acc
  | String c s' =>
      match digit_value radix c with
      | Some d => digits radix (Some (default 0 acc * radix + d)%Z) s'
      | None => acc
      end
  end.

(** [parseInt(s)] with no radix argument: the number nearest to the integer
    the digits denote (an infinity when they are too many), NaN without a
    digit. *)
Definition parseInt (s : string) : number :=
  let s1 := Num.drop_while is_space s in
  let '(sign, s2) :=
    match s1 with
    | String "-" r => ((-1)%Z, r)
    | String "+" r => (1%Z, r)
    | _ => (1%Z, s1)
    end in
  let '(radix, s3) :=
    match s2 with
    | String "0" (String "x" r) => (16%Z, r)
    | String "0" (String "X" r) => (16%Z, r)
    | _ => (10%Z, s2)
    end in
  match digits radix None s3 with
  | Some v => Double.of_Z (sign * v)
  | None => NaN
  end.

(** [x || y] on strings: the empty string is falsy. *)
Definition or_string (x y : string) : string :=
  match x with
  | "" => y
  | String _ _ => x
  end.

(** [x || y] on numbers: NaN and 0 are falsy. *)
Definition or_number (x y : number) : number :=
  match x with
  | Double.NaN => y
  | Double.Finite q => if Qeq_bool q 0 then y else x
  | Double.Infinity _ => x
  end.

Definition isNaN (x : number) : bool :=
  match x with
  | Double.NaN => true
  | _ => false
  end.

(** [x <= 0]; false on NaN. *)
Definition le_zero (x : number) : bool := Double.leb x (Int 0).

(** [parseInputs], with [getInput] standing for [core.getInput]. *)
Definition parseInputs (getInput : string -> string) : ActionInputs :=
  let mode := or_string (getInput "mode") "minimal" in
  let interval := or_number (parseInt (getInput "interval")) (Int 1) in
  let mode :=
    if negb (existsb (String.eqb mode) ["minimal"; "extended"; "full"])
    then "minimal" else mode in
  let interval :=
    if isNaN interval || le_zero interval then Int 1 else interval in
  {| mode := mode; interval := interval |}.

End InputParser.

(** * More of the script and of the action *)

(** ** Further samplers *)

(** jq's [rtrimstr(p)] on any value: what is not a string passes through. *)
Definition rtrimstr_value (p : string) (v : json) : json :=
  match v with
  | JStr s => JStr (Text.rtrimstr p s)
  | _ => v
  end.

(** The object the jq program of [get_disk_info] builds from the columns of
    one line. *)
Definition disk_object (strict : bool) (cols : list json) : option json :=
  size ← Jq.tonumber strict (Jq.index 1 cols);
  used ← Jq.tonumber strict (Jq.index 2 cols);
  available ← Jq.tonumber strict (Jq.index 3 cols);
  use ← Jq.tonumber strict (rtrimstr_value "%" (Jq.index 4 cols));
  Some (JObj [("filesystem", Jq.index 0 cols); ("size_bytes", size);
              ("used_bytes", used); ("available_bytes", available);
              ("use_percentage", use); ("mounted_on", Jq.index 5 cols)]).

(** [get_disk_info]: the jq program, run with [-Rs] on the lines that
    [df -B1 ... | tail -n +2] prints. *)
Definition get_disk_info (strict : bool) (df_rows : string) : option json :=
  let lines := List.filter Text.nonempty (Text.split "010" df_rows) in
  JArr <$> mapM (fun line =>
                   disk_object strict
                     (map JStr (List.filter Text.nonempty
                                  (Text.split " " line))))
             lines.

(** [get_system_info], given what [hostname] and [uname -r] print (as the
    command substitutions capture it) and the content of [/proc/uptime]. *)
Definition get_system_info (strict : bool)
  (hostname kernel proc_uptime : string) : option json :=
  let uptime_seconds :=
    Sh.substitution (Sh.cut_f1 "." (Sh.cut_f1 " " proc_uptime)) in
  uptime ← Jq.tonumber strict (JStr uptime_seconds);
  Some (JObj [("hostname", JStr hostname); ("kernel", JStr kernel);
              ("uptime_seconds", uptime)]).

(** [.[]]: the elements of an array, the values of an object. *)
Definition iterate (doc : json) : option (list json) :=
  match doc with
  | JArr l => Some l
  | JObj o => Some (map snd o)
  | _ => None
  end.

(** [. != "lo"] *)
Definition not_lo (v : json) : bool :=
  match v with
  | JStr s => negb (String.eqb s "lo")
  | _ => true
  end.

(** [select(.ifname != "lo")] on one element: the element or nothing. *)
Definition select_interface (i : json) : option (list json) :=
  ifname ← Jq.field "ifname" i;
  Some (if not_lo ifname then [i] else []).

(** The object built for an interface. *)
Definition interface_object (i : json) : option json :=
  ifname ← Jq.field "ifname" i;
  operstate ← Jq.field "operstate" i;
  rx ← Jq.path ["stats64"; "rx"; "bytes"] i;
  tx ← Jq.path ["stats64"; "tx"; "bytes"] i;
  Some (JObj [("interface", ifname); ("state", operstate);
              ("stats", JObj [("rx_bytes", rx); ("tx_bytes", tx)])]).

(** The jq program of [get_network_info] on one document. *)
Definition network_filter (doc : json) : option json :=
  items ← iterate doc;
  selected ← mapM select_interface items;
  JArr <$> mapM interface_object (concat selected).

(** What [ip -s -j link show] wrote to the pipe, as jq reads it: its exit
    status, the JSON document it printed if any, and whether text that is
    not JSON follows. *)
Record piped := {
  status_ok : bool;
  document : option json;
  garbage : bool
}.

(** jq on that input: what it prints, and whether its exit status is 0.
    Without a document it prints nothing; a document on which the program
    fails prints nothing and the status is not 0; text that is not JSON is a
    parse error. *)
Definition jq_run (program : json -> option json) (input : piped)
  : list json * bool :=
  match document input with
  | None => ([], negb (garbage input))
  | Some d =>
      match program d with
      | Some out => ([out], negb (garbage input))
      | None => ([], false)
      end
  end.

(** [get_network_info]: the documents it prints.  [ip_j] is the exit status
    of [ip -j link show], [ip_s] what [ip -s -j link show] writes; the
    pipeline fails, under [pipefail], when either side does, and the
    fallback then adds its empty array. *)
Definition get_network_info (ip_j : bool) (ip_s : piped) : list json :=
  if ip_j then
    let '(printed, jq_ok) := jq_run network_filter ip_s in
    if status_ok ip_s && jq_ok then printed else printed ++ [JArr []]
  else [JArr []].

(** ** The script up to its loop *)

(** What the script has done to the files when its loop starts, or when the
    argument loop has left it: [main] runs [initialize_file] first. *)
Definition script_start (jq_parse : string -> parsed)
  (args : list string) (epoch : N) (fs : files) : startup * files :=
  match parse_args args defaults with
  | Run c => (Run c, initialize_file jq_parse c epoch fs)
  | Exit status => (Exit status, fs)
  end.

(** ** The launcher: [run] *)

Module Launcher.

(** [process.env.NAME]: undefined, or a string. *)
Definition env := string -> option string.

(** An undefined value or a string inside a template literal. *)
Definition template (x : option string) : string := default "undefined" x.

(** [x || y] for an [x] that is undefined or a string. *)
Definition or_env (x : option string) (y : string) : string :=
  match x with
  | Some (String a s) => String a s
  | _ => y
  end.

Definition outputFile (e : env) : string :=
  template (e "RUNNER_TEMP") ++ "/ghametrics.json".

Definition logFile (e : env) : string :=
  template (e "RUNNER_TEMP") ++ "/ghametrics_monitor.log".

Definition pidFile (e : env) : string :=
  template (e "RUNNER_TEMP") ++ "/ghametrics_monitor.pid".

(** The argument list [args] that [run] builds.  The [run] that waits for
    the script passes it to [exec.exec]; [dist/main.js] builds the same
    list. *)
Definition args (getInput : string -> string) (e : env) : list string :=
  let mode := InputParser.or_string (getInput "mode") "minimal" in
  let interval := InputParser.or_string (getInput "interval") "1" in
  ["--mode"; mode;
   "--interval"; interval;
   "--output"; outputFile e;
   "--user"; or_env (e "GITHUB_ACTOR") "github-action";
   "--repos"; or_env (e "GITHUB_REPOSITORY") ""].

(** The argument list of the [run] that saves state for the post step: the
    same, followed by [--job-uuid] and the identifier that [randomUUID()]
    returned. *)
Definition args_job_uuid (getInput : string -> string) (e : env)
  (jobUuid : string) : list string :=
  let mode := InputParser.or_string (getInput "mode") "minimal" in
  let interval := InputParser.or_string (getInput "interval") "1" in
  ["--mode"; mode;
   "--interval"; interval;
   "--output"; outputFile e;
   "--user"; or_env (e "GITHUB_ACTOR") "github-action";
   "--repos"; or_env (e "GITHUB_REPOSITORY") "";
   "--job-uuid"; jobUuid].

(** [if (child.pid)]: a process identifier that is defined and not 0. *)
Definition truthy_pid (pid : option N) : option N :=
  match pid with
  | Some p => if (p =? 0)%N then None else Some p
  | None => None
  end.

(** The files once [run] has opened the log for appending and written the
    process identifier; [log] is what the log file holds by then.  ([run]
    got as far as [spawn]: [chmod] and [openSync] did not throw.) *)
Definition run_files (e : env) (pid : option N) (log : string)
  (fs : files) : files :=
  let fs1 := <[logFile e := Bytes log]> fs in
  match truthy_pid pid with
  | Some p => <[pidFile e := Bytes (Num.dec p)]> fs1
  | None => fs1
  end.

(** What [core.getState] returns in the post step after the [run] that
    saves state: the empty string for what was not saved. *)
Definition saved_state (e : env) (pid : option N) (name : string)
  : string :=
  match truthy_pid pid with
  | Some p =>
      if String.eqb name "monitorPid" then Num.dec p
      else if String.eqb name "outputFile" then outputFile e
      else if String.eqb name "logFile" then logFile e
      else ""
  | None => ""
  end.

End Launcher.

(** ** The post step: [post.ts] *)

Module Post.
Import InputParser.

(** [parseInt(s, 10)]: no hexadecimal prefix is looked for. *)
Definition parseInt10 (s : string) : number :=
  let s1 := Num.drop_while is_space s in
  let '(sign, s2) :=
    match s1 with
    | String "-" r => ((-1)%Z, r)
    | String "+" r => (1%Z, r)
    | _ => (1%Z, s1)
    end in
  match digits 10 None s2 with
  | Some v => Double.of_Z (sign * v)
  | None => NaN
  end.

(** What [post] does: the number it passes to [process.kill], and the files
    and the root directory it passes to [uploadArtifact] when it uploads. *)
Record cleanup := {
  signalled : number;
  uploaded : option (list string * string)
}.

(** [post]; [None] when there is no monitoring process to clean up.  (What
    [process.kill] and [uploadArtifact] throw is caught and logged.) *)
Definition post (getState : string -> string) (existsSync : string -> bool)
  (e : Launcher.env) : option cleanup :=
  let monitorPid := getState "monitorPid" in
  let outputFile := getState "outputFile" in
  let logFile := getState "logFile" in
  match monitorPid with
  | "" => None
  | String _ _ =>
      let filesToUpload :=
        (if Text.nonempty outputFile && existsSync outputFile
         then [outputFile] else [])
        ++ (if Text.nonempty logFile && existsSync logFile
            then [logFile] else []) in
      Some {| signalled := parseInt10 monitorPid;
              uploaded :=
                match filesToUpload with
                | [] => None
                | _ :: _ =>
                    Some (filesToUpload,
                          Launcher.or_env (e "RUNNER_TEMP") "/tmp")
                end |}
  end.

End Post.

(** * Vocabulary of the statements *)

(** ** Entries *)

Definition with_mode (m : string) (c : config) : config := assign OMode m c.




Definition sample_host : host := {|
  date_utc := "2025-09-17 10:00:00";
  whoami := "runner";
  cpu_info := Some (JObj [("cores", JNum 2)]);
  memory_info := Some (JObj [("usage_percent", JNum 25)]);
  disk_info := Some (JArr []);
  system_info := Some (JObj [("hostname", JStr "fv-az1")]);
  network_info := Some (JArr []);
  top_processes := Some (JArr [])
|}.

(** Every sampler the mode [m] runs printed exactly one JSON value. *)
Definition sampled_for (m : string) (h : host) : Prop :=
  is_Some (cpu_info h) /\ is_Some (memory_info h) /\ is_Some (disk_info h)
  /\ (m <> "minimal" ->
      is_Some (system_info h) /\ is_Some (network_info h)
      /\ is_Some (top_processes h)).

(** An entry as [collect_entry] builds it in minimal mode, reduced to what
    [print_stats] reads. *)
Definition minimal_entry (ts : string) (cpu memory : Double.double) : json :=
  JObj [("timestamp", JStr ts);
        ("system",
         JObj [("cpu", JObj [("current_usage",
                              JObj [("usage_percent", JNum cpu)])]);
               ("memory", JObj [("usage_percent", JNum memory)])])].

Definition usages_10_20_30 : list json :=
  [minimal_entry "2025-09-17 10:00:00" 10 40;
   minimal_entry "2025-09-17 10:01:00" 20 50;
   minimal_entry "2025-09-17 10:02:00" 30 60].

(** ** The three modes of the action *)

Definition modes : list string := ["minimal"; "extended"; "full"].

Definition is_mode (m : string) : bool := existsb (String.eqb m) modes.

(** The inputs of a workflow that sets [mode] and [interval]; any other
    input reads as the empty string. *)
Definition inputs (mode interval : string) (name : string) : string :=
  if String.eqb name "mode" then mode
  else if String.eqb name "interval" then interval
  else "".

(** ** The lock file over time *)

(** The files at check number [count + j] of the loop, given the files at
    check number [count]. *)
Fixpoint files_from (others : interference)
  (count j : nat) (fs : files) : files :=
  match j with
  | O => fs
  | S j' => files_from others (S count) j' (others count fs)
  end.

(** The files at check number [i], counting from 0. *)
Definition files_at (others : interference)
  (i : nat) (fs : files) : files :=
  files_from others 0 i fs.

(** The lock file is there. *)
Definition locked (c : config) (fs : files) : Prop :=
  is_Some (fs !! LOCK_FILE c).

(** ** Arrays and means *)

(** The last [n] elements of a list, all of it when it is shorter. *)
Definition last_n {A : Type} (n : nat) (l : list A) : list A :=
  skipn (length l - n) l.

Definition three_entries : list json := [JNum 1; JNum 2; JNum 3].

(** The sum of binary64 numbers taken from left to right, each addition
    rounded. *)
Definition sum64 (xs : list Double.double) : Double.double :=
  match xs with
  | [] => Double.Finite 0
  | x :: xs' => fold_left Double.add xs' x
  end.

(** The mean in binary64: that sum divided by the number of elements, the
    quotient rounded. *)
Definition mean64 (xs : list Double.double) : Double.double :=
  Double.div (sum64 xs) (Double.round (inject_Z (Z.of_nat (length xs)))).

(** The arithmetic mean, exact. *)
Definition mean (xs : list Q) : Q :=
  (fold_right Qplus 0 xs / inject_Z (Z.of_nat (length xs)))%Q.

(** ** Lines of columns: what [free] and [/proc/stat] print *)

Fixpoint spaces (n : nat) : string :=
  match n with
  | O => ""
  | S n' => String " " (spaces n')
  end.

(** Columns, each after a run of [S pad] spaces. *)
Fixpoint columns (cols : list (nat * string)) : string :=
  match cols with
  | [] => ""
  | (pad, w) :: cs => (spaces (S pad) ++ w ++ columns cs)%string
  end.

Definition sep_free (is_sep : ascii -> bool) (w : string) : bool :=
  Text.all_chars (fun a => negb (is_sep a)) w.

(** A field: not empty and without separator. *)
Definition word (is_sep : ascii -> bool) (w : string) : Prop :=
  Text.nonempty w = true /\ sep_free is_sep w = true.

(** The end of the line, or a separator next. *)
Definition at_boundary (is_sep : ascii -> bool) (s : string) : Prop :=
  match s with
  | "" => True
  | String a _ => is_sep a = true
  end.

(** The [Mem:] line of [free -b]: total, used, free, shared, buff/cache and
    available, in bytes. *)
Record mem_reading := {
  mem_total : N;
  mem_used : N;
  mem_free : N;
  mem_shared : N;
  mem_cache : N;
  mem_available : N
}.

(** The line as [free] prints it, column [i] after [S (pad i)] spaces, with
    the newline that ends it. *)
Definition free_line (r : mem_reading) (pad : nat -> nat) : string :=
  ("Mem:"
   ++ columns [(pad 1%nat, Num.dec (mem_total r));
               (pad 2%nat, Num.dec (mem_used r));
               (pad 3%nat, Num.dec (mem_free r));
               (pad 4%nat, Num.dec (mem_shared r));
               (pad 5%nat, Num.dec (mem_cache r));
               (pad 6%nat, Num.dec (mem_available r))]
   ++ Text.nl)%string.


(** The formula in binary64: the quotient is rounded, then the product. *)
Definition memory_usage (r : mem_reading) : Double.double :=
  Double.mul
    (Double.div (Num.of_N (mem_used r)) (Num.of_N (mem_total r)))
    (Double.Finite 100).


(** 7 bytes used out of 25. *)
Definition reading_7_of_25 : mem_reading := {|
  mem_total := 25; mem_used := 7; mem_free := 18;
  mem_shared := 0; mem_cache := 0; mem_available := 18
|}.


Definition zero_reading : mem_reading := {|
  mem_total := 0; mem_used := 0; mem_free := 0;
  mem_shared := 0; mem_cache := 0; mem_available := 0
|}.

(** A host on which [free] reports a total of 0 bytes, the other samplers
    having printed their values. *)
Definition host_without_memory (strict : bool) : host := {|
  date_utc := "2025-09-17 10:00:00";
  whoami := "runner";
  cpu_info := Some (JObj [("cores", JNum 2)]);
  memory_info :=
    get_memory_info strict (free_line zero_reading (fun _ => 0%nat));
  disk_info := Some (JArr []);
  system_info := Some (JObj [("hostname", JStr "fv-az1")]);
  network_info := Some (JArr []);
  top_processes := Some (JArr [])
|}.

(** The counters of the [cpu] line of [/proc/stat] that the script reads. *)
Record cpu_times := {
  user : N;
  nice : N;
  system : N;
  idle : N;
  iowait : N;
  irq : N;
  softirq : N
}.

(** The line as the kernel prints it: two spaces after [cpu], one between
    counters, further counters (steal, guest, guest_nice) after the seven,
    and a newline. *)
Definition stat_line (t : cpu_times) (more : list N) : string :=
  ("cpu"
   ++ columns ((1%nat, Num.dec (user t)) :: (0%nat, Num.dec (nice t))
               :: (0%nat, Num.dec (system t)) :: (0%nat, Num.dec (idle t))
               :: (0%nat, Num.dec (iowait t)) :: (0%nat, Num.dec (irq t))
               :: (0%nat, Num.dec (softirq t))
               :: map (fun n => (0%nat, Num.dec n)) more)
   ++ Text.nl)%string.

Definition total_time (t : cpu_times) : N :=
  (user t + nice t + system t + idle t + iowait t + irq t + softirq t)%N.

(** The formula [100 - idle * 100 / total], exact. *)
Definition exact_usage (t : cpu_times) : Q :=
  (100 - inject_Z (Z.of_N (idle t)) * 100
         / inject_Z (Z.of_N (total_time t)))%Q.

(** The formula in binary64, when the counters are small enough for the
    sum and the product to be exact: the quotient is rounded, then the
    difference. *)
Definition usage_of (t : cpu_times) : Double.double :=
  Double.sub 100
    (Double.round (inject_Z (Z.of_N (idle t)) * 100
                   / inject_Z (Z.of_N (total_time t)))).

(** Counters small enough for [idle * 100] and every partial sum to be
    binary64 numbers. *)
Definition small_counters (t : cpu_times) : Prop :=
  (100 * Z.of_N (total_time t) < 2 ^ 53)%Z.

(** The text of [h] hundredths: integer part, point, two digits. *)
Definition hundredths_text (h : Z) : string :=
  (Num.dec (Z.to_N (h / 100)) ++ "."
   ++ String (ascii_of_N (48 + Z.to_N ((h mod 100) / 10)))
        (String (ascii_of_N (48 + Z.to_N (h mod 10))) ""))%string.

(** Counters for which the text printed is not the hundredth nearest to
    the exact usage. *)
Definition unlucky_times : cpu_times := {|
  user := 1282466134139; nice := 0; system := 0; idle := 2122461873664;
  iowait := 0; irq := 0; softirq := 0
|}.

Definition sample_times : cpu_times := {|
  user := 74608; nice := 2520; system := 24433; idle := 1117073;
  iowait := 6176; irq := 4054; softirq := 0
|}.

(** ** Decimal places *)

(** Text with exactly two decimal places: an optional minus sign, one or
    more digits, a point, two digits, and nothing after them. *)
Definition two_decimals (s : string) : Prop :=
  exists sign int_part d1 d2,
    s = (sign ++ int_part ++ "." ++ String d1 (String d2 ""))%string
    /\ (sign = "" \/ sign = "-")
    /\ Text.nonempty int_part = true
    /\ Text.all_chars Num.is_digit int_part = true
    /\ Num.is_digit d1 = true
    /\ Num.is_digit d2 = true.

(** ** Command lines *)

(** The words of a command line made of options with their values. *)
Definition option_words (ps : list (string * string)) : list string :=
  flat_map (fun p => [fst p; snd p]) ps.

(** An option that takes a value. *)
Definition takes_value (opt : string) : bool :=
  match classify opt with
  | OHelp | OUnknown => false
  | _ => true
  end.

(** The assignments of a list of options with their values, in order. *)
Definition configure (ps : list (string * string)) (c : config) : config :=
  fold_left (fun c p => assign (classify (fst p)) (snd p) c) ps c.

(** The variable an option sets. *)
Definition variable (k : option_kind) (c : config) : string :=
  match k with
  | OOutput => OUTPUT_FILE c
  | OMode => MODE c
  | OUser => USER_LOGIN c
  | ORepos => GITHUB_REPOS c
  | OInterval => UPDATE_INTERVAL c
  | OMaxEntries => MAX_ENTRIES c
  | OHelp | OUnknown => ""
  end.

Definition same_kind (k k' : option_kind) : bool :=
  match k, k' with
  | OOutput, OOutput | OMode, OMode | OUser, OUser | ORepos, ORepos
  | OInterval, OInterval | OMaxEntries, OMaxEntries | OHelp, OHelp
  | OUnknown, OUnknown => true
  | _, _ => false
  end.

(** The values given to the options of kind [k], in order. *)
Definition values_of (k : option_kind) (ps : list (string * string))
  : list string :=
  map snd (List.filter (fun p => same_kind (classify (fst p)) k) ps).

(** The environment of a workflow run. *)
Definition sample_env (name : string) : option string :=
  if String.eqb name "RUNNER_TEMP" then Some "/home/runner/work/_temp"
  else if String.eqb name "GITHUB_ACTOR" then Some "wechuli"
  else if String.eqb name "GITHUB_REPOSITORY"
       then Some "wechuli/ghametricscollector"
  else None.

(** [fs.existsSync] on the files. *)
Definition exists_in (fs : files) (p : string) : bool :=
  bool_decide (is_Some (fs !! p)).

(** ** The store *)

(** A document the jq program of [append_entry] can add an array to. *)
Definition appendable (doc : json) : bool :=
  match doc with
  | JArr _ | JNull => true
  | _ => false
  end.

(** The conditional slice of [append_entry], for any bound. *)
Definition trim_to (max : Z) (l : list json) : list json :=
  if (max <? Z.of_nat (length l))%Z then Jq.slice_from (- max)%Z l else l.

(** A reader that knows the text of the empty array as [echo] writes it, and
    nothing else. *)
Definition reads_empty_array (s : string) : parsed :=
  if String.eqb s ("[]" ++ Text.nl)
  then {| values := [JArr []]; complete := true |}
  else {| values := []; complete := false |}.

(** A jq whose exit status after several inputs is that of the last. *)
Definition last_decides (outcomes : list bool) : bool :=
  default true (last outcomes).

(** A jq that fails when its program failed on any input. *)
Definition any_failure (outcomes : list bool) : bool :=
  forallb id outcomes.

(** ** Runs of the monitor *)

(** The entries collected from the successive states of the host. *)
Definition collected (c : config) (hs : list host) : option (list json) :=
  mapM (collect_entry c) hs.

(** The CPU usage a sample carries, where [get_cpu_info] puts it. *)
Definition cpu_sample (h : host) : option json :=
  cpu_info h ≫= Jq.path ["current_usage"; "usage_percent"].

(** The memory usage a sample carries, where [get_memory_info] puts it. *)
Definition memory_sample (h : host) : option json :=
  memory_info h ≫= Jq.path ["usage_percent"].

(** The entry of a mode that no arm of the [case] matches. *)
Definition bare_entry (c : config) (h : host) : json :=
  JObj [("timestamp", JStr (date_utc h));
        ("github_context",
         JObj [("user", JStr match USER_LOGIN c with
                             | "" => whoami h
                             | u => u
                             end);
               ("repositories", parse_repos_to_json (GITHUB_REPOS c))])].

(** The entry of one of the three modes, given its [system] value. *)
Definition full_entry (c : config) (h : host) (system : json) : json :=
  JObj [("timestamp", JStr (date_utc h));
        ("github_context",
         JObj [("user", JStr match USER_LOGIN c with
                             | "" => whoami h
                             | u => u
                             end);
               ("repositories", parse_repos_to_json (GITHUB_REPOS c))]);
        ("system", system)].

(** A state of the host with the two usages that [print_stats] reads. *)
Definition sampled_host (ts : string) (cpu memory : Double.double)
  : host := {|
  date_utc := ts;
  whoami := "runner";
  cpu_info :=
    Some (JObj [("cores", JNum 2);
                ("current_usage", JObj [("usage_percent", JNum cpu)])]);
  memory_info := Some (JObj [("usage_percent", JNum memory)]);
  disk_info := Some (JArr []);
  system_info := Some (JObj []);
  network_info := Some (JArr []);
  top_processes := Some (JArr [])
|}.

(** ** Samplers *)

(** The columns of a line, as the jq program of [get_memory_info] numbers
    them. *)
Definition mem_columns (line : string) : list string :=
  List.filter Text.nonempty (Text.split " " line).

(** A row of [df -B1]: the file system, its size, used and available bytes,
    the percentage in use, and the mount point. *)
Record disk_row := {
  fs_name : string;
  fs_size : N;
  fs_used : N;
  fs_available : N;
  fs_use : N;
  fs_mount : string
}.

(** The row as [df] prints it, without the newline: column [i] after
    [S (pad i)] spaces. *)
Definition df_row (r : disk_row) (pad : nat -> nat) : string :=
  (fs_name r
   ++ columns [(pad 1%nat, Num.dec (fs_size r));
               (pad 2%nat, Num.dec (fs_used r));
               (pad 3%nat, Num.dec (fs_available r));
               (pad 4%nat, (Num.dec (fs_use r) ++ "%")%string);
               (pad 5%nat, fs_mount r)])%string.

(** What [df | tail -n +2] prints for a list of rows with their paddings. *)
Definition df_text (rs : list (disk_row * (nat -> nat))) : string :=
  Sh.unlines (map (fun r => df_row (fst r) (snd r)) rs).

Definition disk_json (r : disk_row) : json :=
  JObj [("filesystem", JStr (fs_name r));
        ("size_bytes", JNum (Num.of_N (fs_size r)));
        ("used_bytes", JNum (Num.of_N (fs_used r)));
        ("available_bytes", JNum (Num.of_N (fs_available r)));
        ("use_percentage", JNum (Num.of_N (fs_use r)));
        ("mounted_on", JStr (fs_mount r))].

(** A row whose names have no blanks. *)
Definition plain_row (r : disk_row) : Prop :=
  word Num.is_blank (fs_name r) /\ word Num.is_blank (fs_mount r).

Definition sample_rows : list (disk_row * (nat -> nat)) :=
  [({| fs_name := "/dev/root"; fs_size := 77851254784;
       fs_used := 55139123200; fs_available := 22695354368;
       fs_use := 71; fs_mount := "/" |}, fun _ => 1%nat);
   ({| fs_name := "/dev/sda15"; fs_size := 109395456;
       fs_used := 6387712; fs_available := 103007744;
       fs_use := 6; fs_mount := "/boot/efi" |}, fun _ => 3%nat)].

(** The content of [/proc/uptime]: the seconds since boot with their
    hundredths, a space, the idle time, a newline. *)
Definition uptime_text (seconds : N) (hundredths idle : string) : string :=
  (Num.dec seconds ++ "." ++ hundredths ++ " " ++ idle ++ Text.nl)%string.

(** An array none of whose elements is named as the loopback interface. *)
Definition without_lo (doc : json) : Prop :=
  exists l, doc = JArr l
            /\ Forall (fun o => Jq.field "interface" o <> Some (JStr "lo")) l.

(** ** Numbers in the inputs *)

(** Where a decimal number ends for [parseInt]: at the end of the string, or
    before a character that is neither a decimal digit nor the x of a
    hexadecimal prefix. *)
Definition ends_number (rest : string) : bool :=
  match rest with
  | "" => true
  | String a _ =>
      negb (Num.is_digit a) && negb (Ascii.eqb a "x") && negb (Ascii.eqb a "X")
  end.

(** After a first digit, no x of a hexadecimal prefix. *)
Definition no_prefix (w : string) : bool :=
  match w with
  | "" => true
  | String b _ => negb (Ascii.eqb b "x") && negb (Ascii.eqb b "X")
  end.

(** ** Binary64 as the kernel of Rocq has it *)

(** The value of a primitive float, a binary64 number of the machine. *)
Definition of_prim (f : PrimFloat.float) : Double.double :=
  match FloatOps.Prim2SF f with
  | SpecFloat.S754_zero _ => Double.Finite 0
  | SpecFloat.S754_infinity s => Double.Infinity s
  | SpecFloat.S754_nan => Double.NaN
  | SpecFloat.S754_finite s m e =>
      Double.Finite
        (Qred ((if s then -1 else 1) * inject_Z (Z.pos m) * Double.pow2 e))
  end.

(** ** Rounding *)

(** The number [Double.round] rounds a positive [q] to, before the test for
    overflow. *)
Definition rounded (q : Q) : Q :=
  (inject_Z (Double.round_half_even (q / Double.pow2 (Double.ulp_exponent q)))
   * Double.pow2 (Double.ulp_exponent q))%Q.

(** * Properties *)

(** ** Binary64 rounding *)

Module DoubleFacts.
Import Double.
Local Open Scope Q_scope.

(** *** Powers of two *)

Lemma two_not_zero : ~ 2 == 0.
Proof. intros H. discriminate H. Qed.

Lemma pow2_pos e : 0 < pow2 e.
Proof. apply Qpower_0_lt. reflexivity. Qed.

Lemma pow2_add a b : pow2 (a + b) == pow2 a * pow2 b.
Proof. apply Qpower_plus, two_not_zero. Qed.

Lemma pow2_sub a b : pow2 (a - b) == pow2 a / pow2 b.
Proof. apply Qpower_minus, two_not_zero. Qed.

Lemma pow2_le a b : (a <= b)%Z -> pow2 a <= pow2 b.
Proof. intros H. apply Qpower_le_compat_l; [exact H | discriminate]. Qed.


Lemma pow2_lt_inv a b : pow2 a < pow2 b -> (a < b)%Z.
Proof. intros H. eapply Qpower_lt_compat_l_inv; [exact H | reflexivity]. Qed.

Lemma pow2_Z n : (0 <= n)%Z -> pow2 n == inject_Z (2 ^ n).
Proof. intros H. symmetry. now apply Zpower_Qpower. Qed.

Lemma pow2_succ e : pow2 (e + 1) == 2 * pow2 e.
Proof. rewrite pow2_add. change (pow2 1) with 2. ring. Qed.

Lemma pow2_pred e : pow2 (e - 1) == pow2 e * (1 # 2).
Proof. rewrite pow2_sub. change (pow2 1) with 2. field. Qed.

(** ** The binary logarithm *)

Lemma ilog2_spec a : 0 < a -> pow2 (ilog2 a) <= a /\ a < pow2 (ilog2 a + 1).
Proof.
  intros Ha. destruct a as [n d]. unfold ilog2. cbn [Qnum Qden].
  assert (Hn : (0 < n)%Z).
  { unfold Qlt in Ha. cbn in Ha. lia. }
  set (ln := Z.log2 n). set (ld := Z.log2 (Z.pos d)).
  pose proof (Z.log2_spec n Hn) as [Hn1 Hn2]. fold ln in Hn1, Hn2.
  pose proof (Z.log2_spec (Z.pos d) eq_refl) as [Hd1 Hd2].
  fold ld in Hd1, Hd2.
  assert (Hln : (0 <= ln)%Z) by apply Z.log2_nonneg.
  assert (Hld : (0 <= ld)%Z) by apply Z.log2_nonneg.
  assert (Hq : n # d == inject_Z n / inject_Z (Z.pos d)) by apply Qmake_Qdiv.
  assert (Hdpos : 0 < inject_Z (Z.pos d)) by reflexivity.
  assert (Hlow : pow2 (ln - ld - 1) < n # d).
  { replace (ln - ld - 1)%Z with (ln - (ld + 1))%Z by lia.
    rewrite pow2_sub, Hq, !pow2_Z by lia.
    apply Qlt_shift_div_l; [exact Hdpos |].
    unfold Qdiv. rewrite <- Qmult_assoc, (Qmult_comm (/ _)), Qmult_assoc.
    apply Qlt_shift_div_r.
    - rewrite <- pow2_Z by lia. apply pow2_pos.
    - rewrite <- !inject_Z_mult, <- Zlt_Qlt. nia. }
  assert (Hhigh : n # d < pow2 (ln - ld + 1)).
  { replace (ln - ld + 1)%Z with ((ln + 1) - ld)%Z by lia.
    rewrite pow2_sub, Hq, !pow2_Z by lia.
    apply Qlt_shift_div_r; [exact Hdpos |].
    unfold Qdiv. rewrite <- Qmult_assoc, (Qmult_comm (/ _)), Qmult_assoc.
    apply Qlt_shift_div_l.
    - rewrite <- pow2_Z by lia. apply pow2_pos.
    - rewrite <- !inject_Z_mult, <- Zlt_Qlt. nia. }
  destruct (Qle_bool (pow2 (ln - ld)) (n # d)) eqn:E.
  - apply Qle_bool_iff in E. split; assumption.
  - split; [apply Qlt_le_weak, Hlow |].
    replace (ln - ld - 1 + 1)%Z with (ln - ld)%Z by lia.
    apply Qnot_le_lt. intros H. apply Qle_bool_iff in H. congruence.
Qed.

Lemma ilog2_unique a k :
  pow2 k <= a -> a < pow2 (k + 1) -> ilog2 a = k.
Proof.
  intros H1 H2.
  assert (Ha : 0 < a) by (eapply Qlt_le_trans; [apply (pow2_pos k) | exact H1]).
  destruct (ilog2_spec a Ha) as [H3 H4].
  assert (Hlt1 : (ilog2 a < k + 1)%Z).
  { apply pow2_lt_inv. eapply Qle_lt_trans; eassumption. }
  assert (Hlt2 : (k < ilog2 a + 1)%Z).
  { apply pow2_lt_inv. eapply Qle_lt_trans; eassumption. }
  lia.
Qed.

Lemma ilog2_comp a b : 0 < a -> a == b -> ilog2 a = ilog2 b.
Proof.
  intros Ha Hab. symmetry. destruct (ilog2_spec a Ha) as [H1 H2].
  apply ilog2_unique; rewrite <- Hab; assumption.
Qed.

Lemma ilog2_upper a k : 0 < a -> a < pow2 (k + 1) -> (ilog2 a <= k)%Z.
Proof.
  intros Ha H. destruct (ilog2_spec a Ha) as [H1 _].
  assert (Hlt : (ilog2 a < k + 1)%Z).
  { apply pow2_lt_inv. eapply Qle_lt_trans; eassumption. }
  lia.
Qed.

Lemma ilog2_lower a k : pow2 k <= a -> (k <= ilog2 a)%Z.
Proof.
  intros H.
  assert (Ha : 0 < a) by (eapply Qlt_le_trans; [apply (pow2_pos k) | exact H]).
  destruct (ilog2_spec a Ha) as [_ H2].
  assert (Hlt : (k < ilog2 a + 1)%Z).
  { apply pow2_lt_inv. eapply Qle_lt_trans; eassumption. }
  lia.
Qed.

(** ** Rounding to an integer *)

Lemma round_half_even_comp x y :
  x == y -> round_half_even x = round_half_even y.
Proof.
  intros H. unfold round_half_even. rewrite (Qfloor_comp x y H).
  assert (Hc : (x - inject_Z (Qfloor y) ?= 1 # 2)
               = (y - inject_Z (Qfloor y) ?= 1 # 2)).
  { apply Qcompare_comp; [now rewrite H | reflexivity]. }
  now rewrite Hc.
Qed.

Lemma round_half_even_close y :
  Qabs (inject_Z (round_half_even y) - y) <= 1 # 2.
Proof.
  unfold round_half_even.
  pose proof (Qfloor_le y) as Hlo. pose proof (Qlt_floor y) as Hhi.
  rewrite inject_Z_plus in Hhi. change (inject_Z 1) with 1%Q in Hhi.
  apply Qabs_Qle_condition.
  set (f := Qfloor y) in *.
  destruct (Qcompare_spec (y - inject_Z f) (1 # 2)) as [He | Hlt | Hgt].
  - destruct (Z.even f);
      [| rewrite inject_Z_plus; change (inject_Z 1) with 1%Q]; lra.
  - lra.
  - rewrite inject_Z_plus. change (inject_Z 1) with 1%Q. lra.
Qed.

Lemma round_half_even_le y n :
  y <= inject_Z n -> (round_half_even y <= n)%Z.
Proof.
  intros Hy. unfold round_half_even.
  pose proof (Qfloor_le y) as Hlo.
  set (f := Qfloor y) in *.
  assert (Hf : (f <= n)%Z) by (rewrite Zle_Qle; lra).
  assert (Hup : 0 < y - inject_Z f -> (f + 1 <= n)%Z).
  { intros Hpos. assert (Hlt : inject_Z f < inject_Z n) by lra.
    rewrite <- Zlt_Qlt in Hlt. lia. }
  destruct (Qcompare_spec (y - inject_Z f) (1 # 2)) as [He | Hlt | Hgt].
  - destruct (Z.even f); [exact Hf |]. apply Hup. lra.
  - exact Hf.
  - apply Hup. lra.
Qed.

Lemma round_half_even_ge y n :
  inject_Z n <= y -> (n <= round_half_even y)%Z.
Proof.
  intros Hy. unfold round_half_even.
  assert (Hf : (n <= Qfloor y)%Z).
  { rewrite <- (Qfloor_Z n). now apply Qfloor_resp_le. }
  set (f := Qfloor y) in *.
  destruct (Qcompare (y - inject_Z f) (1 # 2)); [destruct (Z.even f) | |]; lia.
Qed.

Lemma round_half_even_Z y n : y == inject_Z n -> round_half_even y = n.
Proof.
  intros H. apply Z.le_antisymm.
  - apply round_half_even_le. rewrite H. apply Qle_refl.
  - apply round_half_even_ge. rewrite H. apply Qle_refl.
Qed.

(** ** Rounding to binary64 *)

Lemma negative_false q : 0 <= q -> negative q = false.
Proof.
  intros H. unfold negative. apply Qle_bool_iff in H. now rewrite H.
Qed.

Lemma negative_true q : q < 0 -> negative q = true.
Proof.
  intros H. unfold negative. destruct (Qle_bool 0 q) eqn:E; [| reflexivity].
  apply Qle_bool_iff in E. lra.
Qed.

Lemma Qeq_bool_false p q : ~ p == q -> Qeq_bool p q = false.
Proof.
  intros H. destruct (Qeq_bool p q) eqn:E; [| reflexivity].
  apply Qeq_bool_eq in E. contradiction.
Qed.

Lemma Qle_bool_comp p p' q q' :
  p == p' -> q == q' -> Qle_bool p q = Qle_bool p' q'.
Proof.
  intros Hp Hq. destruct (Qle_bool p q) eqn:E1, (Qle_bool p' q') eqn:E2;
    try reflexivity.
  - apply Qle_bool_iff in E1. rewrite Hp, Hq in E1.
    apply Qle_bool_iff in E1. congruence.
  - apply Qle_bool_iff in E2. rewrite <- Hp, <- Hq in E2.
    apply Qle_bool_iff in E2. congruence.
Qed.

Lemma round_zero q : q == 0 -> round q = Finite 0.
Proof.
  intros H. unfold round, nearest.
  assert (H0 : Qred q == 0) by (now rewrite Qred_correct).
  apply Qeq_eq_bool in H0. now rewrite H0.
Qed.

Lemma ulp_exponent_comp a b :
  0 < a -> a == b -> ulp_exponent a = ulp_exponent b.
Proof.
  intros Ha H. unfold ulp_exponent. now rewrite (ilog2_comp a b Ha H).
Qed.

Lemma rounded_comp a b : 0 < a -> a == b -> rounded a == rounded b.
Proof.
  intros Ha H. unfold rounded.
  rewrite (ulp_exponent_comp a b Ha H).
  rewrite (round_half_even_comp (a / pow2 (ulp_exponent b))
             (b / pow2 (ulp_exponent b))) by (now rewrite H).
  reflexivity.
Qed.

Lemma round_positive q :
  0 < q ->
  round q = if Qle_bool (pow2 1024) (rounded q) then Infinity false
            else Finite (Qred (rounded q)).
Proof.
  intros Hq. unfold round, nearest.
  pose proof (Qred_correct q) as Hr.
  set (q' := Qred q) in *.
  assert (Hq' : 0 < q') by (now rewrite Hr).
  rewrite Qeq_bool_false by (intros H; rewrite H in Hq'; discriminate Hq').
  rewrite negative_false by (now apply Qlt_le_weak).
  assert (Ha : Qabs q' == q).
  { rewrite Qabs_pos by (now apply Qlt_le_weak). exact Hr. }
  assert (Hapos : 0 < Qabs q') by (now rewrite Ha).
  fold (rounded (Qabs q')).
  pose proof (rounded_comp _ _ Hapos Ha) as Hrc.
  rewrite (Qle_bool_comp _ (pow2 1024) _ (rounded q) (Qeq_refl _) Hrc).
  now rewrite (Qred_complete _ _ Hrc).
Qed.

Lemma Qabs_opp_eq q : Qabs (- q) = Qabs q.
Proof. destruct q as [n d]. unfold Qabs, Qopp. cbn. now rewrite Z.abs_opp. Qed.

Lemma round_opp q : round (- q) = opp (round q).
Proof.
  unfold round. rewrite Qred_opp. set (p := Qred q). unfold nearest.
  destruct (Qeq_bool p 0) eqn:E.
  - apply Qeq_bool_eq in E.
    assert (E' : - p == 0) by (rewrite E; reflexivity).
    apply Qeq_eq_bool in E'. rewrite E'. reflexivity.
  - assert (E' : Qeq_bool (- p) 0 = false).
    { apply Qeq_bool_false. intros H. apply Qeq_bool_neq in E. apply E.
      lra. }
    rewrite E', Qabs_opp_eq.
    assert (Hneg : negative (- p) = negb (negative p)).
    { apply Qeq_bool_neq in E.
      destruct (Qlt_le_dec p 0) as [Hlt | Hge].
      - rewrite (negative_true p Hlt), negative_false by lra. reflexivity.
      - assert (0 < p) by (apply Qle_lteq in Hge as [H | H]; [exact H |];
                           exfalso; apply E; now symmetry).
        rewrite (negative_false p Hge), negative_true by lra. reflexivity. }
    rewrite Hneg.
    destruct (Qle_bool (pow2 1024) _); [reflexivity |].
    cbn [opp]. destruct (negative p); cbn [negb]; f_equal.
    + rewrite <- Qred_opp. apply Qred_complete. ring.
    + now rewrite Qred_opp.
Qed.

Lemma rounded_nonneg q : 0 < q -> 0 <= rounded q.
Proof.
  intros Hq. unfold rounded.
  apply Qmult_le_0_compat; [| apply Qlt_le_weak, pow2_pos].
  change 0 with (inject_Z 0). rewrite <- Zle_Qle.
  apply round_half_even_ge. change (inject_Z 0) with 0.
  apply Qle_shift_div_l; [apply pow2_pos | lra].
Qed.

(** The error of a rounding is at most half a unit in the last place. *)
Lemma rounded_close q :
  Qabs (rounded q - q) <= pow2 (ulp_exponent q - 1).
Proof.
  unfold rounded. set (e := ulp_exponent q).
  pose proof (pow2_pos e) as Hp.
  pose proof (round_half_even_close (q / pow2 e)) as Hc.
  set (m := inject_Z (round_half_even (q / pow2 e))) in *.
  assert (Hq : q == q / pow2 e * pow2 e) by (field; lra).
  apply Qabs_Qle_condition in Hc as [Hlo Hhi].
  rewrite pow2_pred. apply Qabs_Qle_condition.
  set (x := q / pow2 e) in *. set (P := pow2 e) in *.
  assert (H1 : (m - x) * P <= (1 # 2) * P)
    by (apply Qmult_le_compat_r; lra).
  assert (H2 : (- (1 # 2)) * P <= (m - x) * P)
    by (apply Qmult_le_compat_r; lra).
  split.
  - setoid_replace (m * P - q) with ((m - x) * P) using relation Qeq
      by (rewrite Hq at 1; ring).
    lra.
  - setoid_replace (m * P - q) with ((m - x) * P) using relation Qeq
      by (rewrite Hq at 1; ring).
    lra.
Qed.

Lemma ulp_exponent_upper q K :
  0 < q -> q < pow2 (K + 1) -> (-1074 <= K - 52)%Z ->
  (ulp_exponent q <= K - 52)%Z.
Proof.
  intros Hq Hlt HK. unfold ulp_exponent.
  pose proof (ilog2_upper q K Hq Hlt). lia.
Qed.

(** Rounding a number below [2^(K+1)] moves it by at most [2^(K-53)]. *)
Lemma round_error q K r :
  0 < q -> q < pow2 (K + 1) -> (-1074 <= K - 52)%Z ->
  round q = Finite r ->
  Qabs (r - q) <= pow2 (K - 53) /\ 0 <= r.
Proof.
  intros Hq Hlt HK Hr. rewrite (round_positive q Hq) in Hr.
  destruct (Qle_bool _ _); [discriminate Hr |].
  injection Hr as <-.
  pose proof (Qred_correct (rounded q)) as Heq. rewrite Heq. split.
  - eapply Qle_trans; [apply rounded_close |].
    apply pow2_le. pose proof (ulp_exponent_upper q K Hq Hlt HK). lia.
  - now apply rounded_nonneg.
Qed.

(** No overflow below [2^1023]. *)
Lemma round_finite q K :
  0 < q -> q < pow2 (K + 1) -> (-1074 <= K - 52)%Z -> (K <= 1022)%Z ->
  round q = Finite (Qred (rounded q)).
Proof.
  intros Hq Hlt HK HK'. rewrite (round_positive q Hq).
  destruct (Qle_bool (pow2 1024) (rounded q)) eqn:E; [| reflexivity].
  exfalso. apply Qle_bool_iff in E.
  pose proof (rounded_close q) as Hc.
  apply Qabs_Qle_condition in Hc as [_ Hhi].
  pose proof (ulp_exponent_upper q K Hq Hlt HK) as He.
  assert (H1 : pow2 (ulp_exponent q - 1) <= pow2 1022)
    by (apply pow2_le; lia).
  assert (H2 : pow2 (K + 1) <= pow2 1023) by (apply pow2_le; lia).
  assert (H3 : pow2 1024 == 2 * pow2 1023) by (apply (pow2_succ 1023)).
  assert (H4 : pow2 1023 == 2 * pow2 1022) by (apply (pow2_succ 1022)).
  pose proof (pow2_pos 1022). lra.
Qed.

Lemma pow2_neg_mul e : (e <= 0)%Z -> pow2 e * inject_Z (2 ^ (- e)) == 1.
Proof.
  intros He. rewrite <- pow2_Z by lia. rewrite <- pow2_add.
  replace (e + - e)%Z with 0%Z by lia. reflexivity.
Qed.

(** An integer divided by a unit in the last place that is at most 1 is an
    integer. *)
Lemma div_pow2_Z z e :
  (e <= 0)%Z -> inject_Z z / pow2 e == inject_Z (z * 2 ^ (- e)).
Proof.
  intros He. rewrite inject_Z_mult.
  pose proof (pow2_neg_mul e He) as H. pose proof (pow2_pos e) as Hp.
  assert (HN : inject_Z (2 ^ (- e)) == / pow2 e).
  { apply (Qmult_inj_l _ _ (pow2 e)); [lra |]. rewrite H. field. lra. }
  unfold Qdiv. now rewrite HN.
Qed.

(** Rounding does not cross an integer below [2^53]. *)
Lemma round_le_Z q B :
  0 < q -> q <= inject_Z B -> (B < 2 ^ 53)%Z ->
  exists r, round q = Finite r /\ 0 <= r /\ r <= inject_Z B.
Proof.
  intros Hq HB Hlt.
  assert (Hq53 : q < pow2 (52 + 1)).
  { change (52 + 1)%Z with 53%Z. rewrite pow2_Z by lia.
    eapply Qle_lt_trans; [exact HB |]. now rewrite <- Zlt_Qlt. }
  rewrite (round_finite q 52 Hq Hq53) by lia.
  eexists. split; [reflexivity |].
  pose proof (Qred_correct (rounded q)) as Heq. rewrite Heq.
  split; [now apply rounded_nonneg |].
  pose proof (ulp_exponent_upper q 52 Hq Hq53 ltac:(lia)) as He.
  unfold rounded. set (e := ulp_exponent q) in *.
  pose proof (pow2_pos e) as Hp.
  assert (Hm : (round_half_even (q / pow2 e) <= B * 2 ^ (- e))%Z).
  { apply round_half_even_le. rewrite <- div_pow2_Z by lia.
    apply Qmult_le_compat_r; [exact HB |].
    apply Qlt_le_weak, Qinv_lt_0_compat, Hp. }
  rewrite Zle_Qle in Hm. rewrite <- div_pow2_Z in Hm by lia.
  set (m := inject_Z (round_half_even (q / pow2 e))) in *.
  assert (H1 : m * pow2 e <= inject_Z B / pow2 e * pow2 e)
    by (apply Qmult_le_compat_r; lra).
  assert (H2 : inject_Z B / pow2 e * pow2 e == inject_Z B) by (field; lra).
  lra.
Qed.

(** In the normal range a rounding stays in the binade of its argument. *)
Lemma rounded_lower q :
  pow2 (-1022) <= q -> pow2 (ilog2 q) <= rounded q.
Proof.
  intros Hq.
  assert (Hpos : 0 < q)
    by (eapply Qlt_le_trans; [apply (pow2_pos (-1022)) | exact Hq]).
  pose proof (ilog2_lower q _ Hq) as Hk.
  destruct (ilog2_spec q Hpos) as [Hlo _].
  unfold rounded, ulp_exponent. set (k := ilog2 q) in *.
  replace (Z.max (k - 52) (-1074)) with (k - 52)%Z by lia.
  pose proof (pow2_pos (k - 52)) as Hp.
  assert (Hm : (2 ^ 52 <= round_half_even (q / pow2 (k - 52)))%Z).
  { apply round_half_even_ge. rewrite <- pow2_Z by lia.
    apply Qle_shift_div_l; [exact Hp |].
    rewrite <- pow2_add. now replace (52 + (k - 52))%Z with k by lia. }
  rewrite Zle_Qle, <- pow2_Z in Hm by lia.
  set (m := inject_Z (round_half_even (q / pow2 (k - 52)))) in *.
  assert (H1 : pow2 52 * pow2 (k - 52) <= m * pow2 (k - 52))
    by (apply Qmult_le_compat_r; lra).
  rewrite <- pow2_add in H1.
  now replace (52 + (k - 52))%Z with k in H1 by lia.
Qed.

Lemma round_ge_pow2 q k :
  pow2 k <= q -> (-1022 <= k)%Z ->
  round q = Infinity false
  \/ exists r, round q = Finite r /\ pow2 k <= r.
Proof.
  intros Hq Hk.
  assert (Hpos : 0 < q)
    by (eapply Qlt_le_trans; [apply (pow2_pos k) | exact Hq]).
  rewrite (round_positive q Hpos).
  destruct (Qle_bool _ _); [now left | right].
  eexists. split; [reflexivity |].
  pose proof (Qred_correct (rounded q)) as Heq. rewrite Heq.
  assert (Hn : pow2 (-1022) <= q).
  { eapply Qle_trans; [apply pow2_le, Hk | exact Hq]. }
  eapply Qle_trans; [| apply (rounded_lower q Hn)].
  apply pow2_le. now apply ilog2_lower.
Qed.

Lemma round_ge_one q :
  1 <= q ->
  round q = Infinity false \/ exists r, round q = Finite r /\ 1 <= r.
Proof. intros Hq. apply (round_ge_pow2 q 0); [exact Hq | lia]. Qed.

Lemma round_nonneg q :
  0 <= q ->
  round q = Infinity false \/ exists r, round q = Finite r /\ 0 <= r.
Proof.
  intros Hq. apply Qle_lteq in Hq as [Hpos | Hz].
  - rewrite (round_positive q Hpos).
    destruct (Qle_bool _ _); [now left | right].
    eexists. split; [reflexivity |].
    pose proof (Qred_correct (rounded q)) as Heq. rewrite Heq.
    now apply rounded_nonneg.
  - right. exists 0. split; [| apply Qle_refl].
    apply round_zero. now symmetry.
Qed.

Lemma Qred_inject_Z z : Qred (inject_Z z) = inject_Z z.
Proof. apply Qcanon.Qred_identity. cbn. apply Z.gcd_1_r. Qed.

(** Integers up to [2^53] are binary64 numbers. *)
Lemma round_Z z :
  (0 <= z <= 2 ^ 53)%Z -> round (inject_Z z) = Finite (inject_Z z).
Proof.
  intros [H0 H53]. destruct (Z.eq_dec z 0%Z) as [-> | Hz].
  { now apply round_zero. }
  assert (Hq : 0 < inject_Z z)
    by (change 0 with (inject_Z 0); rewrite <- Zlt_Qlt; lia).
  assert (Hlt : inject_Z z < pow2 (53 + 1)).
  { change (53 + 1)%Z with 54%Z. rewrite pow2_Z by lia.
    rewrite <- Zlt_Qlt. lia. }
  rewrite (round_finite _ 53 Hq Hlt) by lia. f_equal.
  rewrite <- (Qred_inject_Z z) at 2. apply Qred_complete.
  pose proof (ilog2_upper _ 53 Hq Hlt) as Hk.
  unfold rounded. set (e := ulp_exponent (inject_Z z)).
  pose proof (pow2_pos e) as Hp.
  assert (Hint : exists n, inject_Z z / pow2 e == inject_Z n).
  { destruct (Z.le_gt_cases (ilog2 (inject_Z z)) 52) as [H52 | H53'].
    - exists (z * 2 ^ (- e))%Z. apply div_pow2_Z.
      subst e. unfold ulp_exponent. lia.
    - assert (Hk53 : ilog2 (inject_Z z) = 53%Z) by lia.
      destruct (ilog2_spec _ Hq) as [Hlo _]. rewrite Hk53 in Hlo.
      rewrite pow2_Z in Hlo by lia. rewrite <- Zle_Qle in Hlo.
      assert (Hz53 : z = (2 ^ 53)%Z) by lia.
      assert (He : e = 1%Z) by (subst e; unfold ulp_exponent; lia).
      exists (2 ^ 52)%Z. rewrite He, Hz53. reflexivity. }
  destruct Hint as [n Hn].
  rewrite (round_half_even_Z _ n Hn), <- Hn. field. lra.
Qed.


(** The number nearest to an integer is at least 1 when the integer is, and
    at most 0 when the integer is. *)
Lemma of_Z_sign z :
  ((1 <= z)%Z ->
     of_Z z = Infinity false
     \/ exists r, of_Z z = Finite r /\ (1 <= r))
  /\ ((z <= 0)%Z ->
     of_Z z = Infinity true
     \/ exists r, of_Z z = Finite r /\ (r <= 0)).
Proof.
  unfold of_Z. split; intros Hz.
  - apply round_ge_one.
    change 1 with (inject_Z 1). rewrite <- Zle_Qle. exact Hz.
  - assert (He : inject_Z z = (- inject_Z (- z))).
    { unfold inject_Z, Qopp. cbn. now rewrite Z.opp_involutive. }
    rewrite He, round_opp.
    destruct (round_nonneg (inject_Z (- z))) as [-> | (r & -> & Hr)].
    + change 0 with (inject_Z 0). rewrite <- Zle_Qle. lia.
    + now left.
    + right. exists (- r). split; [reflexivity |]. lra.
Qed.

(** The number of a positive count is not zero and is above zero. *)
Lemma of_Z_positive z :
  (1 <= z)%Z -> is_zero (of_Z z) = false /\ ltb 0 (of_Z z) = true.
Proof.
  intros Hz. destruct (proj1 (of_Z_sign z) Hz) as [-> | (r & -> & Hr)].
  - split; reflexivity.
  - cbn. assert (Hle : Qle_bool r 0 = false).
    { destruct (Qle_bool r 0) eqn:E; [| reflexivity].
      apply Qle_bool_iff in E. lra. }
    rewrite Hle. split; [| reflexivity].
    destruct (Qeq_bool r 0) eqn:E; [| reflexivity].
    apply Qeq_bool_eq in E. lra.
Qed.

Lemma of_Z_positive_exact z :
  (1 <= z)%Z -> is_zero (Finite (inject_Z z)) = false.
Proof.
  intros Hz. cbn. destruct (Qeq_bool (inject_Z z) 0) eqn:E; [| reflexivity].
  apply Qeq_bool_eq in E. unfold Qeq in E. cbn in E. lia.
Qed.

(** *** Exact and nearly exact operations *)

Lemma round_comp a b : a == b -> round a = round b.
Proof. intros H. unfold round. now rewrite (Qred_complete a b H). Qed.

(** Sums and products of integers that stay within [2^53] are exact. *)
Lemma add_Z a b :
  (0 <= a + b <= 2 ^ 53)%Z ->
  add (Finite (inject_Z a)) (Finite (inject_Z b)) = Finite (inject_Z (a + b)).
Proof.
  intros H. cbn [add].
  rewrite (round_comp _ (inject_Z (a + b)))
    by (rewrite inject_Z_plus; reflexivity).
  now apply round_Z.
Qed.

Lemma mul_Z a b :
  (0 <= a * b <= 2 ^ 53)%Z ->
  mul (Finite (inject_Z a)) (Finite (inject_Z b)) = Finite (inject_Z (a * b)).
Proof.
  intros H. cbn [mul].
  rewrite (round_comp _ (inject_Z (a * b)))
    by (rewrite inject_Z_mult; reflexivity).
  now apply round_Z.
Qed.

(** Rounding stays between 0 and an integer bound below [2^53]. *)
Lemma round_between q B :
  0 <= q -> q <= inject_Z B -> (B < 2 ^ 53)%Z ->
  exists r, round q = Finite r /\ 0 <= r /\ r <= inject_Z B.
Proof.
  intros H0 HB Hlt. apply Qle_lteq in H0 as [Hpos | Hz].
  - now apply round_le_Z.
  - exists 0. rewrite round_zero by (now symmetry).
    split; [reflexivity |]. split; lra.
Qed.

Lemma round_error_nonneg q K r :
  0 <= q -> q < pow2 (K + 1) -> (-1074 <= K - 52)%Z ->
  round q = Finite r ->
  Qabs (r - q) <= pow2 (K - 53).
Proof.
  intros H0 Hlt HK Hr. apply Qle_lteq in H0 as [Hpos | Hz].
  - now apply (round_error q K r Hpos Hlt HK).
  - rewrite round_zero in Hr by (now symmetry). injection Hr as <-.
    pose proof (pow2_pos (K - 53)). apply Qabs_Qle_condition. split; lra.
Qed.



End DoubleFacts.

(** ** Entry assembly *)

Lemma collect_entry_minimal c h :
  MODE c = "minimal" ->
  collect_entry c h = full_entry c h <$> minimal_system h.
Proof.
  intros Hm. unfold collect_entry. rewrite Hm. cbn.
  destruct (minimal_system h); reflexivity.
Qed.

Lemma collect_entry_extended c h :
  MODE c = "extended" \/ MODE c = "full" ->
  collect_entry c h = full_entry c h <$> extended_system h.
Proof.
  intros [Hm | Hm]; unfold collect_entry; rewrite Hm; cbn.
  - destruct (extended_system h); reflexivity.
  - change (full_system h) with (extended_system h).
    destruct (extended_system h); reflexivity.
Qed.

Lemma collect_entry_other c h :
  MODE c <> "minimal" -> MODE c <> "extended" -> MODE c <> "full" ->
  collect_entry c h =
    Some (JObj [("timestamp", JStr (date_utc h));
                ("github_context",
                 JObj [("user", JStr match USER_LOGIN c with
                                     | "" => whoami h
                                     | u => u
                                     end);
                       ("repositories",
                        parse_repos_to_json (GITHUB_REPOS c))])]).
Proof.
  intros H1 H2 H3. unfold collect_entry.
  apply String.eqb_neq in H1, H2, H3. rewrite H1, H2, H3. reflexivity.
Qed.

Lemma minimal_system_sampled h :
  is_Some (cpu_info h) -> is_Some (memory_info h) -> is_Some (disk_info h) ->
  exists sys,
    minimal_system h = Some (JObj sys)
    /\ Jq.keys sys = ["cpu"; "memory"; "disk"].
Proof.
  intros [cpu Hc] [memory Hm] [disk Hd]. unfold minimal_system.
  rewrite Hc, Hm, Hd. eexists. split; reflexivity.
Qed.

Lemma minimal_system_unsampled h :
  ~ (is_Some (cpu_info h) /\ is_Some (memory_info h)
     /\ is_Some (disk_info h)) ->
  minimal_system h = None.
Proof.
  intros Hn. unfold minimal_system.
  destruct (cpu_info h); [| reflexivity].
  destruct (memory_info h); [| reflexivity].
  destruct (disk_info h); [| reflexivity].
  exfalso. apply Hn. repeat split; eauto.
Qed.

Lemma extended_system_sampled h :
  is_Some (cpu_info h) -> is_Some (memory_info h) -> is_Some (disk_info h) ->
  is_Some (system_info h) -> is_Some (network_info h) ->
  is_Some (top_processes h) ->
  exists sys,
    extended_system h = Some (JObj sys)
    /\ Jq.keys sys
       = ["info"; "cpu"; "memory"; "disk"; "network"; "top_processes"].
Proof.
  intros [cpu Hc] [memory Hm] [disk Hd] [info Hi] [net Hn] [top Ht].
  unfold extended_system. rewrite Hc, Hm, Hd, Hi, Hn, Ht.
  eexists. split; reflexivity.
Qed.

Lemma extended_system_unsampled h :
  ~ (is_Some (cpu_info h) /\ is_Some (memory_info h)
     /\ is_Some (disk_info h) /\ is_Some (system_info h)
     /\ is_Some (network_info h) /\ is_Some (top_processes h)) ->
  extended_system h = None.
Proof.
  intros Hn. unfold extended_system.
  destruct (cpu_info h); [| reflexivity].
  destruct (memory_info h); [| reflexivity].
  destruct (disk_info h); [| reflexivity].
  destruct (system_info h); [| reflexivity].
  destruct (network_info h); [| reflexivity].
  destruct (top_processes h); [| reflexivity].
  exfalso. apply Hn. repeat split; eauto.
Qed.




(** C10.  The argument loop stores any value given to [--mode]; with a value
    other than minimal, extended and full no arm of the [case] runs, and the
    entry has the keys timestamp and github_context and no system key. *)
Theorem unknown_mode_has_no_system (c : config) (h : host) (m : string) :
  m <> "minimal" -> m <> "extended" -> m <> "full" ->
  parse_args ["--mode"; m] c = Run (with_mode m c)
  /\ exists e,
       collect_entry (with_mode m c) h = Some (JObj e)
       /\ Jq.keys e = ["timestamp"; "github_context"]
       /\ Jq.assoc "system" e = None.
Proof.
  intros H1 H2 H3. split; [reflexivity |].
  eexists. split; [apply collect_entry_other; assumption |].
  split; reflexivity.
Qed.

Lemma unknown_mode_has_no_system_witness :
  parse_args ["--mode"; "verbose"] defaults = Run (with_mode "verbose" defaults)
  /\ exists e,
       collect_entry (with_mode "verbose" defaults) sample_host = Some (JObj e)
       /\ Jq.keys e = ["timestamp"; "github_context"]
       /\ Jq.assoc "system" e = None.
Proof.
  apply (unknown_mode_has_no_system defaults sample_host "verbose");
    discriminate.
Defined.

(** ** Repository parsing *)

(** C4.  On the input [" a/b , ,c/d,"] the script does not produce the two
    repositories a/b and c/d only: [echo] ends its output with a newline,
    [jq -Rs] reads it as part of the string, and the piece after the last
    comma is that newline, which is neither a space to trim nor empty.  A
    third repository whose name is the newline follows the two. *)
Theorem parse_repos_keeps_the_newline :
  parse_repos_to_json " a/b , ,c/d,"
  = JArr [repo_object "a/b"; repo_object "c/d"; repo_object Text.nl]
  /\ parse_repos_to_json " a/b , ,c/d,"
     <> JArr [repo_object "a/b"; repo_object "c/d"].
Proof. split; [reflexivity | discriminate]. Qed.

(** The list of the script's own usage text: the name and the url of the
    last repository end with the newline. *)
Example parse_repos_usage_example :
  parse_repos_to_json "wechuli/kubecosmos,arctestingorg/k8smodebug"
  = JArr [repo_object "wechuli/kubecosmos";
          repo_object ("arctestingorg/k8smodebug" ++ Text.nl)].
Proof. reflexivity. Qed.

(** [ltrimstr(" ")] and [rtrimstr(" ")] remove one space each, not a run. *)
Example parse_repos_two_spaces :
  parse_repos_to_json "  a/b  ,c/d"
  = JArr [repo_object " a/b "; repo_object ("c/d" ++ Text.nl)].
Proof. reflexivity. Qed.

(** ** The input parser *)

Module InputParserFacts.
Import InputParser.

Lemma is_mode_In m : is_mode m = true -> In m modes.
Proof.
  unfold is_mode. rewrite existsb_exists. intros (x & Hx & He).
  apply String.eqb_eq in He. subst. exact Hx.
Qed.

Lemma parseInt_empty : parseInt "" = NaN.
Proof. reflexivity. Qed.

(** A string that starts with something that is neither white space, a sign
    nor a decimal digit has no number for [parseInt] to read. *)
Lemma parseInt_not_a_number c s :
  is_space c = false -> c <> "-"%char -> c <> "+"%char ->
  digit_value 10 c = None ->
  parseInt (String c s) = NaN.
Proof.
  intros Hs Hm Hp Hd. unfold parseInt. simpl. rewrite Hs.
  assert (Hsign :
            (match String c s with
             | String "-" r => ((-1)%Z, r)
             | String "+" r => (1%Z, r)
             | _ => (1%Z, String c s)
             end) = (1%Z, String c s)).
  { destruct c as [[] [] [] [] [] [] [] []]; try reflexivity;
      exfalso; auto. }
  rewrite Hsign.
  assert (Hradix :
            (match String c s with
             | String "0" (String "x" r) => (16%Z, r)
             | String "0" (String "X" r) => (16%Z, r)
             | _ => (10%Z, String c s)
             end) = (10%Z, String c s)).
  { destruct c as [[] [] [] [] [] [] [] []]; try reflexivity;
      discriminate Hd. }
  rewrite Hradix. simpl. rewrite Hd. reflexivity.
Qed.


(** A positive integer passes the two tests on the interval. *)
Lemma interval_kept z :
  (0 < z)%Z ->
  (if isNaN (or_number (Int z) (Int 1)) || le_zero (or_number (Int z) (Int 1))
   then Int 1
   else or_number (Int z) (Int 1))
  = Int z.
Proof.
  intros Hz.
  assert (Hpos : (0 < inject_Z z)%Q)
    by (change 0%Q with (inject_Z 0); rewrite <- Zlt_Qlt; lia).
  assert (Hq : or_number (Int z) (Int 1) = Int z).
  { unfold or_number, Int.
    destruct (Qeq_bool (inject_Z z) 0) eqn:E; [| reflexivity].
    apply Qeq_bool_eq in E. lra. }
  rewrite Hq. unfold isNaN, le_zero, Int. cbn [Double.leb orb].
  destruct (Qle_bool (inject_Z z) (inject_Z 0)) eqn:E; [| reflexivity].
  apply Qle_bool_iff in E. change (inject_Z 0) with 0%Q in E. lra.
Qed.


Example parseInputs_fallbacks :
  parseInputs (inputs "" "") = {| mode := "minimal"; interval := Int 1 |}
  /\ parseInputs (inputs "turbo" "soon")
     = {| mode := "minimal"; interval := Int 1 |}
  /\ parseInputs (inputs "full" "0") = {| mode := "full"; interval := Int 1 |}
  /\ parseInputs (inputs "extended" "-5")
     = {| mode := "extended"; interval := Int 1 |}
  /\ parseInputs (inputs "full" "15")
     = {| mode := "full"; interval := Int 15 |}.
Proof. repeat split; vm_compute; reflexivity. Qed.

(** Above [2^53] the interval is the binary64 number nearest to the digits:
    [2^53 + 1] reads as [2^53]. *)
Example parseInputs_rounds_large_intervals :
  parseInputs (inputs "full" "9007199254740993")
  = {| mode := "full"; interval := Int 9007199254740992 |}.
Proof. vm_compute. reflexivity. Qed.

End InputParserFacts.


(** ** Paths *)

Lemma append_empty_r (s : string) : (s ++ "")%string = s.
Proof.
  induction s as [| a s IH]; [reflexivity |].
  change (String a (s ++ "")%string = String a s). now rewrite IH.
Qed.

Lemma append_ne_self (p s : string) : s <> "" -> (p ++ s)%string <> p.
Proof.
  intros Hs He. apply Hs.
  assert (H : (p ++ s)%string = (p ++ "")%string)
    by (rewrite (append_empty_r p); exact He).
  exact (String.app_inj p _ _ H).
Qed.

Lemma append_ne (p s1 s2 : string) :
  s1 <> s2 -> (p ++ s1)%string <> (p ++ s2)%string.
Proof. intros Hs He. apply Hs. exact (String.app_inj p _ _ He). Qed.

Lemma lock_ne_output c : LOCK_FILE c <> OUTPUT_FILE c.
Proof. apply append_ne_self. discriminate. Qed.

Lemma temp_ne_output c : temp_file c <> OUTPUT_FILE c.
Proof. apply append_ne_self. discriminate. Qed.

Lemma temp_ne_lock c : temp_file c <> LOCK_FILE c.
Proof. apply append_ne. discriminate. Qed.

Lemma backup_ne_output c epoch : backup_file c epoch <> OUTPUT_FILE c.
Proof. apply append_ne_self. discriminate. Qed.

(** ** What [echo] prints *)

Lemma echo_no_dash a s :
  a <> "-"%char -> Text.echo (String a s) = (String a s ++ Text.nl)%string.
Proof.
  intros Ha. unfold Text.echo.
  destruct a as [[] [] [] [] [] [] [] []]; try reflexivity.
  now destruct Ha.
Qed.

Lemma dec_starts_with_digit n :
  exists a s, Num.dec n = String a s /\ Num.is_digit a = true.
Proof.
  unfold Num.dec, NilZero.string_of_uint.
  destruct (N.to_uint n); cbn; eauto.
Qed.

Lemma echo_dec n : Text.echo (Num.dec n) = (Num.dec n ++ Text.nl)%string.
Proof.
  destruct (dec_starts_with_digit n) as (a & s & -> & Ha).
  apply echo_no_dash. intros ->. discriminate Ha.
Qed.

(** ** The lock *)

Section Lock.

Variable others : interference.
Variable c : config.

Lemma wait_lock_run fuel : forall count fs,
  exists j,
    (j <= fuel)%nat
    /\ wait_lock others (LOCK_FILE c) fuel count fs
       = ((count + j)%nat, files_from others count j fs)
    /\ (forall i, (i < j)%nat -> locked c (files_from others count i fs))
    /\ ((j < fuel)%nat -> files_from others count j fs !! LOCK_FILE c = None).
Proof.
  induction fuel as [| fuel IH]; intros count fs.
  - exists 0%nat. cbn. rewrite Nat.add_0_r.
    split; [lia |]. split; [now destruct (fs !! LOCK_FILE c) |].
    split; intros; lia.
  - cbn. destruct (fs !! LOCK_FILE c) as [f |] eqn:E.
    + destruct (IH (S count) (others count fs)) as (j & Hj & Hr & Hl & Hn).
      exists (S j). repeat split.
      * lia.
      * rewrite Hr. cbn. f_equal. lia.
      * intros [| i] Hi; cbn.
        -- unfold locked. rewrite E. eauto.
        -- apply Hl. lia.
      * intros Hlt. cbn. apply Hn. lia.
    + exists 0%nat. rewrite Nat.add_0_r.
      split; [lia |]. split; [reflexivity |].
      split; [intros; lia | intros _; exact E].
Qed.

Lemma lock_ticks_bound fs : (lock_ticks others c fs <= LOCK_TIMEOUT)%nat.
Proof.
  unfold lock_ticks.
  destruct (wait_lock_run LOCK_TIMEOUT 0 fs) as (j & Hj & -> & _).
  cbn [fst]. lia.
Qed.

(** The loop stops at the first check that finds no lock file. *)
Lemma wait_lock_free fs i :
  (i <= LOCK_TIMEOUT)%nat ->
  (forall k, (k < i)%nat -> locked c (files_at others k fs)) ->
  files_at others i fs !! LOCK_FILE c = None ->
  wait_lock others (LOCK_FILE c) LOCK_TIMEOUT 0 fs = (i, files_at others i fs).
Proof.
  intros Hi Hbefore Hfree.
  destruct (wait_lock_run LOCK_TIMEOUT 0 fs) as (j & Hj & Hr & Hl & Hn).
  rewrite Hr. cbn [Nat.add].
  assert (j = i) as ->; [| reflexivity].
  destruct (Nat.lt_trichotomy j i) as [Hlt | [He | Hgt]]; [| exact He |].
  - specialize (Hn ltac:(lia)). destruct (Hbefore j Hlt) as [f Hf].
    unfold files_at in Hf. congruence.
  - destruct (Hl i Hgt) as [f Hf]. unfold files_at in Hfree. congruence.
Qed.

(** With the lock file there at every check, the loop runs out of time. *)
Lemma wait_lock_timeout fs :
  (forall k, (k < LOCK_TIMEOUT)%nat -> locked c (files_at others k fs)) ->
  wait_lock others (LOCK_FILE c) LOCK_TIMEOUT 0 fs
  = (LOCK_TIMEOUT, files_at others LOCK_TIMEOUT fs).
Proof.
  intros Hheld.
  destruct (wait_lock_run LOCK_TIMEOUT 0 fs) as (j & Hj & Hr & Hl & Hn).
  rewrite Hr. cbn [Nat.add].
  assert (j = LOCK_TIMEOUT) as ->; [| reflexivity].
  destruct (Nat.eq_dec j LOCK_TIMEOUT) as [He | Hne]; [exact He |].
  specialize (Hn ltac:(lia)). destruct (Hheld j ltac:(lia)) as [f Hf].
  unfold files_at in Hf. congruence.
Qed.

Lemma after_wait_unlocked fs : after_wait others c fs !! LOCK_FILE c = None.
Proof.
  unfold after_wait.
  destruct (wait_lock_run LOCK_TIMEOUT 0 fs) as (j & Hj & -> & Hl & Hn).
  cbn [Nat.add].
  destruct (Nat.eqb_spec j LOCK_TIMEOUT) as [-> | Hne].
  - apply lookup_delete_eq.
  - apply Hn. lia.
Qed.

End Lock.

Lemma files_from_quiet j : forall count fs, files_from quiet count j fs = fs.
Proof. induction j as [| j IH]; intros; [reflexivity | apply IH]. Qed.

Lemma files_at_quiet i fs : files_at quiet i fs = fs.
Proof. apply files_from_quiet. Qed.

Lemma lock_seconds_bound others c fs : (lock_seconds others c fs <= 5)%Q.
Proof.
  pose proof (lock_ticks_bound others c fs) as H.
  unfold lock_seconds, LOCK_TIMEOUT in *.
  unfold Qle. cbn. lia.
Qed.

(** C7.  [acquire_lock] always returns, after at most [LOCK_TIMEOUT] = 10
    sleeps of half a second (5 seconds), and on return the lock file holds
    the identifier of the acquiring process.  If a check within the timeout
    finds no lock file, it stops sleeping at the first such check; if the
    lock file is there at every check, it sleeps the full timeout, removes
    the lock file and goes on.  In particular a stale lock file that nobody
    touches is removed after the full timeout and replaced. *)
Theorem acquire_lock_returns
  (others : interference)
  (c : config) (pid : N) (fs : files) :
  (lock_ticks others c fs <= LOCK_TIMEOUT)%nat
  /\ (lock_seconds others c fs <= 5)%Q
  /\ acquire_lock others c pid fs !! LOCK_FILE c
     = Some (Bytes (Num.dec pid ++ Text.nl))
  /\ (forall i,
        (i <= LOCK_TIMEOUT)%nat ->
        (forall k, (k < i)%nat -> locked c (files_at others k fs)) ->
        files_at others i fs !! LOCK_FILE c = None ->
        lock_ticks others c fs = i
        /\ acquire_lock others c pid fs
           = <[LOCK_FILE c := Bytes (Num.dec pid ++ Text.nl)]>
               (files_at others i fs))
  /\ ((forall k, (k < LOCK_TIMEOUT)%nat -> locked c (files_at others k fs)) ->
      lock_ticks others c fs = LOCK_TIMEOUT
      /\ after_wait others c fs
         = delete (LOCK_FILE c) (files_at others LOCK_TIMEOUT fs)
      /\ acquire_lock others c pid fs
         = <[LOCK_FILE c := Bytes (Num.dec pid ++ Text.nl)]>
             (delete (LOCK_FILE c) (files_at others LOCK_TIMEOUT fs)))
  /\ (locked c fs ->
      lock_ticks quiet c fs = LOCK_TIMEOUT
      /\ after_wait quiet c fs = delete (LOCK_FILE c) fs
      /\ after_wait quiet c fs !! LOCK_FILE c = None
      /\ acquire_lock quiet c pid fs !! LOCK_FILE c
         = Some (Bytes (Num.dec pid ++ Text.nl))).
Proof.
  assert (Hforced : forall o,
    (forall k, (k < LOCK_TIMEOUT)%nat -> locked c (files_at o k fs)) ->
    lock_ticks o c fs = LOCK_TIMEOUT
    /\ after_wait o c fs = delete (LOCK_FILE c) (files_at o LOCK_TIMEOUT fs)).
  { intros o Hheld. unfold lock_ticks, after_wait.
    rewrite (wait_lock_timeout o c fs Hheld). split; reflexivity. }
  split; [apply lock_ticks_bound |].
  split; [apply lock_seconds_bound |].
  split.
  { unfold acquire_lock. rewrite echo_dec. apply lookup_insert_eq. }
  split.
  { intros i Hi Hbefore Hfree.
    unfold lock_ticks, acquire_lock, after_wait.
    rewrite (wait_lock_free others c fs i Hi Hbefore Hfree). cbn [fst].
    split; [reflexivity |]. rewrite echo_dec.
    destruct (Nat.eqb i LOCK_TIMEOUT); [| reflexivity].
    now rewrite delete_id. }
  split.
  { intros Hheld. destruct (Hforced others Hheld) as [Ht Ha].
    split; [exact Ht |]. split; [exact Ha |].
    unfold acquire_lock. now rewrite Ha, echo_dec. }
  intros Hlocked.
  destruct (Hforced quiet) as [Ht Ha].
  { intros k _. now rewrite files_at_quiet. }
  rewrite files_at_quiet in Ha.
  split; [exact Ht |]. split; [exact Ha |].
  split; [apply after_wait_unlocked |].
  unfold acquire_lock. rewrite echo_dec. apply lookup_insert_eq.
Qed.

(** A lock left behind by a dead process is gone after ten sleeps. *)
Example stale_lock_is_replaced :
  let c := defaults in
  let fs : files := {[ LOCK_FILE c := Bytes "4242" ]} in
  lock_ticks quiet c fs = 10%nat
  /\ after_wait quiet c fs = ∅
  /\ acquire_lock quiet c 77 fs = {[ LOCK_FILE c := Bytes ("77" ++ Text.nl) ]}.
Proof.
  cbv zeta. split; [reflexivity |]. split.
  - apply map_eq. intros p. vm_compute. reflexivity.
  - apply map_eq. intros p. unfold acquire_lock.
    assert (Ha : after_wait quiet defaults
                   ({[LOCK_FILE defaults := Bytes "4242"]} : files)
                 = delete (LOCK_FILE defaults)
                     {[LOCK_FILE defaults := Bytes "4242"]}).
    { reflexivity. }
    rewrite Ha, delete_singleton_eq, insert_empty. reflexivity.
Qed.

(** ** [initialize_file] *)

Lemma initialize_file_valid jq_parse c epoch fs f :
  fs !! OUTPUT_FILE c = Some f ->
  is_json_array jq_parse f = true ->
  initialize_file jq_parse c epoch fs = fs.
Proof. intros Hf Hv. unfold initialize_file. now rewrite Hf, Hv. Qed.

Lemma initialize_file_corrupt jq_parse c epoch fs f :
  fs !! OUTPUT_FILE c = Some f ->
  is_json_array jq_parse f = false ->
  initialize_file jq_parse c epoch fs
  = <[OUTPUT_FILE c := Bytes ("[]" ++ Text.nl)]>
      (<[backup_file c epoch := f]> (delete (OUTPUT_FILE c) fs)).
Proof. intros Hf Hv. unfold initialize_file. now rewrite Hf, Hv. Qed.

(** What the check of [initialize_file] accepts: a file that jq reads to its
    end and whose last value is an array, whatever comes before it. *)
Lemma is_json_array_spec jq_parse f :
  is_json_array jq_parse f = true
  <-> exists vs l,
        jq_read jq_parse f
        = {| values := vs ++ [JArr l]; complete := true |}.
Proof.
  unfold is_json_array.
  destruct (jq_read jq_parse f) as [vs ok]. cbn. split.
  - intros H. apply andb_true_iff in H as [-> H].
    destruct (last vs) as [v |] eqn:E; [| discriminate H].
    apply last_Some in E as [vs' ->].
    destruct v; try discriminate H. eauto.
  - intros (vs' & l & H). injection H as -> ->.
    now rewrite last_snoc.
Qed.

(** A file that holds one JSON array passes the check. *)
Lemma stored_array_is_json_array jq_parse c fs l :
  stored_array jq_parse c fs = Some l ->
  exists f, fs !! OUTPUT_FILE c = Some f /\ is_json_array jq_parse f = true.
Proof.
  unfold stored_array, read_output. intros H.
  destruct (fs !! OUTPUT_FILE c) as [f |]; [| discriminate H].
  exists f. split; [reflexivity |]. cbn in H.
  apply is_json_array_spec. exists [], l.
  destruct (jq_read jq_parse f) as [[| [] [|]] []]; try discriminate H.
  now injection H as ->.
Qed.




(** ** [append_entry] *)

Lemma last_n_length {A : Type} (n : nat) (l : list A) :
  length (last_n n l) = Nat.min (length l) n.
Proof. unfold last_n. rewrite length_skipn. lia. Qed.

Lemma last_n_all {A : Type} (n : nat) (l : list A) :
  (length l <= n)%nat -> last_n n l = l.
Proof.
  intros H. unfold last_n. replace (length l - n)%nat with 0%nat by lia.
  reflexivity.
Qed.

(** Trimming before appending loses nothing that trimming afterwards
    keeps. *)
Lemma last_n_app_trimmed {A : Type} (n : nat) (l m : list A) :
  last_n n (last_n n l ++ m) = last_n n (l ++ m).
Proof.
  destruct (Nat.le_gt_cases (length l) n) as [Hle | Hgt].
  - now rewrite (last_n_all n l Hle).
  - unfold last_n at 1 3. rewrite !length_app, last_n_length.
    replace (Nat.min (length l) n) with n by lia.
    unfold last_n.
    rewrite (List.skipn_app (length l + length m - n) l m).
    rewrite (List.skipn_app (n + length m - n) (skipn (length l - n) l) m).
    rewrite length_skipn, List.skipn_skipn.
    f_equal; f_equal; lia.
Qed.

(** The conditional slice of the jq program keeps the last [max] elements
    when [max] is at least 1. *)
Lemma trim_is_last_n {A : Type} (max : Z) (l : list A) :
  (1 <= max)%Z ->
  (if (max <? Z.of_nat (length l))%Z then Jq.slice_from (- max)%Z l else l)
  = last_n (Z.to_nat max) l.
Proof.
  intros Hmax. destruct (Z.ltb_spec max (Z.of_nat (length l))) as [Hlt | Hge].
  - unfold Jq.slice_from, last_n.
    destruct (Z.ltb_spec (- max) 0) as [_ | ?]; [| lia].
    destruct (Z.ltb_spec (- max + Z.of_nat (length l)) 0) as [? | _]; [lia |].
    destruct (Z.ltb_spec (Z.of_nat (length l))
                (- max + Z.of_nat (length l))) as [? | _]; [lia |].
    f_equal. lia.
  - symmetry. apply last_n_all. lia.
Qed.

Lemma append_filter_array (entry : json) (max : Z) (l : list json) :
  (1 <= max)%Z ->
  append_filter entry max (JArr l)
  = Some (JArr (last_n (Z.to_nat max) (l ++ [entry]))).
Proof.
  intros Hmax. unfold append_filter. cbn [Jq.add].
  now rewrite trim_is_last_n.
Qed.

Section Append.

Variable jq_parse : string -> parsed.
Variable several : list bool -> bool.
Variable c : config.
Variable pid : N.

Lemma wait_lock_quiet lock fuel : forall count fs,
  snd (wait_lock quiet lock fuel count fs) = fs.
Proof.
  induction fuel as [| fuel IH]; intros count fs; cbn;
    destruct (fs !! lock); try reflexivity.
  apply IH.
Qed.

Lemma acquire_lock_keeps_output fs :
  acquire_lock quiet c pid fs !! OUTPUT_FILE c = fs !! OUTPUT_FILE c.
Proof.
  unfold acquire_lock, after_wait.
  rewrite lookup_insert_ne by apply lock_ne_output.
  pose proof (wait_lock_quiet (LOCK_FILE c) LOCK_TIMEOUT 0 fs) as Hq.
  destruct (wait_lock quiet (LOCK_FILE c) LOCK_TIMEOUT 0 fs) as [count fs1].
  cbn in Hq. subst fs1.
  destruct (Nat.eqb count LOCK_TIMEOUT); [| reflexivity].
  apply lookup_delete_ne, lock_ne_output.
Qed.

(** One append on a file that holds one JSON value the jq program
    accepts: the script goes on, the output file holds what the program
    computed, and the lock and the temporary file are gone. *)
Lemma append_entry_done max e fs doc doc' :
  read_output jq_parse c fs = Some {| values := [doc]; complete := true |} ->
  append_filter e max doc = Some doc' ->
  exists fs',
    append_entry jq_parse several quiet c pid max e fs = Done fs'
    /\ fs' !! OUTPUT_FILE c = Some (Printed [doc'])
    /\ fs' !! LOCK_FILE c = None
    /\ fs' !! temp_file c = None.
Proof.
  intros Hread Hfilter. unfold append_entry.
  rewrite acquire_lock_keeps_output. unfold read_output in Hread.
  destruct (fs !! OUTPUT_FILE c) as [f |]; [| discriminate Hread].
  cbn in Hread. injection Hread as Hread.
  unfold jq_file. rewrite Hread. cbn. rewrite Hfilter. cbn.
  eexists. split; [reflexivity |]. unfold release_lock. repeat split.
  - rewrite lookup_delete_ne by apply lock_ne_output. apply lookup_insert_eq.
  - apply lookup_delete_eq.
  - rewrite lookup_delete_ne by (apply not_eq_sym, temp_ne_lock).
    rewrite lookup_insert_ne by (apply not_eq_sym, temp_ne_output).
    apply lookup_delete_eq.
Qed.

Lemma stored_array_read fs l :
  stored_array jq_parse c fs = Some l
  <-> read_output jq_parse c fs
      = Some {| values := [JArr l]; complete := true |}.
Proof.
  unfold stored_array. split.
  - intros H.
    destruct (read_output jq_parse c fs) as [[[| [] [|]] []] |];
      try discriminate H.
    now injection H as ->.
  - now intros ->.
Qed.

Lemma stored_array_printed fs l :
  fs !! OUTPUT_FILE c = Some (Printed [JArr l]) ->
  stored_array jq_parse c fs = Some l.
Proof. intros H. unfold stored_array, read_output. now rewrite H. Qed.

Lemma append_entries_run max (Hmax : (1 <= max)%Z) es : forall init fs,
  stored_array jq_parse c fs = Some init ->
  exists fs',
    append_entries jq_parse several c pid max es fs = Done fs'
    /\ stored_array jq_parse c fs'
       = Some (fold_left (fun a e => last_n (Z.to_nat max) (a ++ [e])) es init).
Proof.
  induction es as [| e es IH]; intros init fs Hinit.
  - exists fs. split; [reflexivity | exact Hinit].
  - apply stored_array_read in Hinit.
    destruct (append_entry_done max e fs _ _ Hinit
                (append_filter_array e max init Hmax))
      as (fs1 & Hrun & Hout & _).
    cbn [append_entries]. rewrite Hrun.
    apply IH. now apply stored_array_printed.
Qed.

End Append.

Lemma fold_trim_is_last_n {A : Type} (n : nat) (es : list A) : forall l a,
  a = last_n n l ->
  fold_left (fun a e => last_n n (a ++ [e])) es a = last_n n (l ++ es).
Proof.
  induction es as [| e es IH]; intros l a Ha.
  - now rewrite List.app_nil_r.
  - cbn [fold_left]. rewrite (IH (l ++ [e])).
    + now rewrite <- List.app_assoc.
    + subst a. apply last_n_app_trimmed.
Qed.

(** C1, for at least one append.  From any stored array, with any bound
    [k >= 1], after the appends of [N >= 1] entries in a row the stored array
    is the last [k] elements of the initial array followed by the entries,
    in that order, and its length is [min (initial length + N) k]. *)
Theorem append_entries_bounded
  (c : config) (pid : N) (k : Z) (init es : list json)
  (fs : files) :
  (1 <= k)%Z ->
  (1 <= length es)%nat ->
  forall (jq_parse : string -> parsed) (several : list bool -> bool),
    stored_array jq_parse c fs = Some init ->
    exists fs',
      append_entries jq_parse several c pid k es fs = Done fs'
      /\ stored_array jq_parse c fs'
         = Some (last_n (Z.to_nat k) (init ++ es))
      /\ length (last_n (Z.to_nat k) (init ++ es))
         = Nat.min (length init + length es) (Z.to_nat k).
Proof.
  intros Hk Hn jq_parse several Hinit.
  destruct (append_entries_run jq_parse several c pid k Hk es init fs Hinit)
    as (fs' & Hrun & Hst).
  exists fs'. split; [exact Hrun |]. split.
  - rewrite Hst. f_equal.
    destruct es as [| e es]; [cbn in Hn; lia |].
    cbn [fold_left].
    rewrite (fold_trim_is_last_n (Z.to_nat k) es (init ++ [e])) by reflexivity.
    now rewrite <- List.app_assoc.
  - now rewrite last_n_length, length_app.
Qed.

Lemma append_entries_bounded_witness :
  (1 <= 2)%Z
  /\ (1 <= length [JNum 4; JNum 5])%nat
  /\ forall (jq_parse : string -> parsed) (several : list bool -> bool),
       exists fs',
         append_entries jq_parse several defaults 4242 2 [JNum 4; JNum 5]
           {[ OUTPUT_FILE defaults := Printed [JArr three_entries] ]}
         = Done fs'
         /\ stored_array jq_parse defaults fs'
            = Some (last_n 2 (three_entries ++ [JNum 4; JNum 5]))
         /\ length (last_n 2 (three_entries ++ [JNum 4; JNum 5]))
            = Nat.min (length three_entries + 2) 2.
Proof.
  split; [discriminate |]. split; [apply le_S, le_n |].
  intros jq_parse several.
  apply (append_entries_bounded defaults 4242 2 three_entries
           [JNum 4; JNum 5]
           {[ OUTPUT_FILE defaults := Printed [JArr three_entries] ]}).
  - discriminate.
  - apply le_S, le_n.
  - unfold stored_array, read_output. now rewrite lookup_singleton_eq.
Defined.

(** C1 as stated fails when no append has happened yet: a file found with
    three entries still has three entries after start-up with
    [--max-entries 1], since only [append_entry] trims. *)
Lemma no_append_no_trim :
  let fs : files :=
    {[ OUTPUT_FILE defaults := Printed [JArr three_entries] ]} in
  (forall (jq_parse : string -> parsed) (several : list bool -> bool),
     initialize_file jq_parse defaults 1758103200 fs = fs
     /\ append_entries jq_parse several defaults 4242 1 [] fs = Done fs
     /\ stored_array jq_parse defaults fs = Some three_entries)
  /\ length three_entries <> Nat.min (length three_entries + 0) 1.
Proof.
  cbv zeta. split; [| discriminate].
  intros jq_parse several. split; [| split].
  - apply (initialize_file_valid jq_parse defaults 1758103200 _
             (Printed [JArr three_entries]));
      [apply lookup_singleton_eq | reflexivity].
  - reflexivity.
  - unfold stored_array, read_output. now rewrite lookup_singleton_eq.
Qed.

(** ** Strings *)

Lemma append_cons a (s t : string) :
  (String a s ++ t)%string = String a (s ++ t)%string.
Proof. reflexivity. Qed.

Lemma append_assoc (s t u : string) :
  ((s ++ t) ++ u)%string = (s ++ (t ++ u))%string.
Proof.
  induction s as [| a s IH]; [reflexivity |].
  rewrite !append_cons. now rewrite IH.
Qed.

Lemma drop_trailing_all p t :
  Text.all_chars p t = true -> Num.drop_trailing p t = "".
Proof.
  induction t as [| a t IH]; [reflexivity |]. cbn.
  intros H. apply andb_prop in H as [Ha Ht]. now rewrite (IH Ht), Ha.
Qed.




(** The first append brings the array down to the bound. *)
Example first_append_trims :
  append_filter (JNum 4) 1 (JArr three_entries) = Some (JArr [JNum 4])
  /\ append_filter (JNum 4) 2 (JArr three_entries)
     = Some (JArr [JNum 3; JNum 4]).
Proof. split; reflexivity. Qed.

(** With a bound of 0 the slice [.[-0:]] is the whole array: nothing is
    ever dropped. *)
Example zero_bound_never_trims :
  append_filter (JNum 4) 0 (JArr three_entries)
  = Some (JArr [JNum 1; JNum 2; JNum 3; JNum 4]).
Proof. reflexivity. Qed.

(** ** [print_stats] *)

Lemma sum_step_nums xs : forall a,
  fold_left (fun acc v => match acc with
                          | Some a => Jq.add a v
                          | None => None
                          end) (map JNum xs) (Some (JNum a))
  = Some (JNum (fold_left Double.add xs a)).
Proof.
  induction xs as [| x xs IH]; intros a; [reflexivity |]. cbn. apply IH.
Qed.

Lemma sum_nums x xs :
  Jq.sum (map JNum (x :: xs)) = Some (JNum (sum64 (x :: xs))).
Proof. unfold Jq.sum. cbn. apply sum_step_nums. Qed.

Lemma sum_nulls vs : Forall (eq JNull) vs -> Jq.sum vs = Some JNull.
Proof.
  unfold Jq.sum. induction 1 as [| v vs <- _ IH]; [reflexivity |].
  cbn. exact IH.
Qed.

Lemma count_positive {A : Type} (l : list A) :
  l <> [] ->
  Double.is_zero (Jq.count l) = false /\ Double.ltb 0 (Jq.count l) = true.
Proof.
  intros Hne. apply DoubleFacts.of_Z_positive.
  destruct l; [contradiction | cbn [length]; lia].
Qed.

(** The average of values that are all numbers is their mean in
    binary64. *)
Lemma average_of_numbers ks l xs :
  l <> [] ->
  Forall2 (fun e x => Jq.path ks e = Some (JNum x)) l xs ->
  average ks l = Some (JNum (mean64 xs)).
Proof.
  intros Hne HF. unfold average.
  assert (Hm : mapM (Jq.path ks) l = Some (map JNum xs)).
  { apply mapM_Some. apply Forall2_fmap_r.
    eapply Forall2_impl; [exact HF |]. auto. }
  rewrite Hm. cbn [mbind option_bind].
  destruct xs as [| x xs].
  { apply Forall2_nil_inv_r in HF. contradiction. }
  rewrite sum_nums. cbn [mbind option_bind Jq.div].
  destruct (count_positive (map JNum (x :: xs))) as [Hz _]; [discriminate |].
  rewrite Hz. unfold mean64, Jq.count, Double.of_Z.
  now rewrite length_map.
Qed.

(** No average without a single value: the sum of nulls is null, and null
    cannot be divided. *)
Lemma average_of_nothing ks l :
  (forall e, In e l -> Jq.path ks e = None \/ Jq.path ks e = Some JNull) ->
  average ks l = None.
Proof.
  intros Hnone. unfold average.
  destruct (mapM (Jq.path ks) l) as [vs |] eqn:Hm; [| reflexivity].
  apply mapM_Some in Hm. cbn.
  assert (Hnull : Forall (eq JNull) vs).
  { clear -Hm Hnone. induction Hm as [| e v l vs He _ IH]; constructor.
    - destruct (Hnone e (or_introl eq_refl)); congruence.
    - apply IH. intros e' He'. apply Hnone. now right. }
  rewrite (sum_nulls vs Hnull). reflexivity.
Qed.


Section Stats.

Variable jq_parse : string -> parsed.
Variable several : list bool -> bool.
Variable tojson : json -> string.
Variable c : config.

(** On a file that holds one JSON value: the line jq printed, or the
    fallback when the program failed. *)
Lemma print_stats_one fs f v :
  fs !! OUTPUT_FILE c = Some f ->
  jq_read jq_parse f = {| values := [v]; complete := true |} ->
  print_stats jq_parse several tojson c fs
  = Some match stats_filter tojson v with
         | Some msg => Sh.substitution (msg ++ Text.nl)
         | None => "Unable to calculate statistics"
         end.
Proof.
  intros Hf Hr. unfold print_stats, jq_file. rewrite Hf, Hr.
  cbn [values complete map omap list_omap]. unfold id.
  destruct (stats_filter tojson v) as [msg |]; cbn.
  - now rewrite !append_empty_r.
  - reflexivity.
Qed.

Lemma stats_filter_nonempty l :
  l <> [] ->
  stats_filter tojson (JArr l) = stats_object (JArr l) ≫= stats_text tojson.
Proof.
  intros Hne. unfold stats_filter. cbn [Jq.length mbind option_bind].
  destruct (count_positive l Hne) as [_ Hlt]. now rewrite Hlt.
Qed.





Lemma stats_object_of_nothing l :
  (forall e, In e l ->
     Jq.path cpu_path e = None \/ Jq.path cpu_path e = Some JNull) ->
  stats_object (JArr l) = None.
Proof.
  intros Hnone. unfold stats_object.
  rewrite (average_of_nothing cpu_path l Hnone).
  destruct (Jq.field "timestamp" (default JNull (head l))); [| reflexivity].
  destruct (Jq.field "timestamp" (default JNull (last l))); reflexivity.
Qed.

End Stats.




(** Three entries with CPU usages 10, 20 and 30: the average is 20. *)
Example stats_of_10_20_30 :
  exists o,
    stats_object (JArr usages_10_20_30) = Some (JObj o)
    /\ Jq.assoc "avg_cpu" o = Some (JNum 20)
    /\ mean64 [Double.Finite 10; Double.Finite 20; Double.Finite 30]
       = Double.Finite 20.
Proof.
  eexists. split; [vm_compute; reflexivity |].
  split; vm_compute; reflexivity.
Qed.

(** The mean in binary64 is not always the arithmetic mean: for the numbers
    0.1 and 0.2 (the binary64 numbers nearest to them) it is
    0.15000000000000002, one unit in the last place above the binary64
    number nearest to 0.15, and it differs from the exact mean of the two
    numbers. *)
Example mean64_is_rounded :
  let x := (3602879701896397 # 36028797018963968)%Q in
  let y := (3602879701896397 # 18014398509481984)%Q in
  let m := (1351079888211149 # 9007199254740992)%Q in
  Double.round (1 # 10) = Double.Finite x
  /\ Double.round (2 # 10) = Double.Finite y
  /\ mean64 [Double.Finite x; Double.Finite y] = Double.Finite m
  /\ ~ (m == mean [x; y])%Q
  /\ Double.round (15 # 100) <> Double.Finite m.
Proof.
  cbv zeta. split; [vm_compute; reflexivity |].
  split; [vm_compute; reflexivity |].
  split; [vm_compute; reflexivity |].
  split.
  - intros H. vm_compute in H. discriminate H.
  - vm_compute. discriminate.
Qed.


(** ** Lines of columns: what [free] and [/proc/stat] print *)

Section Pieces.

Variable is_sep : ascii -> bool.
Hypothesis space_is_sep : is_sep " " = true.

Lemma pieces_not_nil s : Text.pieces is_sep s <> [].
Proof.
  destruct s as [| a s]; cbn; [discriminate |].
  destruct (is_sep a); [discriminate |].
  destruct (Text.pieces is_sep s); discriminate.
Qed.

Lemma pieces_word w rest :
  sep_free is_sep w = true ->
  Text.pieces is_sep (w ++ rest)
  = match Text.pieces is_sep rest with
    | [] => []
    | p :: ps => (w ++ p)%string :: ps
    end.
Proof.
  induction w as [| a w IH]; intros Hw.
  - change ("" ++ rest)%string with rest.
    now destruct (Text.pieces is_sep rest).
  - cbn in Hw. apply andb_prop in Hw as [Ha Hw].
    apply negb_true_iff in Ha.
    rewrite append_cons. cbn [Text.pieces]. rewrite Ha, (IH Hw).
    destruct (Text.pieces is_sep rest) as [| p ps] eqn:E; [| reflexivity].
    now destruct (pieces_not_nil rest).
Qed.

Lemma nonempty_append w s :
  Text.nonempty w = true -> Text.nonempty (w ++ s) = true.
Proof. now destruct w. Qed.

Lemma fields_word w rest :
  word is_sep w -> at_boundary is_sep rest ->
  List.filter Text.nonempty (Text.pieces is_sep (w ++ rest))
  = w :: List.filter Text.nonempty (Text.pieces is_sep rest).
Proof.
  intros [Hne Hfree] Hb. rewrite (pieces_word w rest Hfree).
  destruct rest as [| b rest]; cbn in *.
  - rewrite append_empty_r, Hne. reflexivity.
  - rewrite Hb. cbn. rewrite append_empty_r, Hne. reflexivity.
Qed.

Lemma fields_sep a rest :
  is_sep a = true ->
  List.filter Text.nonempty (Text.pieces is_sep (String a rest))
  = List.filter Text.nonempty (Text.pieces is_sep rest).
Proof. intros Ha. cbn. now rewrite Ha. Qed.

Lemma fields_spaces n rest :
  List.filter Text.nonempty (Text.pieces is_sep (spaces n ++ rest))
  = List.filter Text.nonempty (Text.pieces is_sep rest).
Proof.
  induction n as [| n IH]; [reflexivity |].
  cbn [spaces]. rewrite append_cons, fields_sep by exact space_is_sep.
  exact IH.
Qed.

Lemma fields_seps t :
  Text.all_chars is_sep t = true ->
  List.filter Text.nonempty (Text.pieces is_sep t) = [].
Proof.
  induction t as [| a t IH]; intros Ht; [reflexivity |].
  cbn in Ht. apply andb_prop in Ht as [Ha Ht].
  rewrite fields_sep by exact Ha. exact (IH Ht).
Qed.

Lemma columns_at_boundary cols trailing :
  Text.all_chars is_sep trailing = true ->
  at_boundary is_sep (columns cols ++ trailing).
Proof.
  intros Ht. destruct cols as [| [pad w] cs].
  - cbn. destruct trailing as [| a t]; cbn in *; [exact I |].
    now apply andb_prop in Ht as [Ha _].
  - cbn [columns spaces]. rewrite !append_cons. exact space_is_sep.
Qed.

Lemma fields_columns cols trailing :
  Forall (fun col => word is_sep (snd col)) cols ->
  Text.all_chars is_sep trailing = true ->
  List.filter Text.nonempty (Text.pieces is_sep (columns cols ++ trailing))
  = map snd cols.
Proof.
  intros Hcols Ht. induction Hcols as [| [pad w] cs Hw _ IH].
  - now apply fields_seps.
  - cbn [columns map snd]. rewrite !append_assoc, fields_spaces.
    rewrite fields_word;
      [| exact Hw | now apply columns_at_boundary].
    now rewrite IH.
Qed.

(** The fields of a line: a first word, columns, trailing separators. *)
Lemma fields_line w0 cols trailing :
  word is_sep w0 ->
  Forall (fun col => word is_sep (snd col)) cols ->
  Text.all_chars is_sep trailing = true ->
  List.filter Text.nonempty
    (Text.pieces is_sep (w0 ++ columns cols ++ trailing))
  = w0 :: map snd cols.
Proof.
  intros Hw0 Hcols Ht.
  rewrite fields_word;
    [| exact Hw0 | now apply columns_at_boundary].
  now rewrite fields_columns.
Qed.

End Pieces.

(** ** Decimal numbers in text *)

Lemma all_chars_impl (p q : ascii -> bool) s :
  (forall a, p a = true -> q a = true) ->
  Text.all_chars p s = true -> Text.all_chars q s = true.
Proof.
  intros Hpq. induction s as [| a s IH]; [reflexivity |]. cbn.
  intros H. apply andb_prop in H as [Ha Hs].
  now rewrite (Hpq a Ha), (IH Hs).
Qed.

Lemma uint_all_digits d :
  Text.all_chars Num.is_digit (NilEmpty.string_of_uint d) = true.
Proof. induction d; cbn; auto. Qed.

Lemma dec_all_digits n : Text.all_chars Num.is_digit (Num.dec n) = true.
Proof.
  unfold Num.dec, NilZero.string_of_uint.
  destruct (N.to_uint n) eqn:E; try (rewrite <- E; apply uint_all_digits);
    try reflexivity; apply (uint_all_digits (_ _)).
Qed.

Lemma dec_nonempty n : Text.nonempty (Num.dec n) = true.
Proof. destruct (dec_starts_with_digit n) as (a & s & -> & _). reflexivity. Qed.

Lemma read_uint_dec n : Num.read_uint (Num.dec n) = Some n.
Proof.
  unfold Num.read_uint, Num.dec.
  pose proof (DecimalN.Unsigned.of_to n) as Hn.
  destruct (N.to_uint n) as [| d | d | d | d | d | d | d | d | d | d] eqn:E.
  1: { cbn. now rewrite <- Hn. }
  all: rewrite NilZero.usu by discriminate; cbn [fmap option_fmap option_map];
    now rewrite Hn.
Qed.

Lemma take_while_all p s :
  Text.all_chars p s = true -> Num.take_while p s = s.
Proof.
  induction s as [| a s IH]; [reflexivity |]. cbn.
  intros H. apply andb_prop in H as [Ha Hs]. now rewrite Ha, (IH Hs).
Qed.

Lemma awk_num_dec n : Awk.num (Num.dec n) = Num.of_N n.
Proof.
  unfold Awk.num.
  now rewrite (take_while_all _ _ (dec_all_digits n)), read_uint_dec.
Qed.

Lemma digit_not_blank a : Num.is_digit a = true -> negb (Num.is_blank a) = true.
Proof.
  destruct a as [[] [] [] [] [] [] [] []]; vm_compute; intros H;
    try reflexivity; discriminate H.
Qed.

Lemma digit_not_ws a : Num.is_digit a = true -> negb (Num.is_ws a) = true.
Proof.
  destruct a as [[] [] [] [] [] [] [] []]; vm_compute; intros H;
    try reflexivity; discriminate H.
Qed.

Lemma digit_not_space a :
  Num.is_digit a = true -> negb (Ascii.eqb " " a) = true.
Proof.
  destruct a as [[] [] [] [] [] [] [] []]; vm_compute; intros H;
    try reflexivity; discriminate H.
Qed.

Lemma drop_trailing_word p w t :
  Text.all_chars (fun a => negb (p a)) w = true ->
  Text.all_chars p t = true ->
  Num.drop_trailing p (w ++ t) = w.
Proof.
  intros Hw Ht. induction w as [| a w IH].
  - now apply drop_trailing_all.
  - cbn in Hw. apply andb_prop in Hw as [Ha Hw].
    apply negb_true_iff in Ha.
    rewrite append_cons. cbn [Num.drop_trailing]. rewrite (IH Hw), Ha.
    now destruct w.
Qed.

(** Until jq 1.7 [tonumber] reads a column of digits with or without the
    newline that ends the line. *)
Lemma tonumber_dec n t :
  Text.all_chars Num.is_ws t = true ->
  Jq.tonumber false (JStr (Num.dec n ++ t)) = Some (JNum (Num.of_N n)).
Proof.
  intros Ht. unfold Jq.tonumber, Num.trim.
  assert (Hd : Num.drop_while Num.is_ws (Num.dec n ++ t)%string
               = (Num.dec n ++ t)%string).
  { destruct (dec_starts_with_digit n) as (a & s & -> & Ha).
    rewrite append_cons. cbn.
    apply digit_not_ws, negb_true_iff in Ha. now rewrite Ha. }
  rewrite Hd, drop_trailing_word, read_uint_dec; [reflexivity | | exact Ht].
  eapply all_chars_impl; [| apply dec_all_digits]. apply digit_not_ws.
Qed.

(** Digits alone are read by every jq. *)
Lemma tonumber_digits strict n :
  Jq.tonumber strict (JStr (Num.dec n)) = Some (JNum (Num.of_N n)).
Proof.
  destruct strict.
  - unfold Jq.tonumber. now rewrite read_uint_dec.
  - rewrite <- (append_empty_r (Num.dec n)). now apply tonumber_dec.
Qed.

Lemma uint_of_string_newline s :
  NilEmpty.uint_of_string (s ++ Text.nl) = None.
Proof.
  induction s as [| a s IH]; [reflexivity |].
  rewrite append_cons. cbn [NilEmpty.uint_of_string]. now rewrite IH.
Qed.

(** Since jq 1.8 [tonumber] rejects a column that still carries the
    newline of its line. *)
Lemma tonumber_strict_newline s :
  Jq.tonumber true (JStr (s ++ Text.nl)) = None.
Proof.
  unfold Jq.tonumber, Num.read_uint, NilZero.uint_of_string.
  destruct (s ++ Text.nl)%string eqn:E.
  - now destruct s.
  - rewrite <- E, uint_of_string_newline. reflexivity.
Qed.

Lemma dec_is_word is_sep n t :
  (forall a, Num.is_digit a = true -> negb (is_sep a) = true) ->
  sep_free is_sep t = true ->
  word is_sep (Num.dec n ++ t).
Proof.
  intros Hsep Ht. split.
  - apply nonempty_append, dec_nonempty.
  - unfold sep_free in *.
    assert (Hd : Text.all_chars (fun a => negb (is_sep a)) (Num.dec n) = true).
    { eapply all_chars_impl; [| apply dec_all_digits]. exact Hsep. }
    revert Hd. generalize (Num.dec n) as w.
    induction w as [| a w IH]; [intros _; exact Ht |].
    cbn. intros H. apply andb_prop in H as [Ha Hw].
    rewrite append_cons. cbn. now rewrite Ha, (IH Hw).
Qed.

Lemma dec_word is_sep n :
  (forall a, Num.is_digit a = true -> negb (is_sep a) = true) ->
  word is_sep (Num.dec n).
Proof.
  intros Hsep. rewrite <- (append_empty_r (Num.dec n)).
  now apply dec_is_word.
Qed.


(** Below [2^53] a counter is a binary64 number. *)
Lemma of_N_exact n :
  (Z.of_N n <= 2 ^ 53)%Z -> Num.of_N n = Double.Finite (inject_Z (Z.of_N n)).
Proof. intros Hn. apply DoubleFacts.round_Z. lia. Qed.

(** ** Memory *)

Lemma free_line_fields r pad :
  List.filter Text.nonempty (Text.split " " (free_line r pad))
  = ["Mem:"; Num.dec (mem_total r); Num.dec (mem_used r);
     Num.dec (mem_free r); Num.dec (mem_shared r); Num.dec (mem_cache r);
     (Num.dec (mem_available r) ++ Text.nl)%string].
Proof.
  assert (Hline : free_line r pad
    = ("Mem:"
       ++ columns [(pad 1%nat, Num.dec (mem_total r));
                   (pad 2%nat, Num.dec (mem_used r));
                   (pad 3%nat, Num.dec (mem_free r));
                   (pad 4%nat, Num.dec (mem_shared r));
                   (pad 5%nat, Num.dec (mem_cache r));
                   (pad 6%nat, (Num.dec (mem_available r) ++ Text.nl)%string)]
       ++ "")%string).
  { unfold free_line. cbn [columns].
    rewrite !append_assoc, !append_empty_r. reflexivity. }
  rewrite Hline. clear Hline.
  assert (Hsplit : forall s, Text.split " " ("Mem:" ++ s)
                             = Text.pieces (Ascii.eqb " ") ("Mem:" ++ s)).
  { reflexivity. }
  rewrite Hsplit, (fields_line (Ascii.eqb " ")); try reflexivity.
  - split; reflexivity.
  - repeat lazymatch goal with
           | |- Forall _ _ => constructor
           end; cbn [snd];
      try (apply dec_word, digit_not_space).
    apply dec_is_word; [apply digit_not_space | reflexivity].
Qed.




(** A third of the memory in use: 33.33333333333333, below the exact
    value. *)
Example memory_usage_of_a_third :
  Double.mul (Double.div (Num.of_N 1) (Num.of_N 3)) (Double.Finite 100)
  = Double.Finite (2345624805922133 # 70368744177664)
  /\ (2345624805922133 # 70368744177664 < 100 # 3)%Q.
Proof. split; [vm_compute; reflexivity | reflexivity]. Qed.

(** ** [printf "%.2f"] *)

Lemma digit_is_digit d :
  (0 <= d < 10)%Z -> Num.is_digit (ascii_of_N (48 + Z.to_N d)) = true.
Proof.
  intros Hd.
  assert (H : (d = 0 \/ d = 1 \/ d = 2 \/ d = 3 \/ d = 4 \/ d = 5 \/ d = 6
               \/ d = 7 \/ d = 8 \/ d = 9)%Z) by lia.
  repeat (destruct H as [-> | H]; [reflexivity |]). now subst.
Qed.

Lemma hundredths_text_two_decimals h : two_decimals (hundredths_text h).
Proof.
  unfold hundredths_text, two_decimals.
  exists "", (Num.dec (Z.to_N (h / 100))). eexists _, _.
  split; [reflexivity |].
  split; [now left |].
  split; [apply dec_nonempty |].
  split; [apply dec_all_digits |].
  split; apply digit_is_digit.
  - pose proof (Z.mod_pos_bound h 100 ltac:(lia)).
    split; [apply Z.div_pos; lia | apply Z.div_lt_upper_bound; lia].
  - apply Z.mod_pos_bound. lia.
Qed.

(** The text of a value that is not negative has no sign. *)
Lemma fixed2_nonneg u :
  (0 <= u)%Q -> Num.fixed2 u = hundredths_text (Num.hundredths u).
Proof.
  intros Hu. unfold Num.fixed2, hundredths_text, Num.digit_char.
  destruct (Qlt_le_dec u 0) as [Hlt | _]; [lra | reflexivity].
Qed.

Lemma hundredths_nonneg u :
  (0 <= u)%Q -> Num.hundredths u = Double.round_half_even (u * 100).
Proof.
  intros Hu. unfold Num.hundredths.
  apply DoubleFacts.round_half_even_comp. now rewrite (Qabs_pos u Hu).
Qed.

(** The number printed is the value rounded to hundredths. *)
Lemma hundredths_close u :
  (0 <= u)%Q ->
  (Qabs (inject_Z (Num.hundredths u) / 100 - u) <= 1 # 200)%Q.
Proof.
  intros Hu. rewrite (hundredths_nonneg u Hu).
  pose proof (DoubleFacts.round_half_even_close (u * 100)) as H.
  apply Qabs_Qle_condition in H. apply Qabs_Qle_condition.
  set (h := inject_Z (Double.round_half_even (u * 100))) in *.
  unfold Qdiv. change (/ 100)%Q with (1 # 100)%Q.
  lra.
Qed.

Lemma hundredths_bounds u :
  (0 <= u)%Q -> (u <= 100)%Q -> (0 <= Num.hundredths u <= 10000)%Z.
Proof.
  intros H0 H100. rewrite (hundredths_nonneg u H0). split.
  - apply DoubleFacts.round_half_even_ge. change (inject_Z 0) with 0%Q. lra.
  - apply DoubleFacts.round_half_even_le.
    change (inject_Z 10000) with 10000%Q. lra.
Qed.

(** ** CPU *)

Lemma stat_line_fields t more :
  Awk.fields (stat_line t more)
  = "cpu" :: Num.dec (user t) :: Num.dec (nice t) :: Num.dec (system t)
    :: Num.dec (idle t) :: Num.dec (iowait t) :: Num.dec (irq t)
    :: Num.dec (softirq t) :: map Num.dec more.
Proof.
  unfold Awk.fields, stat_line.
  rewrite (fields_line Num.is_blank); try reflexivity.
  - cbn [map snd]. repeat f_equal.
    rewrite map_map. reflexivity.
  - split; reflexivity.
  - repeat lazymatch goal with
           | |- Forall _ (_ :: _) => constructor
           end; cbn [snd];
      try (apply dec_word, digit_not_blank).
    apply Forall_map, Forall_forall. intros n _. cbn [snd].
    apply dec_word, digit_not_blank.
Qed.

Section Cpu.

Variable t : cpu_times.
Hypothesis positive : (0 < total_time t)%N.
Hypothesis small : small_counters t.

(** The quotient the awk program subtracts from 100. *)
Let x : Q :=
  (inject_Z (Z.of_N (idle t)) * 100 / inject_Z (Z.of_N (total_time t)))%Q.

Lemma total_positive : (0 < inject_Z (Z.of_N (total_time t)))%Q.
Proof. change 0%Q with (inject_Z 0). rewrite <- Zlt_Qlt. lia. Qed.

Lemma quotient_bounds : (0 <= x)%Q /\ (x <= 100)%Q.
Proof.
  pose proof total_positive as Ht.
  assert (Hi : (0 <= inject_Z (Z.of_N (idle t)))%Q)
    by (change 0%Q with (inject_Z 0); rewrite <- Zle_Qle; lia).
  assert (Hle : (inject_Z (Z.of_N (idle t))
                 <= inject_Z (Z.of_N (total_time t)))%Q)
    by (rewrite <- Zle_Qle; unfold total_time; lia).
  unfold x. split.
  - apply Qle_shift_div_l; [exact Ht | lra].
  - apply Qle_shift_div_r; [exact Ht | lra].
Qed.

(** The sum of the seven counters is exact. *)
Lemma total_exact :
  fold_left Double.add
    [Num.of_N (nice t); Num.of_N (system t); Num.of_N (idle t);
     Num.of_N (iowait t); Num.of_N (irq t); Num.of_N (softirq t)]
    (Num.of_N (user t))
  = Double.Finite (inject_Z (Z.of_N (total_time t))).
Proof.
  unfold small_counters in small.
  assert (Ht : Z.of_N (total_time t)
               = (Z.of_N (user t) + Z.of_N (nice t) + Z.of_N (system t)
                  + Z.of_N (idle t) + Z.of_N (iowait t) + Z.of_N (irq t)
                  + Z.of_N (softirq t))%Z)
    by (unfold total_time; lia).
  rewrite !of_N_exact by lia.
  cbn [fold_left].
  rewrite !DoubleFacts.add_Z by lia.
  now rewrite Ht.
Qed.

Lemma cpu_usage_small more :
  cpu_usage (stat_line t more)
  = text ← Num.printf_2f (usage_of t);
    Some ("{" ++ Text.dq ++ "usage_percent" ++ Text.dq ++ ": "
          ++ text ++ "}")%string.
Proof.
  unfold cpu_usage. rewrite stat_line_fields.
  cbn [Awk.field nth_error pred default]. unfold id.
  rewrite !awk_num_dec, total_exact.
  assert (Hidle : Double.mul (Num.of_N (idle t)) (Double.Finite 100)
                  = Double.Finite (inject_Z (Z.of_N (idle t) * 100))).
  { unfold small_counters, total_time in small.
    rewrite of_N_exact by lia.
    change (Double.Finite 100) with (Double.Finite (inject_Z 100)).
    apply DoubleFacts.mul_Z. lia. }
  rewrite Hidle. unfold Awk.div.
  assert (Hz : Double.is_zero
                 (Double.Finite (inject_Z (Z.of_N (total_time t)))) = false)
    by (apply (DoubleFacts.of_Z_positive_exact (Z.of_N (total_time t))); lia).
  rewrite Hz. cbn [mbind option_bind Double.div].
  cbn [Double.is_zero] in Hz. rewrite Hz.
  rewrite (DoubleFacts.round_comp _ x)
    by (unfold x; rewrite inject_Z_mult; reflexivity).
  reflexivity.
Qed.

(** The usage is a number between 0 and 100, within [2^-46] of the exact
    value of the formula. *)
Lemma usage_of_close :
  exists u,
    usage_of t = Double.Finite u
    /\ (0 <= u)%Q /\ (u <= 100)%Q
    /\ (Qabs (u - exact_usage t) <= Double.pow2 (-46))%Q.
Proof.
  destruct quotient_bounds as [H0 H100].
  destruct (DoubleFacts.round_between x 100 H0 H100 ltac:(lia))
    as (r & Hr & Hr0 & Hr100).
  change (inject_Z 100) with 100%Q in Hr100.
  destruct (DoubleFacts.round_between (100 + - r) 100)
    as (u & Hu & Hu0 & Hu100);
    [lra | change (inject_Z 100) with 100%Q; lra | lia |].
  change (inject_Z 100) with 100%Q in Hu100.
  exists u. unfold usage_of. fold x. rewrite Hr.
  split; [exact Hu |]. split; [exact Hu0 |]. split; [exact Hu100 |].
  assert (H128 : (100 < Double.pow2 (6 + 1))%Q) by reflexivity.
  pose proof (DoubleFacts.round_error_nonneg x 6 r H0 ltac:(lra)
                ltac:(lia) Hr) as Hex.
  pose proof (DoubleFacts.round_error_nonneg (100 + - r) 6 u ltac:(lra)
                ltac:(lra) ltac:(lia) Hu) as Heu.
  assert (H46 : (Double.pow2 (-46) == 2 * Double.pow2 (6 - 53))%Q)
    by (vm_compute; reflexivity).
  rewrite H46. set (e := Double.pow2 (6 - 53)) in *.
  change (exact_usage t) with (100 - x)%Q.
  apply Qabs_Qle_condition in Hex as [? ?].
  apply Qabs_Qle_condition in Heu as [? ?].
  apply Qabs_Qle_condition. split; lra.
Qed.

End Cpu.

(** C5, as the script has it.  For one [cpu] line of [/proc/stat] whose
    seven counters have a positive sum (below [2^53 / 100], so that awk's
    sum and product are exact), the awk program computes
    [100 - idle * 100 / (user + nice + system + idle + iowait + irq +
    softirq)] from that line alone in binary64: the quotient is rounded,
    then the difference, which leaves a number [u] between 0 and 100 within
    [2^-46] of the exact value of the formula.  ["%.2f"] prints [u] with
    exactly two decimal places and no sign: the number of hundredths
    printed is the one nearest to [u], ties to even. *)
Theorem cpu_usage_single_snapshot (t : cpu_times) (more : list N) :
  (0 < total_time t)%N ->
  small_counters t ->
  exists (u : Q) (h : Z),
    usage_of t = Double.Finite u
    /\ (0 <= u)%Q /\ (u <= 100)%Q
    /\ (Qabs (u - exact_usage t) <= Double.pow2 (-46))%Q
    /\ h = Double.round_half_even (u * 100)
    /\ (0 <= h <= 10000)%Z
    /\ (Qabs (inject_Z h / 100 - u) <= 1 # 200)%Q
    /\ cpu_usage (stat_line t more)
       = Some ("{" ++ Text.dq ++ "usage_percent" ++ Text.dq ++ ": "
               ++ hundredths_text h ++ "}")%string
    /\ two_decimals (hundredths_text h).
Proof.
  intros Ht Hs.
  destruct (usage_of_close t Ht) as (u & Hu & Hu0 & Hu100 & Hclose).
  exists u, (Num.hundredths u).
  split; [exact Hu |]. split; [exact Hu0 |]. split; [exact Hu100 |].
  split; [exact Hclose |].
  split; [now apply hundredths_nonneg |].
  split; [now apply hundredths_bounds |].
  split; [now apply hundredths_close |].
  split; [| apply hundredths_text_two_decimals].
  rewrite (cpu_usage_small t Ht Hs more), Hu.
  cbn [Num.printf_2f mbind option_bind].
  now rewrite (fixed2_nonneg u Hu0).
Qed.

Lemma cpu_usage_single_snapshot_witness :
  (0 < total_time sample_times)%N
  /\ small_counters sample_times
  /\ exists (u : Q) (h : Z),
       usage_of sample_times = Double.Finite u
       /\ (0 <= u)%Q /\ (u <= 100)%Q
       /\ (Qabs (u - exact_usage sample_times) <= Double.pow2 (-46))%Q
       /\ h = Double.round_half_even (u * 100)
       /\ (0 <= h <= 10000)%Z
       /\ (Qabs (inject_Z h / 100 - u) <= 1 # 200)%Q
       /\ cpu_usage (stat_line sample_times [0; 0; 0]%N)
          = Some ("{" ++ Text.dq ++ "usage_percent" ++ Text.dq ++ ": "
                  ++ hundredths_text h ++ "}")%string
       /\ two_decimals (hundredths_text h).
Proof.
  split; [reflexivity |]. split; [reflexivity |].
  apply (cpu_usage_single_snapshot sample_times [0; 0; 0]%N);
    reflexivity.
Defined.

(** The sample line gives 9.10. *)
Example cpu_usage_sample :
  cpu_usage "cpu  74608 2520 24433 1117073 6176 4054 0 0 0 0"
  = Some ("{" ++ Text.dq ++ "usage_percent" ++ Text.dq ++ ": 9.10}")%string.
Proof. vm_compute. reflexivity. Qed.

(** With 5 idle ticks out of 20000 the exact usage is 99.975; the binary64
    number computed is just below it, and 99.97 is printed. *)
Example cpu_usage_below_a_tie :
  cpu_usage "cpu  0 0 19995 5 0 0 0 0 0 0"
  = Some ("{" ++ Text.dq ++ "usage_percent" ++ Text.dq ++ ": 99.97}")%string.
Proof. vm_compute. reflexivity. Qed.

(** C5 as stated fails on the rounding: the text printed is not always the
    exact value of the formula with two decimal places.  For the counters
    below, the exact usage lies strictly between 37.665 and 37.675, so with
    two decimal places it is 37.67; the binary64 number the awk program
    computes lies below 37.665 and 37.66 is printed. *)
Lemma cpu_usage_double_rounding :
  (0 < total_time unlucky_times)%N
  /\ small_counters unlucky_times
  /\ cpu_usage (stat_line unlucky_times [])
     = Some ("{" ++ Text.dq ++ "usage_percent" ++ Text.dq ++ ": 37.66}")%string
  /\ (37665 # 1000 < exact_usage unlucky_times)%Q
  /\ (exact_usage unlucky_times < 37675 # 1000)%Q.
Proof.
  split; [reflexivity |]. split; [reflexivity |].
  split; [vm_compute; reflexivity |].
  split; reflexivity.
Qed.

(** * Further properties *)

(** ** The argument loop *)

Lemma parse_args_options ps : forall rest c,
  forallb (fun p => takes_value (fst p)) ps = true ->
  parse_args (option_words ps ++ rest) c = parse_args rest (configure ps c).
Proof.
  induction ps as [| [o v] ps IH]; intros rest c Hps; [reflexivity |].
  cbn in Hps. apply andb_prop in Hps as [Ho Hps].
  unfold option_words. cbn [flat_map fst snd List.app].
  change (flat_map _ ps) with (option_words ps).
  cbn [parse_args]. unfold takes_value in Ho.
  unfold configure. cbn [fold_left fst snd].
  destruct (classify o); try discriminate Ho; apply (IH rest _ Hps).
Qed.

Lemma same_kind_eq k k' : same_kind k k' = true <-> k = k'.
Proof. destruct k, k'; cbn; split; intros H; congruence. Qed.

Lemma variable_assign_same k v c :
  k <> OHelp -> k <> OUnknown -> variable k (assign k v c) = v.
Proof. destruct k; intros; try reflexivity; congruence. Qed.

Lemma variable_assign_other k k' v c :
  k <> k' -> variable k (assign k' v c) = variable k c.
Proof. destruct k, k'; intros; try reflexivity; congruence. Qed.

Lemma variable_configure k ps : forall c,
  k <> OHelp -> k <> OUnknown ->
  variable k (configure ps c) = default (variable k c) (last (values_of k ps)).
Proof.
  intros c Hh Hu. revert c.
  induction ps as [| [o v] ps IH]; intros c; [reflexivity |].
  unfold configure. cbn [fold_left fst snd].
  change (fold_left _ ps ?c0) with (configure ps c0).
  rewrite IH. unfold values_of. cbn [List.filter fst].
  destruct (same_kind (classify o) k) eqn:E.
  - apply same_kind_eq in E. rewrite E. cbn [map snd].
    change (map snd (List.filter _ ps)) with (values_of k ps).
    rewrite variable_assign_same by assumption.
    rewrite last_cons. now destruct (last (values_of k ps)).
  - change (map snd (List.filter _ ps)) with (values_of k ps).
    rewrite variable_assign_other; [reflexivity |].
    intros ->. rewrite (proj2 (same_kind_eq _ _) eq_refl) in E. discriminate.
Qed.

(** X1.  On a command line made of options that take a value, each with
    its value, the argument loop falls through to the rest of the script,
    and each of the six variables holds the value of the last option that
    names it, or what it held before when no option names it.  A value is
    never read as an option, whatever its text. *)
Theorem parse_args_last_wins (ps : list (string * string)) (c : config) :
  forallb (fun p => takes_value (fst p)) ps = true ->
  exists c',
    parse_args (option_words ps) c = Run c'
    /\ forall k, k <> OHelp -> k <> OUnknown ->
         variable k c' = default (variable k c) (last (values_of k ps)).
Proof.
  intros Hps. exists (configure ps c). split.
  - rewrite <- (List.app_nil_r (option_words ps)).
    now rewrite parse_args_options.
  - intros k Hh Hu. now apply variable_configure.
Qed.

Lemma parse_args_last_wins_witness :
  exists c',
    parse_args (option_words [("-m", "full"); ("--repos", "--help");
                              ("--mode", "extended")]) defaults
    = Run c'
    /\ forall k, k <> OHelp -> k <> OUnknown ->
         variable k c'
         = default (variable k defaults)
             (last (values_of k [("-m", "full"); ("--repos", "--help");
                                 ("--mode", "extended")])).
Proof.
  exact (parse_args_last_wins
           [("-m", "full"); ("--repos", "--help"); ("--mode", "extended")]
           defaults eq_refl).
Defined.

Lemma one_of_In w l : Text.one_of w l = true -> In w l.
Proof.
  unfold Text.one_of. rewrite existsb_exists. intros (x & Hx & He).
  apply String.eqb_eq in He. now subst.
Qed.

Lemma classify_help w :
  Text.one_of w ["-h"; "--help"] = true -> classify w = OHelp.
Proof.
  intros H. apply one_of_In in H. destruct H as [<- | [<- | []]]; reflexivity.
Qed.

Lemma classify_not_help w :
  Text.one_of w ["-h"; "--help"] = false -> classify w <> OHelp.
Proof.
  intros H. unfold classify. rewrite H.
  repeat destruct (Text.one_of w _); discriminate.
Qed.

(** X2.  After any number of options with their values, a last word that
    has no value after it never starts the monitor: the script exits with
    status 0 when the word is [-h] or [--help] and with status 1 otherwise
    (an unknown option, or an option whose value is missing).  The help
    option and an unknown option stop the script whatever follows them. *)
Theorem parse_args_stops (ps : list (string * string)) (w : string)
  (rest : list string) (c : config) :
  forallb (fun p => takes_value (fst p)) ps = true ->
  parse_args (option_words ps ++ [w]) c
  = Exit (if Text.one_of w ["-h"; "--help"] then 0 else 1)
  /\ (takes_value w = false ->
      parse_args (option_words ps ++ w :: rest) c
      = Exit (if Text.one_of w ["-h"; "--help"] then 0 else 1)).
Proof.
  intros Hps. rewrite !parse_args_options by exact Hps.
  cbn [parse_args]. unfold takes_value.
  destruct (Text.one_of w ["-h"; "--help"]) eqn:E.
  - rewrite (classify_help w E). auto.
  - pose proof (classify_not_help w E) as Hn.
    destruct (classify w); try congruence; split; auto; discriminate.
Qed.

Lemma parse_args_stops_witness :
  parse_args ["-m"; "full"; "--output"] defaults = Exit 1
  /\ parse_args ["-m"; "full"; "-h"; "-o"; "x.json"] defaults = Exit 0
  /\ parse_args ["-m"; "full"; "--job-uuid"; "1234"] defaults = Exit 1.
Proof.
  split; [| split].
  - exact (proj1 (parse_args_stops [("-m", "full")] "--output" []
                    defaults eq_refl)).
  - exact (proj2 (parse_args_stops [("-m", "full")] "-h" ["-o"; "x.json"]
                    defaults eq_refl) eq_refl).
  - exact (proj2 (parse_args_stops [("-m", "full")] "--job-uuid" ["1234"]
                    defaults eq_refl) eq_refl).
Defined.

(** ** The launcher and the script *)

(** The argument list that [run] builds goes through the argument loop,
    whatever the inputs and the environment are. *)
Lemma launcher_args_accepted (getInput : string -> string)
  (e : Launcher.env) :
  parse_args (Launcher.args getInput e) defaults
  = Run {| OUTPUT_FILE := Launcher.outputFile e;
           MODE := InputParser.or_string (getInput "mode") "minimal";
           USER_LOGIN := Launcher.or_env (e "GITHUB_ACTOR") "github-action";
           GITHUB_REPOS := Launcher.or_env (e "GITHUB_REPOSITORY") "";
           UPDATE_INTERVAL := InputParser.or_string (getInput "interval") "1";
           MAX_ENTRIES := "1440" |}.
Proof. reflexivity. Qed.

(** The argument list of the [run] that saves state for the post step
    ends with [--job-uuid] and an identifier, and the argument loop has no
    such option: the script prints its help and exits with status 1. *)
Lemma launcher_job_uuid_rejected (getInput : string -> string)
  (e : Launcher.env) (jobUuid : string) (c : config) :
  parse_args (Launcher.args_job_uuid getInput e jobUuid) c = Exit 1.
Proof. reflexivity. Qed.

Lemma not_a_mode m :
  is_mode m = false -> m <> "minimal" /\ m <> "extended" /\ m <> "full".
Proof.
  unfold is_mode, modes. cbn [existsb]. intros H.
  apply orb_false_elim in H as [H1 H].
  apply orb_false_elim in H as [H2 H].
  apply orb_false_elim in H as [H3 _].
  apply String.eqb_neq in H1, H2, H3. auto.
Qed.

(** X3.  The [run] that executes the script and waits for it does not go
    through [parseInputs]: a mode input that is not empty and is none of
    minimal, extended and full, which [parseInputs] replaces by minimal,
    reaches the script as it is, and the entries the script then collects
    have no system key. *)
Theorem launched_mode_is_not_validated (m interval : string)
  (e : Launcher.env) (h : host) :
  m <> "" ->
  is_mode m = false ->
  exists c entry,
    parse_args (Launcher.args (inputs m interval) e) defaults = Run c
    /\ MODE c = m
    /\ InputParser.mode (InputParser.parseInputs (inputs m interval))
       = "minimal"
    /\ collect_entry c h = Some (JObj entry)
    /\ Jq.assoc "system" entry = None.
Proof.
  intros Hne Hm. destruct (not_a_mode m Hm) as (H1 & H2 & H3).
  assert (Hor : InputParser.or_string m "minimal" = m)
    by (destruct m; [contradiction | reflexivity]).
  eexists. eexists. split; [reflexivity |].
  change (inputs m interval "mode") with m. cbn [MODE].
  split; [exact Hor |]. split.
  - unfold InputParser.parseInputs. cbn [InputParser.mode].
    change (inputs m interval "mode") with m. rewrite Hor.
    fold modes. fold (is_mode m). now rewrite Hm.
  - split.
    + apply collect_entry_other; cbn [MODE]; now rewrite Hor.
    + reflexivity.
Qed.

Lemma launched_mode_is_not_validated_witness :
  exists c entry,
    parse_args (Launcher.args (inputs "turbo" "5") sample_env) defaults
    = Run c
    /\ MODE c = "turbo"
    /\ InputParser.mode (InputParser.parseInputs (inputs "turbo" "5"))
       = "minimal"
    /\ collect_entry c sample_host = Some (JObj entry)
    /\ Jq.assoc "system" entry = None.
Proof.
  apply (launched_mode_is_not_validated "turbo" "5" sample_env sample_host).
  - discriminate.
  - reflexivity.
Defined.

(** ** Repositories *)

Lemma list_ascii_app s t :
  list_ascii_of_string (s ++ t)
  = list_ascii_of_string s ++ list_ascii_of_string t.
Proof.
  induction s as [| a s IH]; [reflexivity |].
  rewrite append_cons. cbn. now rewrite IH.
Qed.

Lemma rev_snoc s a : Text.rev (s ++ String a "") = String a (Text.rev s).
Proof.
  unfold Text.rev. rewrite list_ascii_app, List.rev_app_distr. reflexivity.
Qed.

Lemma text_rev_involutive s : Text.rev (Text.rev s) = s.
Proof.
  unfold Text.rev. rewrite list_ascii_of_string_of_list_ascii.
  rewrite List.rev_involutive. apply string_of_list_ascii_of_string.
Qed.

(** [rtrimstr(" ")] leaves alone what does not end with a space. *)
Lemma rtrimstr_no_space s a :
  Ascii.eqb " " a = false ->
  Text.rtrimstr " " (s ++ String a "") = (s ++ String a "")%string.
Proof.
  intros Ha. unfold Text.rtrimstr. rewrite rev_snoc.
  change (Text.rev " ") with " ". cbn [Text.strip_prefix].
  now rewrite Ha.
Qed.

(** [rtrimstr] removes a last character it is asked to remove. *)
Lemma rtrimstr_last s a :
  Text.rtrimstr (String a "") (s ++ String a "") = s.
Proof.
  unfold Text.rtrimstr. rewrite rev_snoc.
  change (Text.rev (String a "")) with (String a "").
  cbn [Text.strip_prefix]. rewrite Ascii.eqb_refl. apply text_rev_involutive.
Qed.

Lemma ltrimstr_nl t :
  Text.ltrimstr " " (t ++ Text.nl) = (Text.ltrimstr " " t ++ Text.nl)%string.
Proof.
  destruct t as [| a t]; [reflexivity |].
  rewrite append_cons. unfold Text.ltrimstr. cbn [Text.strip_prefix].
  destruct (Ascii.eqb " " a); reflexivity.
Qed.

Lemma trim_keeps_the_newline t :
  Text.rtrimstr " " (Text.ltrimstr " " (t ++ Text.nl))
  = (Text.ltrimstr " " t ++ Text.nl)%string.
Proof. rewrite ltrimstr_nl. now apply rtrimstr_no_space. Qed.

Lemma pieces_sep_free is_sep t :
  sep_free is_sep t = true -> Text.pieces is_sep t = [t].
Proof.
  intros Ht. rewrite <- (append_empty_r t) at 1.
  rewrite (pieces_word is_sep t "" Ht). cbn. now rewrite append_empty_r.
Qed.

(** Text without separator appended to a string goes to its last piece. *)
Lemma pieces_snoc is_sep t s :
  sep_free is_sep t = true ->
  exists init last,
    Text.pieces is_sep s = init ++ [last]
    /\ Text.pieces is_sep (s ++ t) = init ++ [(last ++ t)%string].
Proof.
  intros Ht. induction s as [| a s (init & last & Hs & Hst)].
  - exists [], "". split; [reflexivity |]. now apply pieces_sep_free.
  - rewrite append_cons. cbn [Text.pieces]. rewrite Hs, Hst.
    destruct (is_sep a).
    + exists ("" :: init), last. split; reflexivity.
    + destruct init as [| i init].
      * exists [], (String a last). split; reflexivity.
      * exists (String a i :: init), last. split; reflexivity.
Qed.

Lemma filter_snoc {A : Type} (p : A -> bool) l x :
  p x = true -> List.filter p (l ++ [x]) = List.filter p l ++ [x].
Proof. intros Hx. rewrite List.filter_app. cbn. now rewrite Hx. Qed.

Lemma nonempty_snoc t a : Text.nonempty (t ++ String a "") = true.
Proof. now destruct t. Qed.

Lemma all_chars_append p w t :
  Text.all_chars p w = true -> Text.all_chars p t = true ->
  Text.all_chars p (w ++ t) = true.
Proof.
  intros Hw Ht. induction w as [| a w IH]; [exact Ht |].
  cbn in Hw. apply andb_prop in Hw as [Ha Hw].
  rewrite append_cons. cbn [Text.all_chars]. now rewrite Ha, (IH Hw).
Qed.

(** X4.  For every repository argument that is not empty and does not
    start with a dash, [parse_repos_to_json] returns at least one
    repository, no name is empty, and the name of the last repository ends
    with a newline: the one [echo] adds, which [jq -Rs] reads as part of
    the text and which neither trim removes. *)
Theorem parse_repos_last_name_ends_with_newline (a : ascii) (s : string) :
  a <> "-"%char ->
  exists names name,
    parse_repos_to_json (String a s)
    = JArr (map repo_object (names ++ [(name ++ Text.nl)%string]))
    /\ Forall (fun t => Text.nonempty t = true) names.
Proof.
  intros Ha. unfold parse_repos_to_json, repos_filter.
  rewrite (echo_no_dash a s Ha).
  destruct (pieces_snoc (Ascii.eqb ",") Text.nl (String a s) eq_refl)
    as (init & last & _ & Hp).
  assert (Hsplit : Text.split "," (String a s ++ Text.nl)
                   = Text.pieces (Ascii.eqb ",") (String a s ++ Text.nl)).
  { reflexivity. }
  rewrite Hsplit, Hp, List.map_app. cbn [map].
  rewrite trim_keeps_the_newline, filter_snoc by apply nonempty_snoc.
  eexists _, _. split; [reflexivity |].
  apply List.Forall_forall. intros t Ht. now apply filter_In in Ht.
Qed.

Lemma parse_repos_last_name_ends_with_newline_witness :
  exists names name,
    parse_repos_to_json "a/b, c/d"
    = JArr (map repo_object (names ++ [(name ++ Text.nl)%string]))
    /\ Forall (fun t => Text.nonempty t = true) names.
Proof.
  apply (parse_repos_last_name_ends_with_newline "a" "/b, c/d").
  discriminate.
Defined.

(** One repository, as [GITHUB_REPOSITORY] names it. *)
Lemma parse_repos_single a s :
  a <> "-"%char -> a <> " "%char ->
  sep_free (Ascii.eqb ",") (String a s) = true ->
  parse_repos_to_json (String a s)
  = JArr [repo_object (String a s ++ Text.nl)].
Proof.
  intros Hd Hs Hc. unfold parse_repos_to_json, repos_filter.
  rewrite (echo_no_dash a s Hd).
  assert (Hsplit : Text.split "," (String a s ++ Text.nl)
                   = Text.pieces (Ascii.eqb ",") (String a s ++ Text.nl)).
  { reflexivity. }
  rewrite Hsplit, pieces_sep_free.
  - cbn [map]. rewrite trim_keeps_the_newline.
    assert (Hl : Text.ltrimstr " " (String a s) = String a s).
    { unfold Text.ltrimstr. cbn [Text.strip_prefix].
      destruct (Ascii.eqb_spec " " a) as [<- | _]; [now destruct Hs |].
      reflexivity. }
    rewrite Hl. reflexivity.
  - unfold sep_free in *. now apply all_chars_append.
Qed.

(** An entry that is not empty starts with the timestamp and the GitHub
    context. *)
Lemma collect_entry_context c h entry :
  collect_entry c h = Some entry ->
  exists system,
    entry
    = JObj (("timestamp", JStr (date_utc h))
            :: ("github_context",
                JObj [("user", JStr match USER_LOGIN c with
                                    | "" => whoami h
                                    | u => u
                                    end);
                      ("repositories",
                       parse_repos_to_json (GITHUB_REPOS c))])
            :: system).
Proof.
  unfold collect_entry. cbn [Jq.add mbind option_bind].
  destruct (String.eqb (MODE c) "minimal").
  { destruct (minimal_system h); cbn; intros [= <-]; eauto. }
  destruct (String.eqb (MODE c) "extended").
  { destruct (extended_system h); cbn; intros [= <-]; eauto. }
  destruct (String.eqb (MODE c) "full").
  { destruct (full_system h); cbn; intros [= <-]; eauto. }
  intros [= <-]. eauto.
Qed.

(** Without a failed sampler the entry is not empty. *)
Lemma collect_entry_sampled c h :
  sampled_for (MODE c) h -> is_Some (collect_entry c h).
Proof.
  intros (Hc & Hm & Hd & Hrest).
  destruct (String.eqb_spec (MODE c) "minimal") as [E | E].
  - destruct (minimal_system_sampled h Hc Hm Hd) as (sys & Hs & _).
    rewrite (collect_entry_minimal c h E), Hs. cbn. eauto.
  - destruct (Hrest E) as (Hi & Hn & Ht).
    destruct (extended_system_sampled h Hc Hm Hd Hi Hn Ht) as (sys & Hs & _).
    unfold collect_entry. cbn [Jq.add mbind option_bind].
    apply String.eqb_neq in E. rewrite E.
    change (full_system h) with (extended_system h). rewrite Hs.
    destruct (String.eqb (MODE c) "extended"); [cbn; eauto |].
    destruct (String.eqb (MODE c) "full"); cbn; eauto.
Qed.

(** X5.  In a monitor started by the [run] that executes the script, with
    GITHUB_REPOSITORY a name without comma that starts with neither a dash
    nor a space, every entry that is not empty names as its user
    GITHUB_ACTOR (github-action when that is unset or empty; the login of
    [whoami] is never used), and its repositories are one repository whose
    name is GITHUB_REPOSITORY followed by a newline, whatever the mode is.
    The entry is not empty when no sampler of the mode failed. *)
Theorem launched_entries_context
  (getInput : string -> string) (e : Launcher.env) (h : host)
  (a : ascii) (s : string) :
  e "GITHUB_REPOSITORY" = Some (String a s) ->
  a <> "-"%char -> a <> " "%char ->
  sep_free (Ascii.eqb ",") (String a s) = true ->
  exists c,
    parse_args (Launcher.args getInput e) defaults = Run c
    /\ (sampled_for (MODE c) h -> is_Some (collect_entry c h))
    /\ forall entry,
         collect_entry c h = Some entry ->
         Jq.path ["github_context"; "user"] entry
         = Some (JStr (Launcher.or_env (e "GITHUB_ACTOR") "github-action"))
         /\ Jq.path ["github_context"; "repositories"] entry
            = Some (JArr [repo_object (String a s ++ Text.nl)]).
Proof.
  intros He Hd Hs Hc.
  exists {| OUTPUT_FILE := Launcher.outputFile e;
            MODE := InputParser.or_string (getInput "mode") "minimal";
            USER_LOGIN := Launcher.or_env (e "GITHUB_ACTOR") "github-action";
            GITHUB_REPOS := Launcher.or_env (e "GITHUB_REPOSITORY") "";
            UPDATE_INTERVAL := InputParser.or_string (getInput "interval") "1";
            MAX_ENTRIES := "1440" |}.
  split; [reflexivity |].
  split; [apply collect_entry_sampled |].
  intros entry Hentry.
  destruct (collect_entry_context _ h entry Hentry) as [system ->].
  cbn [USER_LOGIN GITHUB_REPOS]. rewrite He. cbn [Launcher.or_env].
  rewrite (parse_repos_single a s Hd Hs Hc).
  split; [| reflexivity].
  cbn. destruct (e "GITHUB_ACTOR") as [[| b u] |]; reflexivity.
Qed.

Lemma launched_entries_context_witness :
  exists c,
    parse_args (Launcher.args (inputs "full" "5") sample_env) defaults = Run c
    /\ (sampled_for (MODE c) sample_host
        -> is_Some (collect_entry c sample_host))
    /\ forall entry,
         collect_entry c sample_host = Some entry ->
         Jq.path ["github_context"; "user"] entry
         = Some (JStr (Launcher.or_env (sample_env "GITHUB_ACTOR")
                         "github-action"))
         /\ Jq.path ["github_context"; "repositories"] entry
            = Some (JArr [repo_object
                            ("wechuli/ghametricscollector" ++ Text.nl)]).
Proof.
  apply (launched_entries_context (inputs "full" "5") sample_env sample_host
           "w" "echuli/ghametricscollector");
    reflexivity || discriminate.
Defined.

(** ** The lock and the store *)

Lemma wait_lock_unlocked others lock fuel count (fs : files) :
  fs !! lock = None -> wait_lock others lock fuel count fs = (count, fs).
Proof. intros H. destruct fuel; cbn; now rewrite H. Qed.

Lemma after_wait_free others c (fs : files) :
  fs !! LOCK_FILE c = None -> after_wait others c fs = fs.
Proof.
  intros H. unfold after_wait. rewrite wait_lock_unlocked by exact H.
  reflexivity.
Qed.

(** X6.  With no lock file there, [acquire_lock] does not sleep, whatever
    the other processes would do meanwhile: it writes the lock file with its
    process identifier and changes nothing else, and [release_lock] after it
    gives back the files as they were. *)
Theorem release_undoes_acquire (others : interference) (c : config) (pid : N)
  (fs : files) :
  fs !! LOCK_FILE c = None ->
  lock_ticks others c fs = 0%nat
  /\ acquire_lock others c pid fs
     = <[LOCK_FILE c := Bytes (Num.dec pid ++ Text.nl)]> fs
  /\ release_lock c (acquire_lock others c pid fs) = fs.
Proof.
  intros H. unfold release_lock, acquire_lock, lock_ticks.
  rewrite after_wait_free, wait_lock_unlocked by exact H. rewrite echo_dec.
  split; [reflexivity |]. split; [reflexivity |]. now apply delete_insert_id.
Qed.

Lemma release_undoes_acquire_witness :
  lock_ticks quiet defaults ∅ = 0%nat
  /\ acquire_lock quiet defaults 4242 ∅
     = <[LOCK_FILE defaults := Bytes (Num.dec 4242 ++ Text.nl)]> ∅
  /\ release_lock defaults (acquire_lock quiet defaults 4242 ∅) = ∅.
Proof.
  exact (release_undoes_acquire quiet defaults 4242 ∅ (lookup_empty _)).
Defined.

Lemma after_wait_quiet c (fs : files) p :
  p <> LOCK_FILE c -> after_wait quiet c fs !! p = fs !! p.
Proof.
  intros Hp. unfold after_wait.
  pose proof (wait_lock_quiet (LOCK_FILE c) LOCK_TIMEOUT 0 fs) as Hq.
  destruct (wait_lock quiet (LOCK_FILE c) LOCK_TIMEOUT 0 fs) as [count fs1].
  cbn in Hq. subst fs1.
  destruct (Nat.eqb count LOCK_TIMEOUT); [| reflexivity].
  now apply lookup_delete_ne.
Qed.

Lemma acquire_lock_quiet c pid (fs : files) p :
  p <> LOCK_FILE c -> acquire_lock quiet c pid fs !! p = fs !! p.
Proof.
  intros Hp. unfold acquire_lock.
  rewrite lookup_insert_ne by (apply not_eq_sym, Hp).
  now apply after_wait_quiet.
Qed.

Lemma acquire_lock_held others c pid (fs : files) :
  acquire_lock others c pid fs !! LOCK_FILE c
  = Some (Bytes (Num.dec pid ++ Text.nl)).
Proof. unfold acquire_lock. rewrite echo_dec. apply lookup_insert_eq. Qed.

Lemma append_filter_not_appendable e max doc :
  appendable doc = false -> append_filter e max doc = None.
Proof. destruct doc; try discriminate; reflexivity. Qed.

Lemma append_filter_array_out e max doc out :
  append_filter e max doc = Some out -> exists l, out = JArr l.
Proof.
  unfold append_filter.
  destruct (Jq.add doc (JArr [e])) as [[] |]; try discriminate.
  intros [= <-]. eauto.
Qed.

Section AppendOutcome.

Variable jq_parse : string -> parsed.
Variable several : list bool -> bool.
Variable c : config.
Variable pid : N.
Variable max : Z.
Variable e : json.

(** The run of [append_entry] on an output file that exists. *)
Lemma append_entry_on_file (fs : files) f :
  fs !! OUTPUT_FILE c = Some f ->
  append_entry jq_parse several quiet c pid max e fs
  = let '(outs, ok) := jq_file jq_parse several (append_filter e max) f in
    let fs2 := <[temp_file c := written outs]> (acquire_lock quiet c pid fs) in
    if ok
    then Done (release_lock c
                 (<[OUTPUT_FILE c := written outs]>
                    (delete (temp_file c) fs2)))
    else Died fs2.
Proof.
  intros Hf. unfold append_entry. now rewrite acquire_lock_keeps_output, Hf.
Qed.

Lemma append_entry_missing (fs : files) :
  fs !! OUTPUT_FILE c = None ->
  append_entry jq_parse several quiet c pid max e fs
  = Died (<[temp_file c := Bytes ""]> (acquire_lock quiet c pid fs)).
Proof.
  intros Hf. unfold append_entry. now rewrite acquire_lock_keeps_output, Hf.
Qed.

(** What is left when the script dies in [append_entry]. *)
Lemma append_entry_died_files (fs : files) t :
  let fs' := <[temp_file c := t]> (acquire_lock quiet c pid fs) in
  fs' !! LOCK_FILE c = Some (Bytes (Num.dec pid ++ Text.nl))
  /\ fs' !! temp_file c = Some t
  /\ fs' !! OUTPUT_FILE c = fs !! OUTPUT_FILE c.
Proof.
  cbv zeta. split; [| split].
  - rewrite lookup_insert_ne by apply temp_ne_lock.
    apply acquire_lock_held.
  - apply lookup_insert_eq.
  - rewrite lookup_insert_ne by apply temp_ne_output.
    apply acquire_lock_keeps_output.
Qed.

End AppendOutcome.

(** X7.  When the output file is missing, holds text that is not JSON from
    its start, or holds one JSON value that is neither an array nor null,
    [append_entry] does not return: jq fails, and under [set -e] the script
    dies there.  It leaves the lock file in place with its own process
    identifier in it, an empty temporary file, and the output file as it
    was.  On an empty output file jq has no input and succeeds:
    [append_entry] returns, the output file is still empty and the entry is
    lost. *)
Theorem append_entry_dies_holding_the_lock
  (jq_parse : string -> parsed) (several : list bool -> bool)
  (c : config) (pid : N) (max : Z) (e : json) (fs : files) :
  (fs !! OUTPUT_FILE c = None
   \/ read_output jq_parse c fs = Some {| values := []; complete := false |}
   \/ (exists doc,
         read_output jq_parse c fs
         = Some {| values := [doc]; complete := true |}
         /\ appendable doc = false) ->
   exists fs',
     append_entry jq_parse several quiet c pid max e fs = Died fs'
     /\ fs' !! LOCK_FILE c = Some (Bytes (Num.dec pid ++ Text.nl))
     /\ fs' !! temp_file c = Some (Bytes "")
     /\ fs' !! OUTPUT_FILE c = fs !! OUTPUT_FILE c)
  /\ (read_output jq_parse c fs = Some {| values := []; complete := true |} ->
      exists fs',
        append_entry jq_parse several quiet c pid max e fs = Done fs'
        /\ fs' !! OUTPUT_FILE c = Some (Bytes "")
        /\ fs' !! LOCK_FILE c = None
        /\ fs' !! temp_file c = None).
Proof.
  split.
  - intros [Hmissing | [Hbad | (doc & Hdoc & Hno)]].
    + rewrite append_entry_missing by exact Hmissing.
      eexists. split; [reflexivity |]. apply append_entry_died_files.
    + unfold read_output in Hbad.
      destruct (fs !! OUTPUT_FILE c) as [f |] eqn:Hf; [| discriminate Hbad].
      cbn in Hbad. injection Hbad as Hbad.
      rewrite (append_entry_on_file jq_parse several c pid max e fs f Hf).
      unfold jq_file. rewrite Hbad. cbn.
      eexists. split; [reflexivity |]. rewrite <- Hf.
      apply append_entry_died_files.
    + unfold read_output in Hdoc.
      destruct (fs !! OUTPUT_FILE c) as [f |] eqn:Hf; [| discriminate Hdoc].
      cbn in Hdoc. injection Hdoc as Hdoc.
      rewrite (append_entry_on_file jq_parse several c pid max e fs f Hf).
      unfold jq_file. rewrite Hdoc. cbn.
      rewrite (append_filter_not_appendable e max doc Hno). cbn.
      eexists. split; [reflexivity |]. rewrite <- Hf.
      apply append_entry_died_files.
  - intros Hempty. unfold read_output in Hempty.
    destruct (fs !! OUTPUT_FILE c) as [f |] eqn:Hf; [| discriminate Hempty].
    cbn in Hempty. injection Hempty as Hempty.
    rewrite (append_entry_on_file jq_parse several c pid max e fs f Hf).
    unfold jq_file. rewrite Hempty. cbn.
    eexists. split; [reflexivity |]. unfold release_lock. split; [| split].
    + rewrite lookup_delete_ne by apply lock_ne_output.
      apply lookup_insert_eq.
    + apply lookup_delete_eq.
    + rewrite lookup_delete_ne by (apply not_eq_sym, temp_ne_lock).
      rewrite lookup_insert_ne by (apply not_eq_sym, temp_ne_output).
      apply lookup_delete_eq.
Qed.

Lemma append_entry_dies_holding_the_lock_witness :
  exists fs',
    append_entry reads_empty_array last_decides quiet defaults 4242 1440
      (JObj []) {[ OUTPUT_FILE defaults := Printed [JObj []] ]}
    = Died fs'
    /\ fs' !! LOCK_FILE defaults = Some (Bytes (Num.dec 4242 ++ Text.nl))
    /\ fs' !! temp_file defaults = Some (Bytes "")
    /\ fs' !! OUTPUT_FILE defaults
       = ({[ OUTPUT_FILE defaults := Printed [JObj []] ]} : files)
           !! OUTPUT_FILE defaults.
Proof.
  apply (append_entry_dies_holding_the_lock reads_empty_array last_decides
           defaults 4242 1440 (JObj [])
           {[ OUTPUT_FILE defaults := Printed [JObj []] ]}).
  right. right. exists (JObj []). split; [| reflexivity].
  unfold read_output. now rewrite lookup_singleton_eq.
Defined.

(** An empty output file: the append returns and the entry is lost. *)
Example append_entry_on_an_empty_file :
  forall (jq_parse : string -> parsed) (several : list bool -> bool),
    exists fs',
      append_entry jq_parse several quiet defaults 4242 1440 (JObj [])
        {[ OUTPUT_FILE defaults := Bytes "" ]} = Done fs'
      /\ fs' !! OUTPUT_FILE defaults = Some (Bytes "").
Proof.
  intros jq_parse several.
  rewrite (append_entry_on_file jq_parse several defaults 4242 1440 (JObj [])
             _ (Bytes "") (lookup_singleton_eq _ _)).
  cbn. eexists. split; [reflexivity |]. unfold release_lock.
  rewrite lookup_delete_ne by apply lock_ne_output.
  apply lookup_insert_eq.
Qed.

Lemma omap_append_filter_arrays e max vs :
  Forall (fun v => exists l, v = JArr l)
    (omap id (map (append_filter e max) vs)).
Proof.
  induction vs as [| v vs IH]; [constructor |]. cbn.
  destruct (append_filter e max v) as [out |] eqn:E; cbn; [| exact IH].
  constructor; [| exact IH]. eapply append_filter_array_out, E.
Qed.

(** X8.  [append_entry] touches three files only.  When it returns, the
    lock file and the temporary file are gone, the output file holds what
    jq printed, arrays only (none at all when the file was empty), and
    every other file is as it was; a temporary file or a lock file found
    there before is lost.  When the script dies in it, the output file and
    every file other than the lock and the temporary file are as they
    were. *)
Theorem append_entry_frame
  (jq_parse : string -> parsed) (several : list bool -> bool)
  (c : config) (pid : N) (max : Z) (e : json) (fs : files) :
  match append_entry jq_parse several quiet c pid max e fs with
  | Done fs' =>
      fs' !! LOCK_FILE c = None /\ fs' !! temp_file c = None
      /\ (exists outs,
            fs' !! OUTPUT_FILE c = Some (written outs)
            /\ Forall (fun v => exists l, v = JArr l) outs)
      /\ forall p, p <> OUTPUT_FILE c -> p <> LOCK_FILE c ->
                   p <> temp_file c -> fs' !! p = fs !! p
  | Died fs' =>
      fs' !! OUTPUT_FILE c = fs !! OUTPUT_FILE c
      /\ forall p, p <> LOCK_FILE c -> p <> temp_file c -> fs' !! p = fs !! p
  end.
Proof.
  assert (Hdied : forall t,
    let fs' := <[temp_file c := t]> (acquire_lock quiet c pid fs) in
    fs' !! OUTPUT_FILE c = fs !! OUTPUT_FILE c
    /\ forall p, p <> LOCK_FILE c -> p <> temp_file c -> fs' !! p = fs !! p).
  { intros t. cbv zeta. split.
    - rewrite lookup_insert_ne by apply temp_ne_output.
      apply acquire_lock_keeps_output.
    - intros p Hl Ht.
      rewrite lookup_insert_ne by (apply not_eq_sym, Ht).
      now apply acquire_lock_quiet. }
  destruct (fs !! OUTPUT_FILE c) as [f |] eqn:Hf.
  2: { rewrite append_entry_missing by exact Hf. apply Hdied. }
  rewrite (append_entry_on_file jq_parse several c pid max e fs f Hf).
  unfold jq_file.
  destruct (complete (jq_read jq_parse f)
            && exit_ok several
                 (map succeeded
                    (map (append_filter e max)
                       (values (jq_read jq_parse f))))); [| apply Hdied].
  unfold release_lock. split; [apply lookup_delete_eq |]. split; [| split].
  - rewrite lookup_delete_ne by (apply not_eq_sym, temp_ne_lock).
    rewrite lookup_insert_ne by (apply not_eq_sym, temp_ne_output).
    apply lookup_delete_eq.
  - eexists. split; [| apply omap_append_filter_arrays].
    rewrite lookup_delete_ne by apply lock_ne_output.
    apply lookup_insert_eq.
  - intros p Ho Hl Ht.
    rewrite lookup_delete_ne by (apply not_eq_sym, Hl).
    rewrite lookup_insert_ne by (apply not_eq_sym, Ho).
    rewrite lookup_delete_ne by (apply not_eq_sym, Ht).
    rewrite lookup_insert_ne by (apply not_eq_sym, Ht).
    now apply acquire_lock_quiet.
Qed.

Section AppendAny.

Variable jq_parse : string -> parsed.
Variable several : list bool -> bool.
Variable c : config.
Variable pid : N.
Variable max : Z.

Lemma append_filter_trim_to e l :
  append_filter e max (JArr l) = Some (JArr (trim_to max (l ++ [e]))).
Proof. reflexivity. Qed.

(** Appends in a row with any bound. *)
Lemma append_entries_fold es : forall init fs,
  stored_array jq_parse c fs = Some init ->
  exists fs',
    append_entries jq_parse several c pid max es fs = Done fs'
    /\ stored_array jq_parse c fs'
       = Some (fold_left (fun a e => trim_to max (a ++ [e])) es init).
Proof.
  induction es as [| e es IH]; intros init fs Hinit.
  - exists fs. split; [reflexivity | exact Hinit].
  - apply stored_array_read in Hinit.
    destruct (append_entry_done jq_parse several c pid max e fs _ _ Hinit
                (append_filter_trim_to e init))
      as (fs1 & Hrun & Hout & _).
    cbn [append_entries]. rewrite Hrun.
    apply IH. now apply stored_array_printed.
Qed.

End AppendAny.

Lemma trim_to_zero l : l <> [] -> trim_to 0 l = l.
Proof.
  intros Hl. unfold trim_to. destruct l as [| x l]; [contradiction |].
  reflexivity.
Qed.

Lemma fold_trim_to_zero es : forall init : list json,
  fold_left (fun a e => trim_to 0 (a ++ [e])) es init = init ++ es.
Proof.
  induction es as [| e es IH]; intros init; cbn [fold_left].
  - now rewrite List.app_nil_r.
  - rewrite trim_to_zero by (now destruct init). rewrite IH.
    now rewrite <- List.app_assoc.
Qed.

(** X9.  With [--max-entries 0] nothing is ever dropped: after any
    number of appends the stored array is the initial array followed by all
    the entries appended, in order. *)
Theorem zero_max_entries_never_trims
  (jq_parse : string -> parsed) (several : list bool -> bool)
  (c : config) (pid : N) (init es : list json) (fs : files) :
  stored_array jq_parse c fs = Some init ->
  exists fs',
    append_entries jq_parse several c pid 0 es fs = Done fs'
    /\ stored_array jq_parse c fs' = Some (init ++ es).
Proof.
  intros Hinit.
  destruct (append_entries_fold jq_parse several c pid 0 es init fs Hinit)
    as (fs' & Hrun & Hst).
  exists fs'. split; [exact Hrun |]. now rewrite Hst, fold_trim_to_zero.
Qed.

Lemma zero_max_entries_never_trims_witness :
  exists fs',
    append_entries reads_empty_array last_decides defaults 4242 0
      [JNum 4; JNum 5]
      {[ OUTPUT_FILE defaults := Printed [JArr three_entries] ]} = Done fs'
    /\ stored_array reads_empty_array defaults fs'
       = Some (three_entries ++ [JNum 4; JNum 5]).
Proof.
  apply (zero_max_entries_never_trims reads_empty_array last_decides
           defaults 4242 three_entries).
  unfold stored_array, read_output. now rewrite lookup_singleton_eq.
Defined.

Lemma trim_to_negative max (l : list json) :
  (max < 0)%Z -> trim_to max l = skipn (Z.to_nat (- max)) l.
Proof.
  intros Hmax. unfold trim_to, Jq.slice_from. cbv zeta.
  destruct (Z.ltb_spec (- max) 0) as [? | _]; [lia |].
  destruct (Z.ltb_spec (- max) 0) as [? | _]; [lia |].
  repeat match goal with
         | |- context [(?a <? ?b)%Z] => destruct (Z.ltb_spec a b)
         end; try lia; try reflexivity.
  rewrite !List.skipn_all2 by lia. reflexivity.
Qed.

Lemma fold_trim_to_negative max es : forall init : list json,
  (max < 0)%Z ->
  (length (fold_left (fun a e => trim_to max (a ++ [e])) es init)
   <= length init)%nat.
Proof.
  induction es as [| e es IH]; intros init Hmax; cbn [fold_left]; [lia |].
  etransitivity; [apply IH, Hmax |].
  rewrite trim_to_negative by exact Hmax.
  rewrite length_skipn, length_app. cbn [length]. lia.
Qed.

(** X10.  With a negative [--max-entries] the array never grows: each
    append drops as many of the oldest elements as the bound says, so after
    any number of appends the stored array is no longer than the initial
    one, and an array found empty stays empty, no entry is ever kept. *)
Theorem negative_max_entries_never_grows
  (jq_parse : string -> parsed) (several : list bool -> bool)
  (c : config) (pid : N) (max : Z) (init es : list json) (fs : files) :
  (max < 0)%Z ->
  stored_array jq_parse c fs = Some init ->
  exists fs' l,
    append_entries jq_parse several c pid max es fs = Done fs'
    /\ stored_array jq_parse c fs' = Some l
    /\ (length l <= length init)%nat
    /\ (init = [] -> l = []).
Proof.
  intros Hmax Hinit.
  destruct (append_entries_fold jq_parse several c pid max es init fs Hinit)
    as (fs' & Hrun & Hst).
  eexists fs', _. split; [exact Hrun |]. split; [exact Hst |].
  pose proof (fold_trim_to_negative max es init Hmax) as Hlen.
  split; [exact Hlen |].
  intros ->. cbn in Hlen.
  destruct (fold_left _ es []); [reflexivity | cbn in Hlen; lia].
Qed.

Lemma negative_max_entries_never_grows_witness :
  exists fs' l,
    append_entries reads_empty_array last_decides defaults 4242 (-1)
      [JNum 4; JNum 5]
      {[ OUTPUT_FILE defaults := Printed [JArr []] ]} = Done fs'
    /\ stored_array reads_empty_array defaults fs' = Some l
    /\ (length l <= length (@nil json))%nat
    /\ (@nil json = [] -> l = []).
Proof.
  apply (negative_max_entries_never_grows reads_empty_array last_decides
           defaults 4242 (-1) []).
  - reflexivity.
  - unfold stored_array, read_output. now rewrite lookup_singleton_eq.
Defined.

Section Initialize.

Variable jq_parse : string -> parsed.
Hypothesis reads_echo :
  jq_parse ("[]" ++ Text.nl)%string
  = {| values := [JArr []]; complete := true |}.
Variable c : config.

Lemma echoed_array_is_json_array :
  is_json_array jq_parse (Bytes ("[]" ++ Text.nl)) = true.
Proof. unfold is_json_array. cbn. now rewrite reads_echo. Qed.

Lemma stored_array_after_reset (fs : files) :
  stored_array jq_parse c (<[OUTPUT_FILE c := Bytes ("[]" ++ Text.nl)]> fs)
  = Some [].
Proof.
  unfold stored_array, read_output. rewrite lookup_insert_eq. cbn.
  now rewrite reads_echo.
Qed.

(** After [initialize_file] the output file passes the check. *)
Lemma initialize_file_checked epoch (fs : files) :
  exists f,
    initialize_file jq_parse c epoch fs !! OUTPUT_FILE c = Some f
    /\ is_json_array jq_parse f = true.
Proof.
  unfold initialize_file.
  destruct (fs !! OUTPUT_FILE c) as [f |] eqn:Hf.
  - destruct (is_json_array jq_parse f) eqn:Hv.
    + exists f. split; [exact Hf | exact Hv].
    + eexists. split; [apply lookup_insert_eq |].
      apply echoed_array_is_json_array.
  - eexists. split; [apply lookup_insert_eq |].
    apply echoed_array_is_json_array.
Qed.

Lemma initialize_file_idempotent epoch epoch' (fs : files) :
  initialize_file jq_parse c epoch' (initialize_file jq_parse c epoch fs)
  = initialize_file jq_parse c epoch fs.
Proof.
  destruct (initialize_file_checked epoch fs) as (f & Hf & Hv).
  exact (initialize_file_valid jq_parse c epoch' _ f Hf Hv).
Qed.

(** The array that start-up leaves: the one found, the empty one when the
    file was missing or failed the check. *)
Lemma initialize_file_stored epoch (fs : files) :
  (fs !! OUTPUT_FILE c = None
   \/ (exists f, fs !! OUTPUT_FILE c = Some f
                 /\ is_json_array jq_parse f = false)
   \/ is_Some (stored_array jq_parse c fs)) ->
  stored_array jq_parse c (initialize_file jq_parse c epoch fs)
  = Some (default [] (stored_array jq_parse c fs)).
Proof.
  intros [Hmissing | [(f & Hf & Hbad) | [l Hl]]].
  - unfold initialize_file. rewrite Hmissing, stored_array_after_reset.
    unfold stored_array, read_output. now rewrite Hmissing.
  - rewrite (initialize_file_corrupt jq_parse c epoch fs f Hf Hbad).
    rewrite stored_array_after_reset.
    destruct (stored_array jq_parse c fs) as [l |] eqn:Hl; [| reflexivity].
    destruct (stored_array_is_json_array jq_parse c fs l Hl)
      as (f' & Hf' & Hv).
    congruence.
  - destruct (stored_array_is_json_array jq_parse c fs l Hl)
      as (f & Hf & Hv).
    rewrite (initialize_file_valid jq_parse c epoch fs f Hf Hv).
    now rewrite Hl.
Qed.

End Initialize.

(** X11.  Provided jq reads the text that [echo "[]"] writes as the empty
    array, [initialize_file] leaves, from every state of the files, an
    output file that passes its own check: jq reads it to its end and its
    last value is an array.  A file that holds one JSON array keeps it; a
    missing file and a file that fails the check give the empty array.
    Running it again, at any later time, changes nothing. *)
Theorem initialize_file_leaves_an_array
  (jq_parse : string -> parsed) (c : config) (epoch epoch' : N)
  (fs : files) :
  jq_parse ("[]" ++ Text.nl)%string
  = {| values := [JArr []]; complete := true |} ->
  (exists f,
     initialize_file jq_parse c epoch fs !! OUTPUT_FILE c = Some f
     /\ is_json_array jq_parse f = true)
  /\ (forall l,
        stored_array jq_parse c fs = Some l ->
        stored_array jq_parse c (initialize_file jq_parse c epoch fs)
        = Some l)
  /\ (fs !! OUTPUT_FILE c = None
      \/ (exists f, fs !! OUTPUT_FILE c = Some f
                    /\ is_json_array jq_parse f = false) ->
      stored_array jq_parse c (initialize_file jq_parse c epoch fs)
      = Some [])
  /\ initialize_file jq_parse c epoch' (initialize_file jq_parse c epoch fs)
     = initialize_file jq_parse c epoch fs.
Proof.
  intros Hecho. split; [| split; [| split]].
  - now apply initialize_file_checked.
  - intros l Hl.
    rewrite (initialize_file_stored jq_parse Hecho c epoch fs)
      by (right; right; eauto).
    now rewrite Hl.
  - intros Hreset.
    assert (Hnone : stored_array jq_parse c fs = None).
    { destruct (stored_array jq_parse c fs) as [l |] eqn:Hl; [| reflexivity].
      destruct (stored_array_is_json_array jq_parse c fs l Hl)
        as (f' & Hf' & Hv).
      destruct Hreset as [Hm | (f & Hf & Hbad)]; congruence. }
    rewrite (initialize_file_stored jq_parse Hecho c epoch fs)
      by (destruct Hreset; auto).
    now rewrite Hnone.
  - now apply initialize_file_idempotent.
Qed.

Lemma initialize_file_leaves_an_array_witness :
  stored_array reads_empty_array defaults
    (initialize_file reads_empty_array defaults 1758103200
       {[ OUTPUT_FILE defaults := Bytes "{" ]})
  = Some []
  /\ initialize_file reads_empty_array defaults 1758103260
       (initialize_file reads_empty_array defaults 1758103200
          {[ OUTPUT_FILE defaults := Bytes "{" ]})
     = initialize_file reads_empty_array defaults 1758103200
         {[ OUTPUT_FILE defaults := Bytes "{" ]}.
Proof.
  destruct (initialize_file_leaves_an_array reads_empty_array defaults
              1758103200 1758103260 {[ OUTPUT_FILE defaults := Bytes "{" ]}
              eq_refl) as (_ & _ & Hreset & Hagain).
  split; [| exact Hagain].
  apply Hreset. right. eexists. split; [apply lookup_singleton_eq |].
  reflexivity.
Defined.

Lemma dec_injective n m : Num.dec n = Num.dec m -> n = m.
Proof.
  intros H. pose proof (read_uint_dec n) as Hn.
  rewrite H, read_uint_dec in Hn. now injection Hn.
Qed.

Lemma backup_file_injective c e1 e2 :
  backup_file c e1 = backup_file c e2 -> e1 = e2.
Proof.
  unfold backup_file. intros H.
  apply String.app_inj in H. apply String.app_inj in H.
  now apply dec_injective.
Qed.


(** X12.  A reset does not touch the backups of other seconds: when
    [initialize_file] finds an output file that fails its check, the
    backup made at an earlier or later second is still there afterwards,
    next to the new one.  The backup of the same second is replaced, and
    what it held is lost. *)
Theorem initialize_file_keeps_earlier_backups
  (jq_parse : string -> parsed) (c : config) (epoch epoch' : N)
  (fs : files) (f g : content) :
  fs !! OUTPUT_FILE c = Some g ->
  is_json_array jq_parse g = false ->
  fs !! backup_file c epoch = Some f ->
  (epoch' <> epoch ->
   initialize_file jq_parse c epoch' fs !! backup_file c epoch = Some f
   /\ initialize_file jq_parse c epoch' fs !! backup_file c epoch' = Some g)
  /\ initialize_file jq_parse c epoch fs !! backup_file c epoch = Some g.
Proof.
  intros Hg Hbad Hf. split.
  - intros Hne.
    rewrite (initialize_file_corrupt jq_parse c epoch' fs g Hg Hbad).
    split.
    + rewrite lookup_insert_ne by (apply not_eq_sym, backup_ne_output).
      rewrite lookup_insert_ne
        by (intros H; apply backup_file_injective in H; congruence).
      rewrite lookup_delete_ne by (apply not_eq_sym, backup_ne_output).
      exact Hf.
    + rewrite lookup_insert_ne by (apply not_eq_sym, backup_ne_output).
      apply lookup_insert_eq.
  - rewrite (initialize_file_corrupt jq_parse c epoch fs g Hg Hbad).
    rewrite lookup_insert_ne by (apply not_eq_sym, backup_ne_output).
    apply lookup_insert_eq.
Qed.

Lemma initialize_file_keeps_earlier_backups_witness :
  (1758103260%N <> 1758103200%N ->
   initialize_file reads_empty_array defaults 1758103260
     (<[backup_file defaults 1758103200 := Bytes "{"]>
        {[ OUTPUT_FILE defaults := Printed [JObj []] ]})
     !! backup_file defaults 1758103200 = Some (Bytes "{")
   /\ initialize_file reads_empty_array defaults 1758103260
        (<[backup_file defaults 1758103200 := Bytes "{"]>
           {[ OUTPUT_FILE defaults := Printed [JObj []] ]})
        !! backup_file defaults 1758103260 = Some (Printed [JObj []]))
  /\ initialize_file reads_empty_array defaults 1758103200
       (<[backup_file defaults 1758103200 := Bytes "{"]>
          {[ OUTPUT_FILE defaults := Printed [JObj []] ]})
       !! backup_file defaults 1758103200 = Some (Printed [JObj []]).
Proof.
  apply (initialize_file_keeps_earlier_backups reads_empty_array defaults
           1758103200 1758103260
           (<[backup_file defaults 1758103200 := Bytes "{"]>
              {[ OUTPUT_FILE defaults := Printed [JObj []] ]})
           (Bytes "{") (Printed [JObj []])).
  - rewrite lookup_insert_ne by apply backup_ne_output.
    apply lookup_singleton_eq.
  - reflexivity.
  - apply lookup_insert_eq.
Defined.

(** X13.  Start-up followed by appends does not die when the output file
    found is missing, fails the check of [initialize_file], or holds one
    JSON array: with a bound [k >= 1], after [initialize_file] and the
    appends of one or more entries, the stored array is the last [k]
    elements of what was found at start-up (the array when there was one,
    nothing otherwise) followed by the entries. *)
Theorem startup_then_appends_never_die
  (jq_parse : string -> parsed) (several : list bool -> bool)
  (c : config) (pid epoch : N) (k : Z) (es : list json) (fs : files) :
  jq_parse ("[]" ++ Text.nl)%string
  = {| values := [JArr []]; complete := true |} ->
  (1 <= k)%Z ->
  es <> [] ->
  (fs !! OUTPUT_FILE c = None
   \/ (exists f, fs !! OUTPUT_FILE c = Some f
                 /\ is_json_array jq_parse f = false)
   \/ is_Some (stored_array jq_parse c fs)) ->
  exists fs',
    append_entries jq_parse several c pid k es
      (initialize_file jq_parse c epoch fs)
    = Done fs'
    /\ stored_array jq_parse c fs'
       = Some (last_n (Z.to_nat k)
                 (default [] (stored_array jq_parse c fs) ++ es)).
Proof.
  intros Hecho Hk Hes Hfound.
  destruct (append_entries_run jq_parse several c pid k Hk es _ _
              (initialize_file_stored jq_parse Hecho c epoch fs Hfound))
    as (fs' & Hrun & Hst).
  exists fs'. split; [exact Hrun |]. rewrite Hst. f_equal.
  destruct es as [| e es]; [contradiction |].
  cbn [fold_left].
  rewrite (fold_trim_is_last_n (Z.to_nat k) es
             (default [] (stored_array jq_parse c fs) ++ [e]))
    by reflexivity.
  now rewrite <- List.app_assoc.
Qed.

Lemma startup_then_appends_never_die_witness :
  exists fs',
    append_entries reads_empty_array last_decides defaults 4242 2
      [JNum 1; JNum 2; JNum 3]
      (initialize_file reads_empty_array defaults 1758103200 ∅)
    = Done fs'
    /\ stored_array reads_empty_array defaults fs'
       = Some (last_n (Z.to_nat 2)
                 (default [] (stored_array reads_empty_array defaults ∅)
                  ++ [JNum 1; JNum 2; JNum 3])).
Proof.
  apply (startup_then_appends_never_die reads_empty_array last_decides
           defaults 4242 1758103200 2 [JNum 1; JNum 2; JNum 3] ∅).
  - reflexivity.
  - discriminate.
  - discriminate.
  - left. apply lookup_empty.
Defined.

(** A file that holds a number and then an array passes the check of
    [initialize_file]; at the first append jq fails on the number and goes
    on with the array.  With a jq whose exit status is that of the last
    input the append returns and the number is gone; with a jq that reports
    any failure the script dies, the only output in the temporary file. *)
Example append_after_a_stream :
  let fs : files :=
    {[ OUTPUT_FILE defaults := Printed [JNum 5; JArr [JNum 1]] ]} in
  forall jq_parse : string -> parsed,
    initialize_file jq_parse defaults 1758103200 fs = fs
    /\ (exists fs',
          append_entry jq_parse last_decides quiet defaults 4242 1440
            (JNum 2) fs = Done fs'
          /\ stored_array jq_parse defaults fs' = Some [JNum 1; JNum 2])
    /\ (exists fs',
          append_entry jq_parse any_failure quiet defaults 4242 1440
            (JNum 2) fs = Died fs'
          /\ fs' !! temp_file defaults
             = Some (Printed [JArr [JNum 1; JNum 2]])
          /\ fs' !! OUTPUT_FILE defaults = fs !! OUTPUT_FILE defaults).
Proof.
  cbv zeta. intros jq_parse. split; [| split].
  - apply (initialize_file_valid jq_parse defaults 1758103200 _
             (Printed [JNum 5; JArr [JNum 1]]));
      [apply lookup_singleton_eq | reflexivity].
  - rewrite (append_entry_on_file jq_parse last_decides defaults 4242 1440
               (JNum 2) _ _ (lookup_singleton_eq _ _)).
    cbn. eexists. split; [reflexivity |].
    apply stored_array_printed. unfold release_lock.
    rewrite lookup_delete_ne by apply lock_ne_output.
    apply lookup_insert_eq.
  - rewrite (append_entry_on_file jq_parse any_failure defaults 4242 1440
               (JNum 2) _ _ (lookup_singleton_eq _ _)).
    cbn. eexists. split; [reflexivity |].
    apply (append_entry_died_files defaults 4242).
Qed.

(** ** Runs of the monitor and their statistics *)

Lemma In_skipn {A : Type} (x : A) n l : In x (skipn n l) -> In x l.
Proof.
  intros H. rewrite <- (firstn_skipn n l). apply in_or_app. now right.
Qed.

Lemma last_n_not_nil {A : Type} n (l : list A) :
  (1 <= n)%nat -> l <> [] -> last_n n l <> [].
Proof.
  intros Hn Hl He. pose proof (last_n_length n l) as Hlen.
  rewrite He in Hlen. destruct l; [contradiction |].
  cbn [length] in Hlen. lia.
Qed.

Lemma stored_array_file jq_parse c (fs : files) l :
  stored_array jq_parse c fs = Some l ->
  exists f, fs !! OUTPUT_FILE c = Some f
            /\ jq_read jq_parse f
               = {| values := [JArr l]; complete := true |}.
Proof.
  intros H. apply stored_array_read in H. unfold read_output in H.
  destruct (fs !! OUTPUT_FILE c) as [f |]; [| discriminate H].
  cbn in H. injection H as H. eauto.
Qed.

Lemma collected_bare c hs :
  MODE c <> "minimal" -> MODE c <> "extended" -> MODE c <> "full" ->
  collected c hs = Some (map (bare_entry c) hs).
Proof.
  intros H1 H2 H3. unfold collected. apply mapM_Some.
  induction hs as [| h hs IH]; constructor; [| exact IH].
  now apply collect_entry_other.
Qed.

(** X14.  A monitor run in a mode that is none of minimal, extended and
    full, from an empty array and with a bound of at least 1, collects and
    stores its entries without failing, and the statistics it prints from
    them are the message Unable to calculate statistics: none of its
    entries has a CPU usage. *)
Theorem unknown_mode_has_no_statistics
  (jq_parse : string -> parsed) (several : list bool -> bool)
  (tojson : json -> string)
  (c : config) (pid : N) (k : Z) (hs : list host) (fs : files) :
  MODE c <> "minimal" -> MODE c <> "extended" -> MODE c <> "full" ->
  (1 <= k)%Z ->
  hs <> [] ->
  stored_array jq_parse c fs = Some [] ->
  exists entries fs',
    collected c hs = Some entries
    /\ length entries = length hs
    /\ append_entries jq_parse several c pid k entries fs = Done fs'
    /\ print_stats jq_parse several tojson c fs'
       = Some "Unable to calculate statistics".
Proof.
  intros H1 H2 H3 Hk Hhs Hinit.
  exists (map (bare_entry c) hs).
  destruct (append_entries_run jq_parse several c pid k Hk
              (map (bare_entry c) hs) [] fs Hinit) as (fs' & Hrun & Hst).
  exists fs'. split; [now apply collected_bare |].
  split; [apply length_map |]. split; [exact Hrun |].
  rewrite (fold_trim_is_last_n (Z.to_nat k) _ [])
    in Hst by reflexivity.
  cbn [List.app] in Hst.
  destruct (stored_array_file _ _ _ _ Hst) as (f & Hf & Hr).
  rewrite (print_stats_one jq_parse several tojson c fs' f _ Hf Hr).
  rewrite stats_filter_nonempty.
  - rewrite stats_object_of_nothing; [reflexivity |].
    intros e He. apply In_skipn, in_map_iff in He as (h & <- & _).
    right. reflexivity.
  - apply last_n_not_nil; [lia |]. now destruct hs.
Qed.

Lemma unknown_mode_has_no_statistics_witness :
  exists entries fs',
    collected (with_mode "turbo" defaults) [sample_host; sample_host]
    = Some entries
    /\ length entries = length [sample_host; sample_host]
    /\ append_entries reads_empty_array last_decides
         (with_mode "turbo" defaults) 4242 1440 entries
         {[ OUTPUT_FILE (with_mode "turbo" defaults) := Printed [JArr []] ]}
       = Done fs'
    /\ print_stats reads_empty_array last_decides (fun _ => "")
         (with_mode "turbo" defaults) fs'
       = Some "Unable to calculate statistics".
Proof.
  apply (unknown_mode_has_no_statistics reads_empty_array last_decides
           (fun _ => "") (with_mode "turbo" defaults) 4242 1440
           [sample_host; sample_host]
           {[ OUTPUT_FILE (with_mode "turbo" defaults)
                := Printed [JArr []] ]});
    try discriminate.
  unfold stored_array, read_output. now rewrite lookup_singleton_eq.
Defined.

Section KnownMode.

Variable c : config.
Hypothesis known : is_mode (MODE c) = true.

(** In the three modes, the entry of a host whose samplers all printed a
    value carries the two usages where [print_stats] reads them. *)
Lemma collect_entry_known h :
  sampled_for (MODE c) h ->
  exists e,
    collect_entry c h = Some e
    /\ Jq.path cpu_path e = cpu_sample h
    /\ Jq.path memory_path e = memory_sample h
    /\ Jq.field "timestamp" e = Some (JStr (date_utc h)).
Proof.
  intros ([cpu Hc] & [memory Hm] & [disk Hd] & Hrest).
  apply InputParserFacts.is_mode_In in known.
  unfold cpu_sample, memory_sample. rewrite Hc, Hm.
  assert (Hext : MODE c = "extended" \/ MODE c = "full" ->
            exists e,
              collect_entry c h = Some e
              /\ Jq.path cpu_path e
                 = Jq.path ["current_usage"; "usage_percent"] cpu
              /\ Jq.path memory_path e = Jq.path ["usage_percent"] memory
              /\ Jq.field "timestamp" e = Some (JStr (date_utc h))).
  { intros Hmode.
    assert (Hne : MODE c <> "minimal")
      by (destruct Hmode as [-> | ->]; discriminate).
    destruct (Hrest Hne) as ([info Hi] & [net Hn] & [top Ht]).
    rewrite (collect_entry_extended c h Hmode).
    unfold extended_system. rewrite Hc, Hm, Hd, Hi, Hn, Ht.
    eexists. split; [reflexivity |]. repeat split; reflexivity. }
  destruct known as [Hmode | [Hmode | [Hmode | []]]]; symmetry in Hmode.
  - rewrite (collect_entry_minimal c h Hmode). unfold minimal_system.
    rewrite Hc, Hm, Hd. eexists. split; [reflexivity |].
    repeat split; reflexivity.
  - apply Hext. now left.
  - apply Hext. now right.
Qed.

Lemma collected_known hs :
  Forall (sampled_for (MODE c)) hs ->
  collected c hs
  = Some (map (fun h => default JNull (collect_entry c h)) hs).
Proof.
  intros Hs. unfold collected. apply mapM_Some.
  induction Hs as [| h hs Hh _ IH]; constructor; [| exact IH].
  destruct (collect_entry_known h Hh) as (e & -> & _). reflexivity.
Qed.

End KnownMode.

Lemma Forall2_map_l {A B C : Type} (P : B -> C -> Prop) (f : A -> B) l k :
  Forall2 (fun x y => P (f x) y) l k -> Forall2 P (map f l) k.
Proof. induction 1; constructor; auto. Qed.

Lemma Forall2_Forall_l {A B : Type} (P : A -> Prop) (Q R : A -> B -> Prop)
  l k :
  (forall x y, P x -> Q x y -> R x y) ->
  Forall P l -> Forall2 Q l k -> Forall2 R l k.
Proof.
  intros H HP HQ. induction HQ as [| x y l k Hxy _ IH]; constructor.
  - apply H; [now inversion HP | exact Hxy].
  - apply IH. now inversion HP.
Qed.

(** X15.  For the entries a monitor collects in one of the modes minimal,
    extended and full from states of the host in which every sampler of
    the mode printed a value and whose CPU and memory samples carry a
    usage, the statistics count the entries, give the timestamps of the
    first and of the last state, and give as averages the binary64 means of
    the CPU usages and of the memory usages: the two paths that
    [print_stats] reads are there in all three modes. *)
Theorem statistics_of_collected_entries
  (c : config) (hs : list host) (xs ys : list Double.double) :
  is_mode (MODE c) = true ->
  hs <> [] ->
  Forall (sampled_for (MODE c)) hs ->
  Forall2 (fun h x => cpu_sample h = Some (JNum x)) hs xs ->
  Forall2 (fun h y => memory_sample h = Some (JNum y)) hs ys ->
  exists entries t1 t2,
    collected c hs = Some entries
    /\ head (map date_utc hs) = Some t1
    /\ last (map date_utc hs) = Some t2
    /\ stats_object (JArr entries)
       = Some (JObj [("total_entries",
                      JNum (Double.of_Z (Z.of_nat (length hs))));
                     ("first_timestamp", JStr t1);
                     ("last_timestamp", JStr t2);
                     ("avg_cpu", JNum (mean64 xs));
                     ("avg_memory", JNum (mean64 ys))]).
Proof.
  intros Hmode Hhs Hs Hcpu Hmem.
  set (entry := fun h => default JNull (collect_entry c h)).
  set (l := map entry hs).
  assert (Hentry : forall h, sampled_for (MODE c) h ->
            Jq.path cpu_path (entry h) = cpu_sample h
            /\ Jq.path memory_path (entry h) = memory_sample h
            /\ Jq.field "timestamp" (entry h) = Some (JStr (date_utc h))).
  { intros h Hh. unfold entry.
    destruct (collect_entry_known c Hmode h Hh) as (e & -> & H). exact H. }
  assert (Hl : l <> []) by (subst l; now destruct hs).
  assert (Hc : Forall2 (fun e x => Jq.path cpu_path e = Some (JNum x)) l xs).
  { apply Forall2_map_l.
    apply (Forall2_Forall_l (sampled_for (MODE c))
             (fun h x => cpu_sample h = Some (JNum x)));
      [| exact Hs | exact Hcpu].
    intros h x Hh Hx. now rewrite (proj1 (Hentry h Hh)). }
  assert (Hm : Forall2 (fun e y => Jq.path memory_path e = Some (JNum y)) l ys).
  { apply Forall2_map_l.
    apply (Forall2_Forall_l (sampled_for (MODE c))
             (fun h y => memory_sample h = Some (JNum y)));
      [| exact Hs | exact Hmem].
    intros h y Hh Hy. now rewrite (proj1 (proj2 (Hentry h Hh))). }
  destruct hs as [| h0 hs]; [contradiction |].
  destruct (last (h0 :: hs)) as [hn |] eqn:Hlast;
    [| apply last_None in Hlast; discriminate].
  assert (H0 : sampled_for (MODE c) h0).
  { rewrite Forall_forall in Hs. apply Hs. left. }
  assert (Hn : sampled_for (MODE c) hn).
  { rewrite Forall_forall in Hs. apply Hs. now apply last_Some_elem_of. }
  exists l, (date_utc h0), (date_utc hn).
  split; [now apply collected_known |].
  split; [reflexivity |].
  split; [change (map date_utc (h0 :: hs)) with (date_utc <$> h0 :: hs);
          now rewrite fmap_last, Hlast |].
  unfold stats_object.
  rewrite (average_of_numbers cpu_path l xs Hl Hc),
    (average_of_numbers memory_path l ys Hl Hm).
  assert (Hlast' : last l = Some (entry hn)).
  { subst l. change (map entry (h0 :: hs)) with (entry <$> h0 :: hs).
    now rewrite fmap_last, Hlast. }
  rewrite Hlast'. subst l. cbn [map head default]. unfold id.
  rewrite (proj2 (proj2 (Hentry h0 H0))), (proj2 (proj2 (Hentry hn Hn))).
  cbn [mbind option_bind]. unfold Jq.count.
  change (entry h0 :: map entry hs) with (map entry (h0 :: hs)).
  now rewrite length_map.
Qed.

Lemma statistics_of_collected_entries_witness :
  exists entries t1 t2,
    collected (with_mode "extended" defaults)
      [sampled_host "2025-09-17 10:00:00" 10 40;
       sampled_host "2025-09-17 10:01:00" 20 50] = Some entries
    /\ head (map date_utc [sampled_host "2025-09-17 10:00:00" 10 40;
                           sampled_host "2025-09-17 10:01:00" 20 50])
       = Some t1
    /\ last (map date_utc [sampled_host "2025-09-17 10:00:00" 10 40;
                           sampled_host "2025-09-17 10:01:00" 20 50])
       = Some t2
    /\ stats_object (JArr entries)
       = Some (JObj [("total_entries",
                      JNum (Double.of_Z
                              (Z.of_nat
                                 (length
                                    [sampled_host "2025-09-17 10:00:00" 10 40;
                                     sampled_host "2025-09-17 10:01:00" 20
                                       50]))));
                     ("first_timestamp", JStr t1);
                     ("last_timestamp", JStr t2);
                     ("avg_cpu",
                      JNum (mean64 [Double.Finite 10; Double.Finite 20]));
                     ("avg_memory",
                      JNum (mean64 [Double.Finite 40; Double.Finite 50]))]).
Proof.
  apply (statistics_of_collected_entries (with_mode "extended" defaults)
           [sampled_host "2025-09-17 10:00:00" 10 40;
            sampled_host "2025-09-17 10:01:00" 20 50]
           [Double.Finite 10; Double.Finite 20]
           [Double.Finite 40; Double.Finite 50]).
  - reflexivity.
  - discriminate.
  - repeat constructor; eauto; intros _; repeat split; eauto.
  - repeat constructor.
  - repeat constructor.
Defined.

Lemma collect_entry_unsampled c h :
  is_mode (MODE c) = true -> ~ sampled_for (MODE c) h ->
  collect_entry c h = None.
Proof.
  intros Hmode Hn. apply InputParserFacts.is_mode_In in Hmode.
  assert (Hext : MODE c = "extended" \/ MODE c = "full" ->
                 collect_entry c h = None).
  { intros Hm. rewrite (collect_entry_extended c h Hm).
    rewrite extended_system_unsampled; [reflexivity |].
    intros (Hc & Hmem & Hd & Hi & Hnet & Ht). apply Hn.
    split; [exact Hc |]. split; [exact Hmem |]. split; [exact Hd |].
    intros _. auto. }
  destruct Hmode as [Hm | [Hm | [Hm | []]]]; symmetry in Hm.
  - rewrite (collect_entry_minimal c h Hm).
    rewrite minimal_system_unsampled; [reflexivity |].
    intros (Hc & Hmem & Hd). apply Hn.
    split; [exact Hc |]. split; [exact Hmem |]. split; [exact Hd |].
    intros Hne. now destruct Hne.
  - apply Hext. now left.
  - apply Hext. now right.
Qed.

(** X27.  In the modes minimal, extended and full, a round of the monitor
    in which a sampler of the mode fails stops the monitor: the entry is
    empty, jq rejects it as its [--argjson entry], and under [set -e] the
    script dies in [append_entry], leaving the lock file in place with its
    own process identifier in it, an empty temporary file, and the output
    file as it was.  When every sampler printed a value, the round is the
    append of the entry collected. *)
Theorem failed_sampler_stops_the_monitor
  (jq_parse : string -> parsed) (several : list bool -> bool)
  (c : config) (pid : N) (max : Z) (h : host) (fs : files) :
  is_mode (MODE c) = true ->
  (~ sampled_for (MODE c) h ->
   exists fs',
     monitor_round jq_parse several quiet c pid max h fs = Died fs'
     /\ fs' !! LOCK_FILE c = Some (Bytes (Num.dec pid ++ Text.nl))
     /\ fs' !! temp_file c = Some (Bytes "")
     /\ fs' !! OUTPUT_FILE c = fs !! OUTPUT_FILE c)
  /\ (sampled_for (MODE c) h ->
      exists entry,
        collect_entry c h = Some entry
        /\ monitor_round jq_parse several quiet c pid max h fs
           = append_entry jq_parse several quiet c pid max entry fs).
Proof.
  intros Hmode. split.
  - intros Hn. unfold monitor_round.
    rewrite (collect_entry_unsampled c h Hmode Hn).
    eexists. split; [reflexivity |]. apply append_entry_died_files.
  - intros Hs. destruct (collect_entry_sampled c h Hs) as [entry Hentry].
    exists entry. split; [exact Hentry |].
    unfold monitor_round. now rewrite Hentry.
Qed.

Lemma failed_sampler_stops_the_monitor_witness :
  exists fs',
    monitor_round reads_empty_array last_decides quiet
      (with_mode "minimal" defaults) 4242 1440 (host_without_memory false)
      {[ OUTPUT_FILE defaults := Printed [JArr []] ]}
    = Died fs'
    /\ fs' !! LOCK_FILE defaults = Some (Bytes (Num.dec 4242 ++ Text.nl))
    /\ fs' !! temp_file defaults = Some (Bytes "")
    /\ fs' !! OUTPUT_FILE defaults = Some (Printed [JArr []]).
Proof.
  destruct (failed_sampler_stops_the_monitor reads_empty_array last_decides
              (with_mode "minimal" defaults) 4242 1440
              (host_without_memory false)
              {[ OUTPUT_FILE defaults := Printed [JArr []] ]} eq_refl)
    as [Hdies _].
  destruct Hdies as (fs' & Hrun & Hlock & Htemp & Hout).
  - intros (_ & [m Hm] & _). vm_compute in Hm. discriminate Hm.
  - exists fs'. split; [exact Hrun |]. split; [exact Hlock |].
    split; [exact Htemp |].
    etransitivity; [exact Hout | apply lookup_singleton_eq].
Defined.

(** ** Memory: what jq refuses *)

(** X17.  On a line with fewer than seven columns [get_memory_info] fails:
    the column of the available bytes is missing, [.[6]] is null, and
    [tonumber] does not take null. *)
Theorem get_memory_info_needs_seven_columns (strict : bool) (line : string) :
  (length (mem_columns line) <= 6)%nat ->
  get_memory_info strict line = None.
Proof.
  intros Hlen. unfold get_memory_info. fold (mem_columns line).
  assert (Hnone : Jq.tonumber strict
                    (Jq.index 6 (map JStr (mem_columns line)))
                  = None).
  { unfold Jq.index. rewrite (proj2 (nth_error_None _ _)); [reflexivity |].
    now rewrite length_map. }
  rewrite Hnone.
  destruct (Jq.tonumber strict (Jq.index 1 _)); [| reflexivity].
  destruct (Jq.tonumber strict (Jq.index 2 _)); [| reflexivity].
  destruct (Jq.tonumber strict (Jq.index 3 _)); reflexivity.
Qed.

Lemma get_memory_info_needs_seven_columns_witness :
  get_memory_info false "Mem:  1000  250  600  10  150" = None.
Proof.
  apply get_memory_info_needs_seven_columns. vm_compute. lia.
Defined.

(** X18.  On a [Mem:] line whose total is 0 [get_memory_info] fails: jq
    does not divide by zero, and no usage is reported. *)
Theorem get_memory_info_zero_total (strict : bool) (r : mem_reading)
  (pad : nat -> nat) :
  mem_total r = 0%N ->
  get_memory_info strict (free_line r pad) = None.
Proof.
  intros Htotal. unfold get_memory_info. rewrite free_line_fields.
  cbn [map Jq.index nth_error default]. unfold id.
  rewrite !tonumber_digits. destruct strict.
  - now rewrite tonumber_strict_newline.
  - rewrite tonumber_dec by reflexivity. rewrite Htotal. reflexivity.
Qed.

Lemma get_memory_info_zero_total_witness :
  get_memory_info false
    (free_line {| mem_total := 0; mem_used := 0; mem_free := 0;
                  mem_shared := 0; mem_cache := 0; mem_available := 0 |}
       (fun _ => 7%nat))
  = None.
Proof. now apply get_memory_info_zero_total. Defined.

(** ** Disks *)

Lemma filter_split_pieces sep s :
  List.filter Text.nonempty (Text.split sep s)
  = List.filter Text.nonempty (Text.pieces (Ascii.eqb sep) s).
Proof. now destruct s. Qed.

Lemma pieces_line is_sep a l rest :
  is_sep a = true -> sep_free is_sep l = true ->
  Text.pieces is_sep (l ++ String a rest) = l :: Text.pieces is_sep rest.
Proof.
  intros Ha Hl. rewrite (pieces_word is_sep l _ Hl).
  cbn [Text.pieces]. rewrite Ha. now rewrite append_empty_r.
Qed.

Lemma lines_of_unlines ls :
  Forall (fun l => word (Ascii.eqb "010") l) ls ->
  List.filter Text.nonempty (Text.split "010" (Sh.unlines ls)) = ls.
Proof.
  intros Hls. rewrite filter_split_pieces.
  induction Hls as [| l ls [Hne Hfree] _ IH]; [reflexivity |].
  cbn [Sh.unlines]. unfold Text.nl. rewrite append_cons.
  change ("" ++ Sh.unlines ls)%string with (Sh.unlines ls).
  rewrite pieces_line by (reflexivity || exact Hfree).
  cbn [List.filter]. now rewrite Hne, IH.
Qed.

Lemma blank_free_space w :
  word Num.is_blank w -> word (Ascii.eqb " ") w.
Proof.
  intros [Hne Hfree]. split; [exact Hne |]. unfold sep_free in *.
  eapply all_chars_impl; [| exact Hfree].
  intros a Ha. destruct (Ascii.eqb_spec " " a) as [<- | _];
    [discriminate Ha | reflexivity].
Qed.

Lemma blank_free_newline w :
  sep_free Num.is_blank w = true -> sep_free (Ascii.eqb "010") w = true.
Proof.
  unfold sep_free. apply all_chars_impl.
  intros a Ha. destruct (Ascii.eqb_spec "010" a) as [<- | _];
    [discriminate Ha | reflexivity].
Qed.

Lemma digit_not_newline a :
  Num.is_digit a = true -> negb (Ascii.eqb "010" a) = true.
Proof.
  destruct a as [[] [] [] [] [] [] [] []]; vm_compute; intros H;
    try reflexivity; discriminate H.
Qed.

Lemma spaces_newline_free n : sep_free (Ascii.eqb "010") (spaces n) = true.
Proof. induction n as [| n IH]; [reflexivity | exact IH]. Qed.

Lemma dec_newline_free n : sep_free (Ascii.eqb "010") (Num.dec n) = true.
Proof.
  unfold sep_free. eapply all_chars_impl; [| apply dec_all_digits].
  apply digit_not_newline.
Qed.

Lemma columns_newline_free cols :
  Forall (fun col => sep_free (Ascii.eqb "010") (snd col) = true) cols ->
  sep_free (Ascii.eqb "010") (columns cols) = true.
Proof.
  induction 1 as [| [pad w] cols Hw _ IH]; [reflexivity |].
  cbn [columns]. unfold sep_free in *.
  apply all_chars_append; [apply (spaces_newline_free (S pad)) |].
  now apply all_chars_append.
Qed.

Lemma df_row_fields r pad :
  plain_row r ->
  List.filter Text.nonempty (Text.split " " (df_row r pad))
  = [fs_name r; Num.dec (fs_size r); Num.dec (fs_used r);
     Num.dec (fs_available r); (Num.dec (fs_use r) ++ "%")%string;
     fs_mount r].
Proof.
  intros [Hname Hmount]. rewrite filter_split_pieces. unfold df_row.
  rewrite <- (append_empty_r (columns _)).
  rewrite (fields_line (Ascii.eqb " ")); try reflexivity.
  - now apply blank_free_space.
  - repeat lazymatch goal with
           | |- Forall _ (_ :: _) => constructor
           | |- Forall _ [] => constructor
           end; cbn [snd];
      try (apply dec_word, digit_not_space).
    + apply dec_is_word; [apply digit_not_space | reflexivity].
    + now apply blank_free_space.
Qed.

Lemma df_row_is_a_line r pad :
  plain_row r -> word (Ascii.eqb "010") (df_row r pad).
Proof.
  intros [[Hne Hname] [_ Hmount]]. split.
  - unfold df_row. now apply nonempty_append.
  - unfold df_row. apply all_chars_append;
      [now apply blank_free_newline |].
    apply columns_newline_free.
    repeat lazymatch goal with
           | |- Forall _ (_ :: _) => constructor
           | |- Forall _ [] => constructor
           end; cbn [snd]; try apply dec_newline_free.
    + apply all_chars_append; [apply dec_newline_free | reflexivity].
    + now apply blank_free_newline.
Qed.

Lemma disk_object_of_row strict r pad :
  plain_row r ->
  disk_object strict (map JStr (List.filter Text.nonempty
                           (Text.split " " (df_row r pad))))
  = Some (disk_json r).
Proof.
  intros Hr. rewrite (df_row_fields r pad Hr). unfold disk_object.
  cbn [map Jq.index nth_error default]. unfold id. cbn [rtrimstr_value].
  rewrite (rtrimstr_last (Num.dec (fs_use r)) "%"), !tonumber_digits.
  reflexivity.
Qed.

(** X20.  [get_disk_info] reads back what [df] prints: for rows whose
    file system and mount point have no blanks, printed one per line with
    any padding between the columns, it returns one object per row, in
    order, with the four byte counts and the percentage as numbers (the
    percent sign removed) and the two names as they are.  Nothing printed
    gives the empty array. *)
Theorem get_disk_info_reads_df (strict : bool)
  (rs : list (disk_row * (nat -> nat))) :
  Forall (fun r => plain_row (fst r)) rs ->
  get_disk_info strict (df_text rs)
  = Some (JArr (map (fun r => disk_json (fst r)) rs))
  /\ get_disk_info strict "" = Some (JArr []).
Proof.
  intros Hrs. split; [| reflexivity]. unfold get_disk_info, df_text. cbv zeta.
  rewrite lines_of_unlines.
  - assert (Hm : mapM (fun line =>
                          disk_object strict
                            (map JStr (List.filter Text.nonempty
                                         (Text.split " " line))))
                   (map (fun r => df_row (fst r) (snd r)) rs)
                 = Some (map (fun r => disk_json (fst r)) rs)).
    { apply mapM_Some.
      induction Hrs as [| [r pad] rs Hr _ IH]; constructor; [| exact IH].
      now apply disk_object_of_row. }
    now rewrite Hm.
  - apply Forall_map. eapply Forall_impl; [exact Hrs |].
    intros [r pad] Hr. now apply df_row_is_a_line.
Qed.

Lemma get_disk_info_reads_df_witness :
  get_disk_info true (df_text sample_rows)
  = Some (JArr (map (fun r => disk_json (fst r)) sample_rows))
  /\ get_disk_info true "" = Some (JArr []).
Proof.
  apply get_disk_info_reads_df.
  repeat constructor.
Defined.

(** ** Uptime *)

Lemma lines_one l :
  sep_free (Ascii.eqb "010") l = true -> Sh.lines (l ++ Text.nl) = [l].
Proof.
  intros Hl. unfold Sh.lines, Text.nl.
  rewrite (pieces_line (Ascii.eqb "010") "010" l "" eq_refl Hl).
  reflexivity.
Qed.

Lemma take_while_word p w a rest :
  Text.all_chars p w = true -> p a = false ->
  Num.take_while p (w ++ String a rest) = w.
Proof.
  intros Hw Ha. induction w as [| b w IH].
  - change ("" ++ String a rest)%string with (String a rest).
    cbn [Num.take_while]. now rewrite Ha.
  - cbn in Hw. apply andb_prop in Hw as [Hb Hw].
    rewrite append_cons. cbn [Num.take_while]. now rewrite Hb, (IH Hw).
Qed.

Lemma digit_not_point a :
  Num.is_digit a = true -> negb (Ascii.eqb a ".") = true.
Proof.
  destruct a as [[] [] [] [] [] [] [] []]; vm_compute; intros H;
    try reflexivity; discriminate H.
Qed.

Lemma digit_not_a_space a :
  Num.is_digit a = true -> negb (Ascii.eqb a " ") = true.
Proof.
  destruct a as [[] [] [] [] [] [] [] []]; vm_compute; intros H;
    try reflexivity; discriminate H.
Qed.

(** X21.  [get_system_info] reports the uptime in whole seconds, cut, not
    rounded: from the line of [/proc/uptime], seconds with their
    hundredths, a space and the idle time, the two [cut] keep the digits
    before the point, and jq reads them back as the number of seconds. *)
Theorem get_system_info_whole_seconds (strict : bool)
  (hostname kernel : string) (seconds : N) (hundredths idle : string) :
  Text.all_chars Num.is_digit hundredths = true ->
  sep_free (Ascii.eqb "010") idle = true ->
  get_system_info strict hostname kernel
    (uptime_text seconds hundredths idle)
  = Some (JObj [("hostname", JStr hostname); ("kernel", JStr kernel);
                ("uptime_seconds", JNum (Num.of_N seconds))]).
Proof.
  intros Hh Hidle. unfold get_system_info. cbv zeta.
  assert (Hline : sep_free (Ascii.eqb "010")
                    (Num.dec seconds ++ "." ++ hundredths ++ " " ++ idle)
                  = true).
  { unfold sep_free.
    apply all_chars_append; [apply dec_newline_free |].
    apply (all_chars_append _ "."); [reflexivity |].
    apply all_chars_append.
    - eapply all_chars_impl; [| exact Hh]. apply digit_not_newline.
    - now apply (all_chars_append _ " "). }
  assert (Hfirst : Sh.cut_f1 " " (uptime_text seconds hundredths idle)
                   = (Num.dec seconds ++ "." ++ hundredths ++ Text.nl)%string).
  { unfold Sh.cut_f1, uptime_text.
    replace (Num.dec seconds ++ "." ++ hundredths ++ " " ++ idle
             ++ Text.nl)%string
      with ((Num.dec seconds ++ "." ++ hundredths ++ " " ++ idle)
            ++ Text.nl)%string
      by (now rewrite !append_assoc).
    rewrite (lines_one _ Hline). cbn [map Sh.unlines].
    replace (Num.dec seconds ++ "." ++ hundredths ++ " " ++ idle)%string
      with ((Num.dec seconds ++ "." ++ hundredths) ++ String " " idle)%string
      by (now rewrite !append_assoc).
    rewrite take_while_word; [now rewrite !append_assoc | | reflexivity].
    apply all_chars_append.
    - eapply all_chars_impl; [| apply dec_all_digits]. apply digit_not_a_space.
    - apply (all_chars_append _ "."); [reflexivity |].
      eapply all_chars_impl; [| exact Hh]. apply digit_not_a_space. }
  assert (Hsecond : Sh.cut_f1 "." (Num.dec seconds ++ "." ++ hundredths
                                   ++ Text.nl)
                    = (Num.dec seconds ++ Text.nl)%string).
  { unfold Sh.cut_f1.
    replace (Num.dec seconds ++ "." ++ hundredths ++ Text.nl)%string
      with ((Num.dec seconds ++ "." ++ hundredths) ++ Text.nl)%string
      by (now rewrite !append_assoc).
    rewrite lines_one.
    - cbn [map Sh.unlines].
      change ("." ++ hundredths)%string with (String "." hundredths).
      rewrite take_while_word; [reflexivity | | reflexivity].
      eapply all_chars_impl; [| apply dec_all_digits]. apply digit_not_point.
    - unfold sep_free. apply all_chars_append; [apply dec_newline_free |].
      apply (all_chars_append _ "."); [reflexivity |].
      eapply all_chars_impl; [| exact Hh]. apply digit_not_newline. }
  rewrite Hfirst, Hsecond. unfold Sh.substitution.
  rewrite drop_trailing_word; [| | reflexivity].
  - now rewrite tonumber_digits.
  - eapply all_chars_impl; [| apply dec_all_digits]. apply digit_not_newline.
Qed.

Lemma get_system_info_whole_seconds_witness :
  get_system_info true "fv-az1" "6.8.0-1017-azure"
    (uptime_text 12345 "99" "54321.00")
  = Some (JObj [("hostname", JStr "fv-az1");
                ("kernel", JStr "6.8.0-1017-azure");
                ("uptime_seconds", JNum (Num.of_N 12345))]).
Proof.
  apply get_system_info_whole_seconds; reflexivity.
Defined.

(** ** Network interfaces *)

Lemma interface_object_without_lo i o :
  select_interface i = Some [i] ->
  interface_object i = Some o ->
  Jq.field "interface" o <> Some (JStr "lo").
Proof.
  unfold select_interface, interface_object.
  destruct (Jq.field "ifname" i) as [ifname |]; [| discriminate].
  cbn [mbind option_bind].
  destruct (not_lo ifname) eqn:Hlo; [| discriminate]. intros _.
  destruct (Jq.field "operstate" i); [| discriminate].
  cbn [mbind option_bind].
  destruct (Jq.path ["stats64"; "rx"; "bytes"] i); [| discriminate].
  cbn [mbind option_bind].
  destruct (Jq.path ["stats64"; "tx"; "bytes"] i); [| discriminate].
  cbn [mbind option_bind]. intros H. injection H as <-.
  intros Hname. cbn in Hname. injection Hname as ->. discriminate Hlo.
Qed.

Lemma selected_are_selected items : forall selected,
  mapM select_interface items = Some selected ->
  Forall (fun i => select_interface i = Some [i]) (concat selected).
Proof.
  induction items as [| i items IH]; intros selected H.
  - cbn in H. injection H as <-. constructor.
  - cbn in H. destruct (select_interface i) as [s |] eqn:Hs; [| discriminate].
    cbn in H. destruct (mapM select_interface items) as [ss |];
      [| discriminate].
    cbn in H. injection H as <-. cbn [concat].
    apply Forall_app. split; [| now apply IH].
    unfold select_interface in Hs.
    destruct (Jq.field "ifname" i) as [ifname |] eqn:Hf; [| discriminate].
    cbn in Hs. destruct (not_lo ifname) eqn:Hlo; injection Hs as <-.
    + constructor; [| constructor].
      unfold select_interface. rewrite Hf. cbn. now rewrite Hlo.
    + constructor.
Qed.

Lemma network_filter_without_lo doc out :
  network_filter doc = Some out -> without_lo out.
Proof.
  unfold network_filter.
  destruct (iterate doc) as [items |]; [| discriminate]. cbn.
  destruct (mapM select_interface items) as [selected |] eqn:Hsel;
    [| discriminate].
  cbn. pose proof (selected_are_selected items selected Hsel) as Hall.
  destruct (mapM interface_object (concat selected)) as [objs |] eqn:Hobj;
    [| discriminate].
  cbn. intros H. injection H as <-. exists objs. split; [reflexivity |].
  apply mapM_Some in Hobj.
  clear Hsel. induction Hobj as [| i o rest objs Hio _ IH]; [constructor |].
  apply Forall_cons in Hall as [Hi Hall].
  constructor; [| now apply IH].
  eapply interface_object_without_lo; eassumption.
Qed.

Lemma empty_without_lo : without_lo (JArr []).
Proof. exists []. split; [reflexivity | constructor]. Qed.

(** X22.  Whatever [ip] does and prints, every document
    [get_network_info] prints is an array, and no element of it is named
    lo: the loopback interface is never listed.  When [ip -j link show]
    fails, and when jq cannot run its program on what [ip] printed, the
    output is the empty array alone. *)
Theorem get_network_info_never_lists_lo (ip_j : bool) (ip_s : piped) :
  Forall without_lo (get_network_info ip_j ip_s)
  /\ get_network_info false ip_s = [JArr []]
  /\ forall doc,
       network_filter doc = None ->
       get_network_info ip_j
         {| status_ok := true; document := Some doc; garbage := false |}
       = [JArr []].
Proof.
  split; [| split; [reflexivity |]].
  - unfold get_network_info.
    destruct ip_j; [| constructor; [apply empty_without_lo | constructor]].
    unfold jq_run.
    destruct (document ip_s) as [d |].
    + destruct (network_filter d) as [out |] eqn:Hd.
      * pose proof (network_filter_without_lo d out Hd) as Hout.
        destruct (status_ok ip_s && negb (garbage ip_s));
          repeat constructor; auto using empty_without_lo.
      * rewrite andb_false_r. repeat constructor. apply empty_without_lo.
    + destruct (status_ok ip_s && negb (garbage ip_s));
        repeat constructor; apply empty_without_lo.
  - intros doc Hdoc. unfold get_network_info, jq_run. cbn [document].
    rewrite Hdoc. now destruct ip_j.
Qed.

(** ** The input parser on valid inputs *)

Module ParseIntFacts.
Import InputParser.

Lemma digit_value_not_digit a :
  Num.is_digit a = false -> digit_value 10 a = None.
Proof.
  destruct a as [[] [] [] [] [] [] [] []]; vm_compute; intros H;
    try reflexivity; discriminate H.
Qed.

Lemma digits_end acc rest :
  ends_number rest = true -> digits 10 acc rest = acc.
Proof.
  destruct rest as [| a rest]; [reflexivity |]. cbn [ends_number digits].
  intros H. apply andb_prop in H as [H _]. apply andb_prop in H as [H _].
  apply negb_true_iff in H. now rewrite (digit_value_not_digit a H).
Qed.

(** Reading on after a first digit other than 0. *)
Lemma digits_acc d : forall acc rest,
  ends_number rest = true ->
  digits 10 (Some (Z.pos acc)) (NilEmpty.string_of_uint d ++ rest)
  = Some (Z.pos (Pos.of_uint_acc d acc)).
Proof.
  induction d; intros acc rest Hrest;
    cbn [NilEmpty.string_of_uint Pos.of_uint_acc];
    try (rewrite append_cons; cbn [digits];
         match goal with
         | |- context [digit_value 10 ?a] =>
             change (digit_value 10 a)
               with (Some (Z.of_N (N_of_ascii a) - 48)%Z)
         end;
         cbn [default N_of_ascii N_of_digits Z.of_N];
         rewrite <- (IHd _ rest Hrest); do 2 f_equal; cbn; lia).
  now apply digits_end.
Qed.

Ltac first_digit d rest Hrest k :=
  rewrite append_cons; cbn [digits];
  match goal with
  | |- context [digit_value 10 ?a] =>
      change (digit_value 10 a) with (Some (Z.pos k))
  end;
  cbn [default Z.of_N];
  now rewrite <- (digits_acc d k rest Hrest).

Lemma digits_uint d : forall rest,
  ends_number rest = true ->
  digits 10 (Some 0%Z) (NilEmpty.string_of_uint d ++ rest)
  = Some (Z.of_N (Pos.of_uint d)).
Proof.
  induction d; intros rest Hrest;
    cbn [NilEmpty.string_of_uint Pos.of_uint].
  - now apply digits_end.
  - rewrite append_cons. cbn [digits].
    change (digit_value 10 "0") with (Some 0%Z). cbn [default].
    now apply IHd.
  - first_digit d rest Hrest 1%positive.
  - first_digit d rest Hrest 2%positive.
  - first_digit d rest Hrest 3%positive.
  - first_digit d rest Hrest 4%positive.
  - first_digit d rest Hrest 5%positive.
  - first_digit d rest Hrest 6%positive.
  - first_digit d rest Hrest 7%positive.
  - first_digit d rest Hrest 8%positive.
  - first_digit d rest Hrest 9%positive.
Qed.

Lemma digits_dec n rest :
  ends_number rest = true ->
  digits 10 None (Num.dec n ++ rest) = Some (Z.of_N n).
Proof.
  intros Hrest. unfold Num.dec, NilZero.string_of_uint.
  pose proof (DecimalN.Unsigned.of_to n) as Hn. unfold N.of_uint in Hn.
  destruct (N.to_uint n) as [| d | d | d | d | d | d | d | d | d | d] eqn:E;
    rewrite <- Hn.
  1: { rewrite append_cons. cbn [digits].
       change (digit_value 10 "0") with (Some 0%Z). cbn [default].
       now apply digits_end. }
  all: rewrite <- (digits_uint _ rest Hrest);
    cbn [NilEmpty.string_of_uint]; rewrite !append_cons; reflexivity.
Qed.

Lemma digit_not_parse_space a : Num.is_digit a = true -> is_space a = false.
Proof.
  destruct a as [[] [] [] [] [] [] [] []]; vm_compute; intros H;
    try reflexivity; discriminate H.
Qed.

Lemma sign_one (o : option Z) :
  match o with Some v => Double.of_Z (1 * v) | None => NaN end
  = match o with Some v => Double.of_Z v | None => NaN end.
Proof. destruct o as [v |]; [| reflexivity]. now destruct v. Qed.

Lemma parseInt_unsigned a w :
  Num.is_digit a = true -> no_prefix w = true ->
  parseInt (String a w)
  = match digits 10 None (String a w) with
    | Some v => Double.of_Z v
    | None => NaN
    end.
Proof.
  intros Ha Hw. unfold parseInt. cbn [Num.drop_while].
  rewrite (digit_not_parse_space a Ha).
  destruct a as [[] [] [] [] [] [] [] []]; try discriminate Ha;
    try (cbv beta iota zeta; apply sign_one).
  destruct w as [| b w]; [cbv beta iota zeta; apply sign_one |].
  cbn [no_prefix] in Hw. apply andb_prop in Hw as [Hx HX].
  apply negb_true_iff in Hx, HX.
  destruct b as [[] [] [] [] [] [] [] []]; try discriminate Hx;
    try discriminate HX; cbv beta iota zeta; apply sign_one.
Qed.

Lemma dec_no_prefix n rest :
  ends_number rest = true ->
  exists a w, (Num.dec n ++ rest)%string = String a w
              /\ Num.is_digit a = true /\ no_prefix w = true.
Proof.
  intros Hrest. pose proof (dec_all_digits n) as Hall.
  destruct (dec_starts_with_digit n) as (a & s & He & _).
  rewrite He in Hall |- *.
  cbn in Hall. apply andb_prop in Hall as [Ha Hs].
  exists a, (s ++ rest)%string. split; [now rewrite append_cons |].
  split; [exact Ha |].
  destruct s as [| b s].
  - change ("" ++ rest)%string with rest.
    destruct rest as [| r rest]; [reflexivity |].
    cbn in Hrest |- *. apply andb_prop in Hrest as [Hrest HX].
    apply andb_prop in Hrest as [_ Hx]. now rewrite Hx, HX.
  - cbn in Hs. apply andb_prop in Hs as [Hb _].
    rewrite append_cons. cbn [no_prefix].
    destruct b as [[] [] [] [] [] [] [] []]; try discriminate Hb; reflexivity.
Qed.

Lemma parseInt_skips_spaces ws s :
  Text.all_chars is_space ws = true ->
  parseInt (ws ++ s) = parseInt s.
Proof.
  intros Hws. unfold parseInt.
  assert (Hd : Num.drop_while is_space (ws ++ s)
               = Num.drop_while is_space s).
  { induction ws as [| b ws IH]; [reflexivity |].
    cbn in Hws. apply andb_prop in Hws as [Hb Hws].
    rewrite append_cons. cbn [Num.drop_while]. rewrite Hb. now apply IH. }
  now rewrite Hd.
Qed.

(** [parseInt] reads a decimal number back, after white space and before
    anything that ends a number: as the binary64 number nearest to it. *)
Lemma parseInt_dec ws n rest :
  Text.all_chars is_space ws = true ->
  ends_number rest = true ->
  parseInt (ws ++ Num.dec n ++ rest) = Double.of_Z (Z.of_N n).
Proof.
  intros Hws Hrest. rewrite parseInt_skips_spaces by exact Hws.
  destruct (dec_no_prefix n rest Hrest) as (a & w & He & Ha & Hw).
  rewrite He, (parseInt_unsigned a w Ha Hw), <- He.
  now rewrite (digits_dec n rest Hrest).
Qed.

(** [parseInt(s, 10)] reads back the decimal text of a number. *)
Lemma parseInt10_dec n :
  Post.parseInt10 (Num.dec n) = Double.of_Z (Z.of_N n).
Proof.
  unfold Post.parseInt10.
  destruct (dec_starts_with_digit n) as (a & s & He & Ha).
  assert (Hd : digits 10 None (Num.dec n) = Some (Z.of_N n)).
  { rewrite <- (append_empty_r (Num.dec n)). now apply digits_dec. }
  rewrite He in *. cbn [Num.drop_while].
  rewrite (digit_not_parse_space a Ha).
  destruct a as [[] [] [] [] [] [] [] []]; try discriminate Ha;
    cbv beta iota zeta; rewrite Hd; f_equal; lia.
Qed.

(** Up to [2^53] the number read is the integer itself. *)
Lemma of_Z_Int z : (0 <= z <= 2 ^ 53)%Z -> Double.of_Z z = Int z.
Proof. apply DoubleFacts.round_Z. Qed.

End ParseIntFacts.

(** X23.  [parseInputs] keeps what is valid: for a mode that is one of
    minimal, extended and full, and an interval input that is the decimal
    text of a number [n] between 1 and 2^53, possibly after white space and
    before text that ends a number (a fraction, a unit), it returns that
    mode and the interval [n]: the fraction is cut, not rounded. *)
Theorem parseInputs_keeps_valid_inputs (m : string) (n : N)
  (ws rest : string) :
  is_mode m = true ->
  (1 <= n <= 2 ^ 53)%N ->
  Text.all_chars InputParser.is_space ws = true ->
  ends_number rest = true ->
  InputParser.parseInputs (inputs m (ws ++ Num.dec n ++ rest))
  = {| InputParser.mode := m;
       InputParser.interval := InputParser.Int (Z.of_N n) |}.
Proof.
  intros Hm Hn Hws Hrest.
  unfold InputParser.parseInputs.
  change (inputs m (ws ++ Num.dec n ++ rest) "mode") with m.
  change (inputs m (ws ++ Num.dec n ++ rest) "interval")
    with (ws ++ Num.dec n ++ rest)%string.
  rewrite (ParseIntFacts.parseInt_dec ws n rest Hws Hrest).
  rewrite ParseIntFacts.of_Z_Int by lia.
  assert (Hmode : InputParser.or_string m "minimal" = m).
  { destruct m; [discriminate Hm | reflexivity]. }
  rewrite Hmode. fold modes. fold (is_mode m). rewrite Hm.
  cbn [negb]. rewrite InputParserFacts.interval_kept by lia.
  reflexivity.
Qed.

Lemma parseInputs_keeps_valid_inputs_witness :
  InputParser.parseInputs (inputs "extended" (" " ++ Num.dec 5 ++ ".5"))
  = {| InputParser.mode := "extended";
       InputParser.interval := InputParser.Int (Z.of_N 5) |}.
Proof.
  apply (parseInputs_keeps_valid_inputs "extended" 5 " " ".5");
    try reflexivity.
  split; discriminate.
Defined.

(** ** The post step *)

(** X25.  [post] does nothing without a saved process identifier.  With
    one, the files it uploads are exactly those of the saved output file
    and the saved log file, in this order, whose name is not empty and
    which exist; it never calls the upload with no file, and the root
    directory is RUNNER_TEMP, or /tmp when that is unset or empty. *)
Theorem post_uploads_existing_files
  (getState : string -> string) (existsSync : string -> bool)
  (e : Launcher.env) :
  let wanted :=
    List.filter (fun f => negb (String.eqb f "") && existsSync f)
      [getState "outputFile"; getState "logFile"] in
  match Post.post getState existsSync e with
  | None => getState "monitorPid" = ""
  | Some c =>
      getState "monitorPid" <> ""
      /\ Post.signalled c = Post.parseInt10 (getState "monitorPid")
      /\ match Post.uploaded c with
         | None => wanted = []
         | Some (files, root) =>
             files = wanted
             /\ files <> []
             /\ Forall (fun f => f <> "" /\ existsSync f = true) files
             /\ root = Launcher.or_env (e "RUNNER_TEMP") "/tmp"
         end
  end.
Proof.
  cbv zeta. unfold Post.post.
  destruct (getState "monitorPid") as [| a s]; [reflexivity |].
  split; [discriminate |]. split; [reflexivity |]. cbn [Post.uploaded].
  destruct (getState "outputFile") as [| a1 s1];
    destruct (getState "logFile") as [| a2 s2];
    cbn [Text.nonempty andb List.filter String.eqb negb].
  - reflexivity.
  - destruct (existsSync (String a2 s2)) eqn:E2; cbn; [| reflexivity].
    split; [reflexivity |]. split; [discriminate |].
    split; [| reflexivity].
    repeat constructor; [discriminate | exact E2].
  - destruct (existsSync (String a1 s1)) eqn:E1; cbn; [| reflexivity].
    split; [reflexivity |]. split; [discriminate |].
    split; [| reflexivity].
    repeat constructor; [discriminate | exact E1].
  - destruct (existsSync (String a1 s1)) eqn:E1;
      destruct (existsSync (String a2 s2)) eqn:E2; cbn; try reflexivity.
    + split; [reflexivity |]. split; [discriminate |].
      split; [| reflexivity].
      repeat constructor; (discriminate || assumption).
    + split; [reflexivity |]. split; [discriminate |].
      split; [| reflexivity].
      repeat constructor; (discriminate || assumption).
    + split; [reflexivity |]. split; [discriminate |].
      split; [| reflexivity].
      repeat constructor; (discriminate || assumption).
Qed.

(** A saved name that is empty is never uploaded, even if [existsSync]
    were to accept it. *)
Example post_skips_an_empty_name :
  Post.post
    (fun name => if String.eqb name "monitorPid" then "4242"
                 else if String.eqb name "logFile" then "/tmp/log"
                 else "")
    (fun _ => true) sample_env
  = Some {| Post.signalled := InputParser.Int 4242;
            Post.uploaded :=
              Some (["/tmp/log"], "/home/runner/work/_temp") |}.
Proof. vm_compute. reflexivity. Qed.

Lemma launcher_paths_differ (e : Launcher.env) :
  Launcher.outputFile e <> Launcher.logFile e
  /\ Launcher.outputFile e <> Launcher.pidFile e
  /\ Launcher.logFile e <> Launcher.pidFile e.
Proof. repeat split; apply append_ne; discriminate. Qed.

Lemma outputFile_nonempty e : Text.nonempty (Launcher.outputFile e) = true.
Proof.
  unfold Launcher.outputFile.
  destruct (Launcher.template (e "RUNNER_TEMP")); reflexivity.
Qed.

Lemma logFile_nonempty e : Text.nonempty (Launcher.logFile e) = true.
Proof.
  unfold Launcher.logFile.
  destruct (Launcher.template (e "RUNNER_TEMP")); reflexivity.
Qed.

(** X26.  With the [run] that passes [--job-uuid], no metrics are ever
    uploaded from a fresh runner: the script leaves at its argument loop
    with status 1 and touches no file, so the output file still does not
    exist when [post] runs; [post] signals the process whose identifier
    [run] saved, and uploads the log file alone. *)
Theorem job_uuid_run_uploads_no_metrics
  (jq_parse : string -> parsed) (getInput : string -> string)
  (e : Launcher.env) (jobUuid log : string) (pid epoch : N) (fs : files) :
  (1 <= pid <= 2 ^ 53)%N ->
  fs !! Launcher.outputFile e = None ->
  script_start jq_parse (Launcher.args_job_uuid getInput e jobUuid) epoch
    (Launcher.run_files e (Some pid) log fs)
  = (Exit 1, Launcher.run_files e (Some pid) log fs)
  /\ Launcher.run_files e (Some pid) log fs !! Launcher.outputFile e = None
  /\ Post.post (Launcher.saved_state e (Some pid))
       (exists_in (Launcher.run_files e (Some pid) log fs)) e
     = Some {| Post.signalled := InputParser.Int (Z.of_N pid);
               Post.uploaded :=
                 Some ([Launcher.logFile e],
                       Launcher.or_env (e "RUNNER_TEMP") "/tmp") |}.
Proof.
  intros Hpid Hout.
  destruct (launcher_paths_differ e) as (Hlog & Hpidf & Hlp).
  assert (Htruthy : Launcher.truthy_pid (Some pid) = Some pid).
  { unfold Launcher.truthy_pid.
    destruct (N.eqb_spec pid 0); [lia | reflexivity]. }
  assert (Hno : Launcher.run_files e (Some pid) log fs
                  !! Launcher.outputFile e = None).
  { unfold Launcher.run_files. rewrite Htruthy.
    rewrite lookup_insert_ne by (apply not_eq_sym, Hpidf).
    rewrite lookup_insert_ne by (apply not_eq_sym, Hlog). exact Hout. }
  assert (Hyes : is_Some (Launcher.run_files e (Some pid) log fs
                            !! Launcher.logFile e)).
  { unfold Launcher.run_files. rewrite Htruthy.
    rewrite lookup_insert_ne by (apply not_eq_sym, Hlp).
    rewrite lookup_insert_eq. eauto. }
  split; [reflexivity |]. split; [exact Hno |].
  unfold Post.post, Launcher.saved_state. rewrite Htruthy.
  cbn [String.eqb Ascii.eqb Bool.eqb].
  destruct (dec_starts_with_digit pid) as (a & s & Hdec & _).
  rewrite <- (ParseIntFacts.of_Z_Int (Z.of_N pid)) by lia.
  rewrite <- (ParseIntFacts.parseInt10_dec pid). rewrite Hdec.
  rewrite outputFile_nonempty, logFile_nonempty.
  unfold exists_in. rewrite Hno.
  rewrite (bool_decide_eq_false_2 (is_Some None))
    by (intros [x Hx]; discriminate Hx).
  rewrite (bool_decide_eq_true_2 _ Hyes).
  reflexivity.
Qed.

Lemma job_uuid_run_uploads_no_metrics_witness :
  script_start reads_empty_array
    (Launcher.args_job_uuid (inputs "full" "5") sample_env
       "0b0c1a3e-5a51-4c1e-9d0e-3f1d2c1b0a99") 1758103200
    (Launcher.run_files sample_env (Some 4242%N) "" ∅)
  = (Exit 1, Launcher.run_files sample_env (Some 4242%N) "" ∅)
  /\ Launcher.run_files sample_env (Some 4242%N) "" ∅
       !! Launcher.outputFile sample_env = None
  /\ Post.post (Launcher.saved_state sample_env (Some 4242%N))
       (exists_in (Launcher.run_files sample_env (Some 4242%N) "" ∅))
       sample_env
     = Some {| Post.signalled := InputParser.Int (Z.of_N 4242);
               Post.uploaded :=
                 Some ([Launcher.logFile sample_env],
                       Launcher.or_env (sample_env "RUNNER_TEMP") "/tmp") |}.
Proof.
  apply (job_uuid_run_uploads_no_metrics reads_empty_array
           (inputs "full" "5") sample_env
           "0b0c1a3e-5a51-4c1e-9d0e-3f1d2c1b0a99" "" 4242 1758103200 ∅).
  - split; discriminate.
  - apply lookup_empty.
Defined.

(** ** The numbers of this development against primitive floats

    [Double] is meant to be IEEE 754 binary64.  The examples of this file
    come out the same when the machine computes them with the primitive
    floats of Rocq. *)

Module Binary64.

Import PrimFloat.

Example memory_percent :
  of_prim (250 / 1000 * 100)%float
  = Double.mul (Double.div (Num.of_N 250) (Num.of_N 1000)) (Double.Finite 100)
  /\ of_prim (250 / 1000 * 100)%float = Double.Finite 25.
Proof. split; vm_compute; reflexivity. Qed.

Example memory_percent_of_7_in_25 :
  of_prim (7 / 25 * 100)%float = memory_usage reading_7_of_25.
Proof. vm_compute. reflexivity. Qed.

Example memory_percent_of_a_third :
  of_prim (1 / 3 * 100)%float
  = Double.mul (Double.div (Num.of_N 1) (Num.of_N 3)) (Double.Finite 100).
Proof. vm_compute. reflexivity. Qed.

Example mean_of_10_20_30 :
  of_prim ((10 + 20 + 30) / 3)%float
  = mean64 [Double.Finite 10; Double.Finite 20; Double.Finite 30].
Proof. vm_compute. reflexivity. Qed.

Example mean_of_two_tenths :
  of_prim ((1 / 10 + 2 / 10) / 2)%float
  = mean64 [Double.round (1 # 10); Double.round (2 # 10)].
Proof. vm_compute. reflexivity. Qed.

Example usage_below_a_tie :
  of_prim (100 - 5 * 100 / (0 + 0 + 19995 + 5 + 0 + 0 + 0))%float
  = usage_of {| user := 0; nice := 0; system := 19995; idle := 5;
                iowait := 0; irq := 0; softirq := 0 |}.
Proof. vm_compute. reflexivity. Qed.

Example usage_of_the_sample :
  of_prim (100 - 1117073 * 100
                 / (74608 + 2520 + 24433 + 1117073 + 6176 + 4054 + 0))%float
  = usage_of sample_times.
Proof. vm_compute. reflexivity. Qed.

Example usage_of_the_unlucky_times :
  of_prim (100 - 2122461873664 * 100
                 / (1282466134139 + 0 + 0 + 2122461873664 + 0 + 0 + 0))%float
  = usage_of unlucky_times.
Proof. vm_compute. reflexivity. Qed.

End Binary64.

